(** * backuper_script: a shallow embedding of the backup pipeline

    The development follows [src/backup.py], [src/config.py] and
    [src/notifier.py].  Python code that touches the outside world
    (file system, environment, sub-processes, object storage, HTTP) is
    written in a small state-and-exception monad over an explicit
    [World]; what the outside world answers (the dump utility, the
    storage service, the chat API, the clock) is collected in a record
    of [Externals].

    What the model fixes:
    - a path name is resolved by its text: [.] and empty pieces are
      skipped and [..] goes to the parent; links are not modelled;
    - a file is written in one step ([open], the writes and [close]);
    - the outside world answers a call by a function of what the call
      is given, and touches the files only through the output of the
      dump command;
    - [print] cannot fail, and nothing interrupts the process. *)

From Stdlib Require Import ZArith QArith List String Ascii Bool Lia.
From Stdlib Require Import Floats.SpecFloat.
From stdpp Require Import base option gmap strings pretty list fin_maps.

Local Open Scope string_scope.
Local Open Scope list_scope.

(** ** Python string primitives used by the sources *)

Module PyStr.

Definition slash : ascii := "/"%char.

Definition is_slash (c : ascii) : bool := Ascii.eqb c slash.

(** [c in chars] for a character and a string used as a set. *)
Fixpoint mem (c : ascii) (chars : string) : bool :=
  match chars with
  | EmptyString => false
  | String d r => Ascii.eqb c d || mem c r
  end.

(** [s.lstrip(chars)]: drop every leading character that occurs in
    [chars]. *)
Fixpoint lstrip (chars s : string) : string :=
  match s with
  | EmptyString => EmptyString
  | String c r => if mem c chars then lstrip chars r else s
  end.

(** [s.startswith("/")] and [s.endswith("/")]. *)
Definition startswith_sep (s : string) : bool :=
  match s with
  | String c _ => is_slash c
  | EmptyString => false
  end.

Fixpoint endswith_sep (s : string) : bool :=
  match s with
  | EmptyString => false
  | String c EmptyString => is_slash c
  | String _ r => endswith_sep r
  end.

(** [posixpath.join(a, b)] for two arguments. *)
Definition join (a b : string) : string :=
  if startswith_sep b then b
  else if String.eqb a "" || endswith_sep a then a +:+ b
  else a +:+ "/" +:+ b.

(** [posixpath.basename(p)]: what follows the last separator. *)
Fixpoint basename (p : string) : string :=
  match p with
  | EmptyString => EmptyString
  | String c r =>
      if existsb is_slash (list_ascii_of_string r) then basename r
      else if is_slash c then r else p
  end.

(** Splitting at every separator, keeping empty pieces, the way the
    kernel reads a path name. *)
Fixpoint split_sep (s : string) : list string :=
  match s with
  | EmptyString => [EmptyString]
  | String c r =>
      if is_slash c then EmptyString :: split_sep r
      else match split_sep r with
           | h :: t => String c h :: t
           | [] => [String c EmptyString]
           end
  end.

(** [str(x)] for an optional string ([None] prints as [None]). *)
Definition str_opt (o : option string) : string :=
  match o with Some s => s | None => "None" end.

(** Truthiness of an optional string: [None] and [""] are falsy. *)
Definition truthy (o : option string) : bool :=
  match o with
  | Some s => negb (String.eqb s "")
  | None => false
  end.

(** A single-quoted rendering, as [repr] gives for strings without
    quotes, backslashes or control characters. *)
Definition repr (s : string) : string := "'" +:+ s +:+ "'".

(** The double quote *)
Definition dquote : string := String (ascii_of_nat 34) EmptyString.

(** The line feed *)
Definition nl : string := String (ascii_of_nat 10) EmptyString.

End PyStr.


(** ** Settings ([src/config.py]) *)

(** The three [enabled] fields carry the name of their class, as one
    name cannot serve three records. *)
Record S3Config := {
  endpoint : string;
  bucket_name : string;
  region : string;
  s3_enabled : bool                (* enabled *)
}.

Record DatabaseConfig := {
  db_enabled : bool;               (* enabled *)
  container_name : string;
  db_user : string;
  dump_filename : string
}.

Record TelegramConfig := {
  tg_enabled : bool;               (* enabled, False by default *)
  chat_id : string
}.

Record BackupConfig := {
  s3 : S3Config;
  database : DatabaseConfig;
  telegram : TelegramConfig;
  targets : list string
}.

Record Config := { backup : BackupConfig }.

(** ** The world the process runs in *)

(** A resolved path: the names from the root down to the entry. *)
Abbreviation path := (list string).

(** An archive member: the entry name and the path it was read from. *)
Abbreviation tar_entry := (string * list string)%type.

Inductive fdata :=
| Text (s : string)
| TarGz (entries : list tar_entry).

Inductive node :=
| Dir
| Reg (d : fdata).

(** Observable actions, oldest first. *)
Inductive event :=
| Stdout (line : string)
| Subprocess (cmd : list string)
| S3Upload (endpoint_url region_name : string)
           (access_key secret_key : option string)
           (file bucket key : string)
| HttpPost (url chat text parse_mode : string).

Record World := {
  w_env : gmap string string;      (* os.environ *)
  w_cwd : path;                    (* working directory *)
  w_fs : gmap path node;           (* every entry below the root *)
  w_trace : list event
}.

(** Python exceptions.  [SystemExit] derives from [BaseException] only,
    so a handler for [Exception] does not see it. *)
Inductive exc_class := OSError | CalledProcessError | ValueError | LibraryError.

Inductive exn :=
| PyExc (cls : exc_class) (msg : string)
| SystemExit (code : Z).

Definition exc_class_eqb (a b : exc_class) : bool :=
  match a, b with
  | OSError, OSError | CalledProcessError, CalledProcessError
  | ValueError, ValueError | LibraryError, LibraryError => true
  | _, _ => false
  end.

(** [isinstance(e, Exception)] and [isinstance(e, CalledProcessError)] *)
Definition is_Exception (e : exn) : bool :=
  match e with PyExc _ _ => true | SystemExit _ => false end.

Definition is_CalledProcessError (e : exn) : bool :=
  match e with PyExc c _ => exc_class_eqb c CalledProcessError | SystemExit _ => false end.

(** [str(e)] *)
Definition str_exn (e : exn) : string :=
  match e with
  | PyExc _ msg => msg
  | SystemExit c => pretty c
  end.

Inductive result (A : Type) :=
| Ret (a : A)
| Raise (e : exn).
Arguments Ret {A} a.
Arguments Raise {A} e.

(** A Python computation: it ends normally or by an exception, and the
    world it leaves behind is kept in both cases. *)
Definition M (A : Type) : Type := World → result A * World.

#[global] Instance M_ret : MRet M := λ A a w, (Ret a, w).
#[global] Instance M_bind : MBind M := λ A B f m w,
  match m w with
  | (Ret a, w1) => f a w1
  | (Raise e, w1) => (Raise e, w1)
  end.

Definition raise {A} (e : exn) : M A := λ w, (Raise e, w).

(** [try: body finally: fin] *)
Definition try_finally {A} (body : M A) (fin : M unit) : M A := λ w,
  let '(r, w1) := body w in
  match fin w1 with
  | (Ret _, w2) => (r, w2)
  | (Raise e, w2) => (Raise e, w2)
  end.

(** [try: body except <class> as e: handler e] *)
Definition try_except {A} (body : M A) (catches : exn → bool) (handler : exn → M A) : M A := λ w,
  match body w with
  | (Raise e, w1) => if catches e then handler e w1 else (Raise e, w1)
  | rw => rw
  end.

(** [for x in l: body x] *)
Fixpoint for_each {A} (l : list A) (body : A → M unit) : M unit :=
  match l with
  | [] => mret tt
  | x :: r => body x ;; for_each r body
  end.

Definition get_world : M World := λ w, (Ret w, w).

Definition with_trace (t : list event) (w : World) : World :=
  {| w_env := w_env w; w_cwd := w_cwd w; w_fs := w_fs w; w_trace := t |}.

Definition with_fs (fs : gmap path node) (w : World) : World :=
  {| w_env := w_env w; w_cwd := w_cwd w; w_fs := fs; w_trace := w_trace w |}.

Definition emit (e : event) : M unit := λ w,
  (Ret tt, with_trace (w_trace w ++ [e]) w).

Definition set_fs (fs : gmap path node) : M unit := λ w,
  (Ret tt, with_fs fs w).

Definition print (line : string) : M unit := emit (Stdout line).

(** [sys.exit(code)] *)
Definition sys_exit {A} (code : Z) : M A := raise (SystemExit code).

(** [os.environ.get(name)] *)
Definition environ_get (name : string) : M (option string) := λ w,
  (Ret (w_env w !! name), w).

(** ** The file system *)

Module FS.

(** One step of path resolution.  Empty pieces and [.] stay in place,
    [..] goes to the parent (read lexically: links are not modelled),
    any other name goes down. *)
Definition step (p : path) (c : string) : path :=
  if String.eqb c "" || String.eqb c "." then p
  else if String.eqb c ".." then removelast p
  else p ++ [c].

(** The entry a path name denotes; the empty path name denotes none. *)
Definition resolve (cwd : path) (s : string) : option path :=
  if String.eqb s "" then None
  else Some (fold_left step (PyStr.split_sep s)
               (if PyStr.startswith_sep s then [] else cwd)).

(** The root always exists and is a directory. *)
Definition lookup (fs : gmap path node) (p : path) : option node :=
  match p with
  | [] => Some Dir
  | _ => fs !! p
  end.

(** Creating the missing directories along [todo] below [at_]; fails
    at a name that is taken by a file. *)
Fixpoint mkdir_p (fs : gmap path node) (at_ : path) (todo : list string)
  : option (gmap path node) :=
  match todo with
  | [] => Some fs
  | c :: rest =>
      let p := at_ ++ [c] in
      match fs !! p with
      | Some Dir => mkdir_p fs p rest
      | Some (Reg _) => None
      | None => mkdir_p (<[p := Dir]> fs) p rest
      end
  end.

(** [k] is the entry named [n] directly inside [p]. *)
Definition child_of (p k : path) : option string :=
  if decide (k ≠ [] ∧ removelast k = p) then last k else None.

Definition children (fs : gmap path node) (p : path) : list string :=
  omap (child_of p) (map_to_list fs).*1.

End FS.

(** ** What the outside world answers *)

Inductive proc_result :=
| Exited (code : Z) (stdout : string)
| SpawnFailed (msg : string).

Record datetime := {
  year : nat; month : nat; day : nat;
  hour : nat; minute : nat; second : nat
}.

Record Externals := {
  (* datetime.now() *)
  x_now : datetime;
  (* the Config built from yaml.safe_load on the text of the file,
     or the message of the error raised on the way *)
  x_load_config : string → string + Config;
  (* the outcome of a command started on the given file system *)
  x_subprocess : list string → gmap path node → proc_result;
  (* str(CalledProcessError(code, cmd)) *)
  x_str_called_process_error : list string → Z → string;
  (* an I/O error while tarfile adds the given entry, if any *)
  x_tar_add_error : path → option string;
  (* st_size as the file system reports it *)
  x_stat_size : node → N;
  (* an error creating the storage client for endpoint and region *)
  x_s3_client_error : string → string → option string;
  (* an error of upload_file(endpoint, region, file, bucket, key) *)
  x_s3_upload_error : string → string → string → string → string → option string;
  (* an error of requests.post(url, chat_id, text) or raise_for_status() *)
  x_http_post_error : string → string → string → option string;
  (* format(x, ".2f") *)
  x_format_2f : spec_float → string
}.

(** ** Library calls, as the sources use them *)

Section Library.

Context (X : Externals).

Definition os_error {A} (strerror name : string) : M A :=
  raise (PyExc OSError (strerror +:+ ": " +:+ PyStr.repr name)).

Definition ENOENT := "[Errno 2] No such file or directory".
Definition EEXIST := "[Errno 17] File exists".
Definition ENOTDIR := "[Errno 20] Not a directory".
Definition EISDIR := "[Errno 21] Is a directory".

(** [os.path.exists(s)] *)
Definition path_exists (s : string) : M bool := λ w,
  (Ret match FS.resolve (w_cwd w) s with
       | Some p => match FS.lookup (w_fs w) p with Some _ => true | None => false end
       | None => false
       end, w).

(** [os.makedirs(s, exist_ok=True)] *)
Definition makedirs (s : string) : M unit := λ w,
  match FS.resolve (w_cwd w) s with
  | None => os_error ENOENT s w
  | Some p =>
      match FS.mkdir_p (w_fs w) [] p with
      | Some fs => set_fs fs w
      | None => os_error EEXIST s w
      end
  end.

(** [open(s, "w")], the writes, and the close: the file holds [d]
    afterwards.  The parent must be a directory and the name must not
    be one. *)
Definition create_file (s : string) (d : fdata) : M unit := λ w,
  match FS.resolve (w_cwd w) s with
  | None => os_error ENOENT s w
  | Some p =>
      match FS.lookup (w_fs w) p, FS.lookup (w_fs w) (removelast p) with
      | Some Dir, _ => os_error EISDIR s w
      | _, Some Dir => set_fs (<[p := Reg d]> (w_fs w)) w
      | _, Some (Reg _) => os_error ENOTDIR s w
      | _, None => os_error ENOENT s w
      end
  end.

(** [open(s, "r")] and [read()]; an archive is not text *)
Definition read_text (s : string) : M string := λ w,
  match FS.resolve (w_cwd w) s with
  | None => os_error ENOENT s w
  | Some p =>
      match FS.lookup (w_fs w) p with
      | Some (Reg (Text t)) => (Ret t, w)
      | Some (Reg (TarGz _)) =>
          raise (PyExc ValueError "'utf-8' codec can't decode byte 0x8b") w
      | Some Dir => os_error EISDIR s w
      | None => os_error ENOENT s w
      end
  end.

(** [os.remove(s)] *)
Definition os_remove (s : string) : M unit := λ w,
  match FS.resolve (w_cwd w) s with
  | None => os_error ENOENT s w
  | Some p =>
      match FS.lookup (w_fs w) p with
      | Some (Reg _) => set_fs (delete p (w_fs w)) w
      | Some Dir => os_error EISDIR s w
      | None => os_error ENOENT s w
      end
  end.

(** [os.listdir(s)] *)
Definition listdir (s : string) : M (list string) := λ w,
  match FS.resolve (w_cwd w) s with
  | None => os_error ENOENT s w
  | Some p =>
      match FS.lookup (w_fs w) p with
      | Some Dir => (Ret (FS.children (w_fs w) p), w)
      | Some (Reg _) => os_error ENOTDIR s w
      | None => os_error ENOENT s w
      end
  end.

(** [os.path.getsize(s)] *)
Definition getsize (s : string) : M N := λ w,
  match FS.resolve (w_cwd w) s with
  | None => os_error ENOENT s w
  | Some p =>
      match FS.lookup (w_fs w) p with
      | Some n => (Ret (x_stat_size X n), w)
      | None => os_error ENOENT s w
      end
  end.

(** [with open(out, "w") as f: subprocess.run(cmd, stdout=f, check=True)]:
    the file is created first, the command's output ends up in it, and
    a non-zero exit status raises [CalledProcessError]. *)
Definition run_to_file (cmd : list string) (out : string) : M unit :=
  create_file out (Text "") ;;
  emit (Subprocess cmd) ;;
  w ← get_world ;
  match x_subprocess X cmd (w_fs w) with
  | SpawnFailed msg => raise (PyExc OSError msg)
  | Exited code stdout =>
      create_file out (Text stdout) ;;
      if Z.eqb code 0 then mret tt
      else raise (PyExc CalledProcessError (x_str_called_process_error X cmd code))
  end.

(** [tarfile.open(s, "w:gz")] *)
Definition tar_open (s : string) : M unit := create_file s (TarGz []).

(** [tar.add(src, arcname=arcname)] on the archive at [archive] *)
Definition tar_add (archive src arcname : string) : M unit := λ w,
  match FS.resolve (w_cwd w) src with
  | None => os_error ENOENT src w
  | Some sp =>
      match FS.lookup (w_fs w) sp, x_tar_add_error X sp with
      | None, _ => os_error ENOENT src w
      | Some _, Some msg => raise (PyExc OSError msg) w
      | Some _, None =>
          match FS.resolve (w_cwd w) archive with
          | Some ap =>
              match w_fs w !! ap with
              | Some (Reg (TarGz es)) =>
                  set_fs (<[ap := Reg (TarGz (es ++ [(arcname, sp)]))]> (w_fs w)) w
              | _ => os_error ENOENT archive w
              end
          | None => os_error ENOENT archive w
          end
      end
  end.

(** [boto3.session.Session().client("s3", ...)] *)
Definition s3_client (endpoint_url region_name : string) : M unit :=
  match x_s3_client_error X endpoint_url region_name with
  | Some msg => raise (PyExc LibraryError msg)
  | None => mret tt
  end.

(** [s3.upload_file(file, bucket, key)] on a client made for the given
    endpoint, region and keys *)
Definition s3_upload_file (endpoint_url region_name : string)
    (access_key secret_key : option string) (file bucket key : string) : M unit :=
  emit (S3Upload endpoint_url region_name access_key secret_key file bucket key) ;;
  match x_s3_upload_error X endpoint_url region_name file bucket key with
  | Some msg => raise (PyExc LibraryError msg)
  | None => mret tt
  end.

(** [requests.post(url, json=payload, timeout=10)] followed by
    [response.raise_for_status()] *)
Definition requests_post (url chat text parse_mode : string) : M unit :=
  emit (HttpPost url chat text parse_mode) ;;
  match x_http_post_error X url chat text with
  | Some msg => raise (PyExc LibraryError msg)
  | None => mret tt
  end.

(** [datetime.now().strftime("%Y-%m-%d_%H-%M-%S")] *)
Definition digit (n : nat) : ascii := ascii_of_nat (48 + n mod 10).
Definition pad2 (n : nat) : string :=
  String (digit (n / 10)) (String (digit n) EmptyString).
Definition pad4 (n : nat) : string :=
  String (digit (n / 1000)) (String (digit (n / 100)) (pad2 n)).
Definition strftime (d : datetime) : string :=
  pad4 (year d) +:+ "-" +:+ pad2 (month d) +:+ "-" +:+ pad2 (day d) +:+ "_" +:+
  pad2 (hour d) +:+ "-" +:+ pad2 (minute d) +:+ "-" +:+ pad2 (second d).

End Library.

(** ** Python floats *)

Module PyFloat.

Definition prec : Z := 53.
Definition emax : Z := 1024.

(** [float(n)] for an integer *)
Definition of_int (n : Z) : spec_float := binary_normalize prec emax n 0 false.

(** [a / b] on integers that fit a float exactly (up to [2^53] in
    absolute value): CPython converts both and divides the floats. *)
Definition int_truediv (a b : Z) : spec_float :=
  SFdiv prec emax (of_int a) (of_int b).

End PyFloat.

(** ** The notifier ([src/notifier.py]) *)

Record TelegramNotifier := {
  _config : TelegramConfig;
  _token : option string
}.

Section Notifier.

Context (X : Externals).

Definition TelegramNotifier__init__ (cfg : TelegramConfig) : M TelegramNotifier :=
  tok ← environ_get "TELEGRAM_BOT_TOKEN" ;
  mret {| _config := cfg; _token := tok |}.

Definition _should_send (self : TelegramNotifier) : M bool :=
  if negb (tg_enabled (_config self)) then mret false
  else if negb (PyStr.truthy (_token self)) then
    print "Warning: Telegram enabled in config, but TELEGRAM_BOT_TOKEN is missing." ;;
    mret false
  else mret true.

Definition _send (self : TelegramNotifier) (text : string) : M unit :=
  let url := "https://api.telegram.org/bot" +:+ PyStr.str_opt (_token self)
             +:+ "/sendMessage" in
  try_except
    (requests_post X url (chat_id (_config self)) text "HTML" ;;
     print "Telegram: Notification sent.")
    is_Exception
    (λ e, print ("Telegram Error: Failed to send message. " +:+ str_exn e)).

Definition success_message (archive_name : string) (file_size_mb : spec_float) : string :=
  "✅ <b>Backup Successful!</b>" +:+ PyStr.nl +:+ PyStr.nl +:+
   "📦 <b>File:</b> " +:+ archive_name +:+ PyStr.nl +:+
   "💾 <b>Size:</b> " +:+ x_format_2f X file_size_mb +:+ " MB" +:+ PyStr.nl +:+
   "☁️ <b>Storage:</b> Cloudflare R2".

Definition error_text (error_message : string) : string :=
  "❌ <b>Backup Failed!</b>" +:+ PyStr.nl +:+ PyStr.nl +:+
   "⚠️ <b>Error:</b>" +:+ PyStr.nl +:+
   "<pre>" +:+ error_message +:+ "</pre>".

Definition send_success (self : TelegramNotifier) (archive_name : string)
    (file_size_mb : spec_float) : M unit :=
  ok ← _should_send self ;
  if negb ok then mret tt
  else _send self (success_message archive_name file_size_mb).

Definition send_error (self : TelegramNotifier) (error_message : string) : M unit :=
  ok ← _should_send self ;
  if negb ok then mret tt
  else _send self (error_text error_message).

End Notifier.

(** ** The pipeline ([src/backup.py]) *)

Definition CONFIG_PATH := "/app/config.yaml".
Definition MOUNT_ROOT := "/host_data".
Definition TEMP_DIR := "/tmp/backup".

Record File := {
  f_path : string;                 (* path *)
  f_name : string;                 (* name *)
  size_mb : spec_float
}.

Record Backuper := {
  _temp_dir : string;
  _mount_root : string;
  _cfg : BackupConfig;             (* _config *)
  _notifier : TelegramNotifier
}.

Section Pipeline.

Context (X : Externals).

Definition _load_config (config_path : string) : M Config :=
  present ← path_exists config_path ;
  if negb present then
    print ("Error: Config not found at " +:+ config_path) ;;
    sys_exit 1
  else
    text ← read_text config_path ;
    match x_load_config X text with
    | inr c => mret c
    | inl msg => raise (PyExc ValueError msg)
    end.

(** [if os.environ.get(name): <field> = os.environ.get(name)] *)
Definition env_override (name : string)
    (assign : string → BackupConfig → BackupConfig) (c : BackupConfig) : M BackupConfig :=
  v ← environ_get name ;
  if PyStr.truthy v then
    v' ← environ_get name ;
    mret (from_option (λ x, assign x c) c v')
  else mret c.

Definition set_endpoint (x : string) (c : BackupConfig) : BackupConfig :=
  {| s3 := {| endpoint := x; bucket_name := bucket_name (s3 c);
              region := region (s3 c); s3_enabled := s3_enabled (s3 c) |};
     database := database c; telegram := telegram c; targets := targets c |}.

Definition set_bucket_name (x : string) (c : BackupConfig) : BackupConfig :=
  {| s3 := {| endpoint := endpoint (s3 c); bucket_name := x;
              region := region (s3 c); s3_enabled := s3_enabled (s3 c) |};
     database := database c; telegram := telegram c; targets := targets c |}.

Definition set_region (x : string) (c : BackupConfig) : BackupConfig :=
  {| s3 := {| endpoint := endpoint (s3 c); bucket_name := bucket_name (s3 c);
              region := x; s3_enabled := s3_enabled (s3 c) |};
     database := database c; telegram := telegram c; targets := targets c |}.

Definition set_chat_id (x : string) (c : BackupConfig) : BackupConfig :=
  {| s3 := s3 c; database := database c;
     telegram := {| tg_enabled := tg_enabled (telegram c); chat_id := x |};
     targets := targets c |}.

Definition set_container_name (x : string) (c : BackupConfig) : BackupConfig :=
  {| s3 := s3 c;
     database := {| db_enabled := db_enabled (database c); container_name := x;
                    db_user := db_user (database c);
                    dump_filename := dump_filename (database c) |};
     telegram := telegram c; targets := targets c |}.

Definition Backuper__init__ (config_path temp_dir mount_root : string) : M Backuper :=
  full_config ← _load_config config_path ;
  c ← env_override "S3_ENDPOINT" set_endpoint (backup full_config) ;
  c ← env_override "S3_BUCKET_NAME" set_bucket_name c ;
  c ← env_override "S3_REGION" set_region c ;
  c ← env_override "TELEGRAM_CHAT_ID" set_chat_id c ;
  c ← env_override "DB_HOST" set_container_name c ;
  n ← TelegramNotifier__init__ (telegram c) ;
  mret {| _temp_dir := temp_dir; _mount_root := mount_root;
          _cfg := c; _notifier := n |}.

Definition auth_config_text (db_config : DatabaseConfig) (password : option string) : string :=
  "[client]" +:+ PyStr.nl +:+
  "host=" +:+ container_name db_config +:+ PyStr.nl +:+
  "user=" +:+ db_user db_config +:+ PyStr.nl +:+
  "password=" +:+ PyStr.dquote +:+ PyStr.str_opt password +:+ PyStr.dquote +:+ PyStr.nl.

Definition dump_cmd (auth_config_path : string) : list string :=
  [ "mysqldump";
    "--defaults-extra-file=" +:+ auth_config_path;
    "--all-databases";
    "--skip-ssl";
    "--no-tablespaces" ].

Definition _create_db_dump (self : Backuper) (db_config : DatabaseConfig)
  : M (option string) :=
  if negb (db_enabled db_config) then mret None
  else
    print "MySQL: Creating dump..." ;;
    makedirs (_temp_dir self) ;;
    let dump_file := PyStr.join (_temp_dir self) (dump_filename db_config) in
    let auth_config_path := PyStr.join (_temp_dir self) "mysql_auth.cnf" in
    password ← environ_get "DB_PASSWORD" ;
    create_file auth_config_path (Text (auth_config_text db_config password)) ;;
    let cmd := dump_cmd auth_config_path in
    try_finally
      (try_except
         (run_to_file X cmd dump_file ;;
          print ("MySQL: Dump created at " +:+ dump_file) ;;
          mret (Some dump_file))
         is_CalledProcessError
         (λ e, print ("MySQL Error: " +:+ str_exn e) ;; sys_exit 1))
      (present ← path_exists auth_config_path ;
       if (present : bool) then os_remove auth_config_path else mret tt).

Definition archive_name_at (d : datetime) : string :=
  "backup_" +:+ strftime d +:+ ".tar.gz".

Definition full_path_of (mount_root target : string) : string :=
  PyStr.join mount_root (PyStr.lstrip "./" target).

(** The body of the loop over the targets *)
Definition add_target (self : Backuper) (archive_path target : string) : M unit :=
  let full_path := full_path_of (_mount_root self) target in
  present ← path_exists full_path ;
  if (present : bool) then
    print ("  Adding: " +:+ target) ;;
    tar_add X archive_path full_path target
  else
    print ("  Warning: Path not found " +:+ full_path).

Definition _create_archive (self : Backuper) (targets : list string)
    (dump_file : option string) : M File :=
  let archive_name := archive_name_at (x_now X) in
  let archive_path := PyStr.join (_temp_dir self) archive_name in
  print ("Archiving: Creating " +:+ archive_name +:+ "...") ;;
  tar_open archive_path ;;
  (if PyStr.truthy dump_file then
     tar_add X archive_path (PyStr.str_opt dump_file)
       (PyStr.basename (PyStr.str_opt dump_file))
   else mret tt) ;;
  for_each targets (add_target self archive_path) ;;
  size ← getsize X archive_path ;
  let size_mb := PyFloat.int_truediv (Z.of_N size) (1024 * 1024) in
  mret {| f_path := archive_path; f_name := archive_name; size_mb := size_mb |}.

Definition _upload_to_s3 (file : File) (s3_config : S3Config) : M unit :=
  print ("S3: Uploading to bucket: " +:+ bucket_name s3_config) ;;
  if negb (s3_enabled s3_config) then
    print "S3: Upload skipped (disabled in config)."
  else
    access_key ← environ_get "AWS_ACCESS_KEY_ID" ;
    secret_key ← environ_get "AWS_SECRET_ACCESS_KEY" ;
    s3_client X (endpoint s3_config) (region s3_config) ;;
    try_except
      (s3_upload_file X (endpoint s3_config) (region s3_config) access_key secret_key
         (f_path file) (bucket_name s3_config) (f_name file) ;;
       print "S3: Upload successful!")
      is_Exception
      (λ e, print ("S3 Error: " +:+ str_exn e) ;; sys_exit 1).

Definition cleanup_banner : string := "Cleanup: Removing temp files...".

(** The statements of [_cleanup] after its first line *)
Definition remove_temp_files (self : Backuper) : M unit :=
  present ← path_exists (_temp_dir self) ;
  if (present : bool) then
    names ← listdir (_temp_dir self) ;
    for_each names (λ f,
      try_except (os_remove (PyStr.join (_temp_dir self) f))
        (λ _, true) (λ _, mret tt))
  else mret tt.

Definition _cleanup (self : Backuper) : M unit :=
  print cleanup_banner ;;
  remove_temp_files self.

(** The [try] block of [Run] *)
Definition Run_try (self : Backuper) : M unit :=
  makedirs (_temp_dir self) ;;
  dump_file_path ← _create_db_dump self (database (_cfg self)) ;
  archive_file ← _create_archive self (targets (_cfg self)) dump_file_path ;
  _upload_to_s3 archive_file (s3 (_cfg self)) ;;
  send_success X (_notifier self) (f_name archive_file) (size_mb archive_file).

(** The [except Exception as e] block of [Run] *)
Definition Run_except (self : Backuper) (e : exn) : M unit :=
  print ("CRITICAL ERROR: " +:+ str_exn e) ;;
  send_error X (_notifier self) (str_exn e) ;;
  sys_exit 1.

Definition Run (self : Backuper) : M unit :=
  try_finally
    (try_except (Run_try self) is_Exception (Run_except self))
    (_cleanup self).

Definition main : M unit :=
  backuper ← Backuper__init__ CONFIG_PATH TEMP_DIR MOUNT_ROOT ;
  Run backuper ;;
  print "Done.".

(** The status the interpreter exits with: 0 at the end of the script,
    the code of a [SystemExit], 1 after an uncaught exception. *)
Definition exit_status {A} (r : result A) : Z :=
  match r with
  | Ret _ => 0
  | Raise (SystemExit code) => code
  | Raise (PyExc _ _) => 1
  end.

End Pipeline.

(** * Properties *)

(** ** The string primitives on examples *)

Example join_ex1 : PyStr.join "/tmp/backup" "mysql_auth.cnf" = "/tmp/backup/mysql_auth.cnf".
Proof. reflexivity. Qed.
Example join_ex2 : PyStr.join "/tmp/backup/" "x" = "/tmp/backup/x".
Proof. reflexivity. Qed.
Example join_ex3 : PyStr.join "/tmp/backup" "/etc/x" = "/etc/x".
Proof. reflexivity. Qed.
Example basename_ex : PyStr.basename "/tmp/backup/dump.sql" = "dump.sql".
Proof. reflexivity. Qed.
Example split_ex : PyStr.split_sep "/a//b/" = [""; "a"; ""; "b"; ""].
Proof. reflexivity. Qed.
Example lstrip_ex : PyStr.lstrip "./" "./.env" = "env".
Proof. reflexivity. Qed.

(** ** Path names *)

Module PathFacts.
Import PyStr FS.

(** A name that path resolution descends into: not empty, not [.] or
    [..], and without a separator. *)
Definition no_sep (s : string) : bool :=
  negb (existsb is_slash (list_ascii_of_string s)).

Definition plain (c : string) : bool :=
  negb (String.eqb c "") && negb (String.eqb c ".") &&
  negb (String.eqb c "..") && no_sep c.

Lemma app_nil b : "" +:+ b = b.
Proof. reflexivity. Qed.

Lemma app_cons c a b : String c a +:+ b = String c (a +:+ b).
Proof. reflexivity. Qed.

Lemma no_sep_cons c s :
  no_sep (String c s) = negb (is_slash c) && no_sep s.
Proof. unfold no_sep. simpl. by rewrite negb_orb. Qed.

Lemma split_sep_nonempty s : split_sep s ≠ [].
Proof.
  destruct s as [|c s]; simpl; [done|].
  destruct (is_slash c); [done|]. by destruct (split_sep s).
Qed.

Lemma split_sep_no_sep s : no_sep s = true → split_sep s = [s].
Proof.
  induction s as [|c s IH]; [done|].
  rewrite no_sep_cons. intros [Hc Hs]%andb_true_iff.
  simpl. apply negb_true_iff in Hc. rewrite Hc, (IH Hs). done.
Qed.

Lemma split_sep_app a b :
  split_sep (a +:+ String slash b) = split_sep a ++ split_sep b.
Proof.
  induction a as [|c a IH]; [by rewrite app_nil|].
  rewrite app_cons. simpl.
  destruct (is_slash c); [by rewrite IH|].
  rewrite IH. pose proof (split_sep_nonempty a).
  by destruct (split_sep a).
Qed.

Lemma split_sep_pieces s : Forall (λ c, no_sep c = true) (split_sep s).
Proof.
  induction s as [|c s IH]; simpl.
  - by repeat constructor.
  - destruct (is_slash c) eqn:Hc.
    + by constructor.
    + destruct (split_sep s) as [|h t]; [by repeat constructor; rewrite no_sep_cons, Hc|].
      inversion_clear IH as [|?? Hh Ht]. constructor; [|done].
      by rewrite no_sep_cons, Hc, Hh.
Qed.

Lemma plain_no_sep c : plain c = true → no_sep c = true.
Proof. unfold plain. by intros [_ ?]%andb_true_iff. Qed.

Lemma plain_not_abs c : plain c = true → startswith_sep c = false.
Proof.
  intros H. pose proof (plain_no_sep _ H) as Hn.
  destruct c as [|a c]; [done|]. rewrite no_sep_cons in Hn.
  apply andb_true_iff in Hn as [Hn _]. simpl. by apply negb_true_iff.
Qed.

Lemma step_plain p c : plain c = true → step p c = p ++ [c].
Proof.
  unfold plain, step.
  intros [[[H1 H2]%andb_true_iff H3]%andb_true_iff _]%andb_true_iff.
  apply negb_true_iff in H1, H2, H3. by rewrite H1, H2, H3.
Qed.

Lemma step_keeps_plain p c :
  no_sep c = true → Forall (λ x, plain x = true) p →
  Forall (λ x, plain x = true) (step p c).
Proof.
  intros Hc Hp. unfold step.
  destruct (String.eqb c "") eqn:E1; [done|].
  destruct (String.eqb c ".") eqn:E2; [done|]. simpl.
  destruct (String.eqb c "..") eqn:E3.
  - destruct p as [|x p _] using rev_ind; [done|].
    rewrite removelast_last. by apply Forall_app in Hp as [? _].
  - apply Forall_app. split; [done|]. constructor; [|done].
    unfold plain. by rewrite E1, E2, E3, Hc.
Qed.

Lemma walk_keeps_plain cs p :
  Forall (λ c, no_sep c = true) cs → Forall (λ x, plain x = true) p →
  Forall (λ x, plain x = true) (fold_left step cs p).
Proof.
  revert p. induction cs as [|c cs IH]; intros p Hcs Hp; [done|].
  inversion_clear Hcs. simpl. apply IH; [done|]. by apply step_keeps_plain.
Qed.

Lemma resolve_plain cwd s p :
  Forall (λ x, plain x = true) cwd → resolve cwd s = Some p →
  Forall (λ x, plain x = true) p.
Proof.
  unfold resolve. intros Hcwd. destruct (String.eqb s ""); [done|].
  intros [= <-]. apply walk_keeps_plain; [apply split_sep_pieces|].
  by destruct (startswith_sep s).
Qed.

Lemma endswith_sep_inv d : endswith_sep d = true → ∃ d', d = d' +:+ String slash "".
Proof.
  induction d as [|c d IH]; [done|]. simpl.
  destruct d as [|c' d].
  - intros Hc. exists "". rewrite app_nil.
    unfold is_slash in Hc. apply Ascii.eqb_eq in Hc. by rewrite Hc.
  - intros [d' Hd']%IH. exists (String c d'). by rewrite app_cons, <- Hd'.
Qed.

Lemma append_assoc a b c : (a +:+ b) +:+ c = a +:+ (b +:+ c).
Proof.
  induction a as [|x a IH]; [by rewrite !app_nil|]. by rewrite !app_cons, IH.
Qed.

Lemma startswith_sep_app a b : a ≠ "" → startswith_sep (a +:+ b) = startswith_sep a.
Proof. by destruct a. Qed.

Lemma append_nonempty a b : a ≠ "" → String.eqb (a +:+ b) "" = false.
Proof. by destruct a. Qed.

Lemma walk_app cs ds p :
  fold_left step (cs ++ ds) p = fold_left step ds (fold_left step cs p).
Proof. apply fold_left_app. Qed.

(** Joining a directory name and a plain name denotes the entry of
    that name inside the directory. *)
Lemma resolve_join cwd d n tp :
  resolve cwd d = Some tp → plain n = true →
  resolve cwd (join d n) = Some (tp ++ [n]).
Proof.
  intros Hd Hn. unfold join. rewrite (plain_not_abs _ Hn).
  assert (d ≠ "") as Hne by (intros ->; done).
  unfold resolve in Hd. destruct (String.eqb d "") eqn:Ed.
  { by apply String.eqb_eq in Ed. }
  simpl. injection Hd as Hd.
  destruct (endswith_sep d) eqn:Ee.
  - apply endswith_sep_inv in Ee as [d' ->].
    unfold resolve. rewrite append_nonempty by done.
    rewrite startswith_sep_app by done. f_equal.
    rewrite append_assoc, app_cons, app_nil.
    rewrite split_sep_app, (split_sep_no_sep n) by by apply plain_no_sep.
    rewrite split_sep_app, !walk_app in *. simpl in *.
    unfold step at 1 in Hd. simpl in Hd. rewrite Hd.
    by apply step_plain.
  - unfold resolve. rewrite append_nonempty by done.
    rewrite startswith_sep_app by done. f_equal.
    change (d +:+ "/" +:+ n) with (d +:+ String slash n).
    rewrite split_sep_app, (split_sep_no_sep n) by by apply plain_no_sep.
    rewrite walk_app, Hd. simpl. by apply step_plain.
Qed.

End PathFacts.

(** ** Reasoning about computations *)

Section MonadFacts.

(** [m] keeps [I]: the world it leaves satisfies [I] when the world it
    starts in does, however it ends. *)
Definition preserves {A} (I : World → Prop) (m : M A) : Prop :=
  ∀ w, I w → I (m w).2.

Lemma bind_run {A B} (m : M A) (f : A → M B) w :
  (m ≫= f) w =
  match m w with
  | (Ret a, w1) => f a w1
  | (Raise e, w1) => (Raise e, w1)
  end.
Proof. reflexivity. Qed.

Lemma preserves_ret {A} I (a : A) : preserves I (mret a).
Proof. by intros w. Qed.

Lemma preserves_raise {A} I e : preserves I (@raise A e).
Proof. by intros w. Qed.

Lemma preserves_sys_exit {A} I c : preserves I (@sys_exit A c).
Proof. by intros w. Qed.

Lemma preserves_bind {A B} I (m : M A) (f : A → M B) :
  preserves I m → (∀ a, preserves I (f a)) → preserves I (m ≫= f).
Proof.
  intros Hm Hf w Hw. rewrite bind_run. specialize (Hm w Hw).
  destruct (m w) as [[a|e] w1]; simpl in *; [by apply Hf|done].
Qed.

Lemma preserves_try_except {A} I (m : M A) c h :
  preserves I m → (∀ e, preserves I (h e)) → preserves I (try_except m c h).
Proof.
  intros Hm Hh w Hw. unfold try_except. specialize (Hm w Hw).
  destruct (m w) as [[a|e] w1]; simpl in *; [done|].
  destruct (c e); [by apply Hh|done].
Qed.

Lemma preserves_try_finally {A} I (m : M A) fin :
  preserves I m → preserves I fin → preserves I (try_finally m fin).
Proof.
  intros Hm Hf w Hw. unfold try_finally. specialize (Hm w Hw).
  destruct (m w) as [r w1]; simpl in *. specialize (Hf w1 Hm).
  by destruct (fin w1) as [[[]|e] w2].
Qed.

Lemma preserves_for_each {A} I (l : list A) body :
  (∀ x, preserves I (body x)) → preserves I (for_each l body).
Proof.
  intros Hb. induction l as [|x l IH]; simpl.
  - apply preserves_ret.
  - by apply preserves_bind.
Qed.

Lemma preserves_get_world I : preserves I get_world.
Proof. by intros w. Qed.

Lemma preserves_environ_get I name : preserves I (environ_get name).
Proof. by intros w. Qed.

Lemma with_fs_same w : with_fs (w_fs w) w = w.
Proof. by destruct w. Qed.

End MonadFacts.

(** One change of the file system by a library call made in the working
    directory [cwd]: nothing, new directories along a resolved path, a
    file written at a resolved path whose parent is a directory and
    which is not one itself, a file rewritten, or a file removed. *)
Inductive fs_change (cwd : path) (fs : gmap path node) : gmap path node → Prop :=
| fs_same : fs_change cwd fs fs
| fs_mkdir s p fs' :
    FS.resolve cwd s = Some p → FS.mkdir_p fs [] p = Some fs' →
    fs_change cwd fs fs'
| fs_write s p d :
    FS.resolve cwd s = Some p →
    FS.lookup fs p ≠ Some Dir → FS.lookup fs (removelast p) = Some Dir →
    fs_change cwd fs (<[p := Reg d]> fs)
| fs_update p d d' :
    fs !! p = Some (Reg d) → fs_change cwd fs (<[p := Reg d']> fs)
| fs_remove p d :
    fs !! p = Some (Reg d) → fs_change cwd fs (delete p fs).

(** A call that touches nothing but the files, by one such change. *)
Definition fs_call {A} (m : M A) : Prop :=
  ∀ w, ∃ fs', (m w).2 = with_fs fs' w ∧ fs_change (w_cwd w) (w_fs w) fs'.

Section LibraryFacts.

Context (X : Externals).

Ltac same := eexists; split; [symmetry; apply with_fs_same | apply fs_same].

Lemma fs_call_path_exists s : fs_call (path_exists s).
Proof. intros w. same. Qed.

Lemma fs_call_read_text s : fs_call (read_text s).
Proof. intros w. unfold read_text. repeat case_match; same. Qed.

Lemma fs_call_listdir s : fs_call (listdir s).
Proof. intros w. unfold listdir. repeat case_match; same. Qed.

Lemma fs_call_getsize s : fs_call (getsize X s).
Proof. intros w. unfold getsize. repeat case_match; same. Qed.

Lemma fs_call_makedirs s : fs_call (makedirs s).
Proof.
  intros w. unfold makedirs. repeat case_match; try same.
  eexists; split; [done|]. by eapply fs_mkdir.
Qed.

Lemma fs_call_create_file s d : fs_call (create_file s d).
Proof.
  intros w. unfold create_file.
  destruct (FS.resolve (w_cwd w) s) as [p|] eqn:Hs; [|same].
  destruct (FS.lookup (w_fs w) p) as [[|d0]|] eqn:Hp; [same| |];
    (destruct (FS.lookup (w_fs w) (removelast p)) as [[|d1]|] eqn:Hq; [|same|same]);
    (eexists; split; [done|]; eapply fs_write; [done|by rewrite Hp|done]).
Qed.

Lemma fs_call_os_remove s : fs_call (os_remove s).
Proof.
  intros w. unfold os_remove.
  destruct (FS.resolve (w_cwd w) s) as [p|] eqn:Hs; [|same].
  destruct (FS.lookup (w_fs w) p) as [[|d0]|] eqn:Hp; [same| |same].
  eexists; split; [done|]. apply fs_remove with d0.
  destruct p; [done|exact Hp].
Qed.

Lemma fs_call_tar_add archive src arcname : fs_call (tar_add X archive src arcname).
Proof.
  intros w. unfold tar_add. repeat case_match; try same.
  eexists; split; [done|]. by eapply fs_update.
Qed.

End LibraryFacts.

(** ** Invariants of the pipeline *)

(** [I] survives every change of the files by a library call and every
    event that satisfies [Q]. *)
Record invariant (Q : event → Prop) (I : World → Prop) : Prop := {
  inv_fs : ∀ w fs', I w → fs_change (w_cwd w) (w_fs w) fs' → I (with_fs fs' w);
  inv_emit : ∀ w e, Q e → I w → I (with_trace (w_trace w ++ [e]) w)
}.

Section Invariants.

Context (X : Externals) (Q : event → Prop) (I : World → Prop).
Hypothesis HI : invariant Q I.

Lemma preserves_fs_call {A} (m : M A) : fs_call m → preserves I m.
Proof.
  intros Hm w Hw. destruct (Hm w) as (fs' & -> & Hch).
  by apply (inv_fs _ _ HI).
Qed.

Lemma preserves_event e : Q e → preserves I (emit e).
Proof. intros He w Hw. by apply (inv_emit _ _ HI). Qed.

(** Every event but the banner of the cleanup step is allowed. *)
Hypothesis HQ : ∀ e, e ≠ Stdout cleanup_banner → Q e.

Ltac not_banner :=
  apply HQ; let H := fresh in
  intros H; cbv [String.append cleanup_banner] in H; discriminate H.

Ltac pres :=
  repeat first
    [ apply preserves_ret | apply preserves_raise | apply preserves_sys_exit
    | apply preserves_get_world | apply preserves_environ_get
    | apply preserves_fs_call;
        first [ apply fs_call_path_exists | apply fs_call_read_text
              | apply fs_call_listdir | apply fs_call_getsize
              | apply fs_call_makedirs | apply fs_call_create_file
              | apply fs_call_os_remove | apply fs_call_tar_add ]
    | apply preserves_event; not_banner
    | apply preserves_bind; [|intros ?]
    | apply preserves_try_except; [|intros ?]
    | apply preserves_try_finally
    | apply preserves_for_each; intros ?
    | match goal with
      | |- preserves _ (if ?b then _ else _) => destruct b
      | |- preserves _ (match ?x with _ => _ end) => destruct x
      end ].

Lemma preserves_remove_temp_files self : preserves I (remove_temp_files self).
Proof. unfold remove_temp_files. pres. Qed.

Lemma preserves_run_to_file cmd out : preserves I (run_to_file X cmd out).
Proof. unfold run_to_file. pres. Qed.

Lemma preserves_s3_client e r : preserves I (s3_client X e r).
Proof. unfold s3_client. pres. Qed.

Lemma preserves_s3_upload_file e r a k f b n :
  preserves I (s3_upload_file X e r a k f b n).
Proof. unfold s3_upload_file. pres. Qed.

Lemma preserves_requests_post u c t p : preserves I (requests_post X u c t p).
Proof. unfold requests_post. pres. Qed.

Lemma preserves__should_send n : preserves I (_should_send n).
Proof. unfold _should_send, print. pres. Qed.

Lemma preserves__send n text : preserves I (_send X n text).
Proof.
  unfold _send, print. pres; try apply preserves_requests_post; pres.
Qed.

Lemma preserves_send_success n a sz : preserves I (send_success X n a sz).
Proof. unfold send_success. pres; try apply preserves__should_send; try apply preserves__send; pres. Qed.

Lemma preserves_send_error n msg : preserves I (send_error X n msg).
Proof. unfold send_error. pres; try apply preserves__should_send; try apply preserves__send; pres. Qed.

Lemma preserves__create_db_dump self db : preserves I (_create_db_dump X self db).
Proof.
  unfold _create_db_dump, print. pres; try apply preserves_run_to_file; pres.
Qed.

Lemma preserves_add_target self a t : preserves I (add_target X self a t).
Proof. unfold add_target, print. pres. Qed.

Lemma preserves__create_archive self ts d : preserves I (_create_archive X self ts d).
Proof.
  unfold _create_archive, print, tar_open.
  pres; try apply preserves_add_target; pres.
Qed.

Lemma preserves__upload_to_s3 f c : preserves I (_upload_to_s3 X f c).
Proof.
  unfold _upload_to_s3, print.
  pres; try apply preserves_s3_client; try apply preserves_s3_upload_file; pres.
Qed.

Lemma preserves_Run_try self : preserves I (Run_try X self).
Proof.
  unfold Run_try.
  apply preserves_bind; [pres|intros _].
  apply preserves_bind; [apply preserves__create_db_dump|intros d].
  apply preserves_bind; [apply preserves__create_archive|intros a].
  apply preserves_bind; [apply preserves__upload_to_s3|intros _].
  apply preserves_send_success.
Qed.

Lemma preserves_Run_except self e : preserves I (Run_except X self e).
Proof.
  unfold Run_except.
  apply preserves_bind; [unfold print; pres|intros _].
  apply preserves_bind; [apply preserves_send_error|intros _]. pres.
Qed.

End Invariants.

(** ** Well-formed file systems *)

Module Tree.
Import FS PathFacts.

(** Every entry has a resolved path and lies in a directory. *)
Definition wf_fs (fs : gmap path node) : Prop :=
  ∀ k n, fs !! k = Some n →
    Forall (λ x, plain x = true) k ∧ lookup fs (removelast k) = Some Dir.

Definition wf_world (w : World) : Prop :=
  Forall (λ x, plain x = true) (w_cwd w) ∧ wf_fs (w_fs w).

Lemma lookup_nonroot fs p : p ≠ [] → lookup fs p = fs !! p.
Proof. by destruct p. Qed.

Lemma lookup_dir_insert fs p q n :
  fs !! p ≠ Some Dir → lookup fs q = Some Dir →
  lookup (<[p := n]> fs) q = Some Dir.
Proof.
  intros Hp Hq. destruct q as [|x q]; [done|]. simpl in *.
  rewrite lookup_insert_ne; [done|]. intros ->. by apply Hp.
Qed.

Lemma lookup_dir_delete fs p q :
  fs !! p ≠ Some Dir → lookup fs q = Some Dir →
  lookup (delete p fs) q = Some Dir.
Proof.
  intros Hp Hq. destruct q as [|x q]; [done|]. simpl in *.
  rewrite lookup_delete_ne; [done|]. intros ->. by apply Hp.
Qed.

Lemma file_not_dir (fs : gmap path node) p d :
  fs !! p = Some (Reg d) → fs !! p ≠ Some Dir.
Proof. congruence. Qed.

Lemma not_dir_nonroot fs p : lookup fs p ≠ Some Dir → fs !! p ≠ Some Dir.
Proof. by destruct p. Qed.

(** *** Creating directories *)

Lemma mkdir_p_mono fs at_ todo fs' k n :
  mkdir_p fs at_ todo = Some fs' → fs !! k = Some n → fs' !! k = Some n.
Proof.
  revert fs at_. induction todo as [|c rest IH]; intros fs at_; simpl.
  - by intros [= <-].
  - destruct (fs !! (at_ ++ [c])) as [[|d]|] eqn:Hp; [by apply IH|done|].
    intros Hm Hk. eapply IH; [done|].
    rewrite lookup_insert_ne; [done|]. intros Heq. rewrite <- Heq in Hk. congruence.
Qed.

Lemma mkdir_p_dir fs at_ todo fs' :
  mkdir_p fs at_ todo = Some fs' → lookup fs at_ = Some Dir →
  lookup fs' (at_ ++ todo) = Some Dir.
Proof.
  revert fs at_. induction todo as [|c rest IH]; intros fs at_; simpl.
  - intros [= <-]. by rewrite app_nil_r.
  - assert (at_ ++ [c] ≠ []) as Hne by by destruct at_.
    replace (at_ ++ c :: rest) with ((at_ ++ [c]) ++ rest) by by rewrite <- app_assoc.
    destruct (fs !! (at_ ++ [c])) as [[|d]|] eqn:Hp; [|done|].
    + intros Hm _. apply (IH fs); [done|]. by rewrite lookup_nonroot.
    + intros Hm _. apply (IH (<[at_ ++ [c] := Dir]> fs)); [done|].
      rewrite lookup_nonroot by done. apply lookup_insert_eq.
Qed.

Lemma lookup_mono fs fs' p n :
  (∀ k x, fs !! k = Some x → fs' !! k = Some x) →
  lookup fs p = Some n → lookup fs' p = Some n.
Proof. intros H. destruct p; [done|]. apply H. Qed.

Lemma wf_insert_dir fs p c :
  wf_fs fs → Forall (λ x, plain x = true) (p ++ [c]) →
  lookup fs p = Some Dir → fs !! (p ++ [c]) = None →
  wf_fs (<[p ++ [c] := Dir]> fs).
Proof.
  intros Hwf Hpl Hp Hnew k n Hk.
  assert (∀ q x, lookup fs q = Some x → lookup (<[p ++ [c] := Dir]> fs) q = Some x) as Hmono.
  { intros q x. apply lookup_mono. intros k' x' Hk'.
    rewrite lookup_insert_ne; [done|]. intros <-. by rewrite Hnew in Hk'. }
  destruct (decide (k = p ++ [c])) as [->|Hne].
  - split; [done|]. rewrite removelast_last. by apply Hmono.
  - rewrite lookup_insert_ne in Hk by done.
    destruct (Hwf k n Hk) as [? ?]. split; [done|]. by apply Hmono.
Qed.

Lemma mkdir_p_wf fs at_ todo fs' :
  wf_fs fs → Forall (λ x, plain x = true) (at_ ++ todo) →
  lookup fs at_ = Some Dir → mkdir_p fs at_ todo = Some fs' → wf_fs fs'.
Proof.
  revert fs at_. induction todo as [|c rest IH]; intros fs at_ Hwf Hpl Hat; simpl.
  - by intros [= <-].
  - assert (at_ ++ [c] ≠ []) as Hne by by destruct at_.
    assert (at_ ++ c :: rest = (at_ ++ [c]) ++ rest) as Heq by by rewrite <- app_assoc.
    rewrite Heq in Hpl.
    destruct (fs !! (at_ ++ [c])) as [[|d]|] eqn:Hp; [|done|].
    + apply IH; [done..|]. by rewrite lookup_nonroot.
    + apply IH; [|done|].
      * apply wf_insert_dir; [done| |done..]. by apply Forall_app in Hpl as [? _].
      * rewrite lookup_nonroot by done. apply lookup_insert_eq.
Qed.

(** *** Writing and removing files *)

Lemma wf_write fs p d :
  wf_fs fs → Forall (λ x, plain x = true) p →
  lookup fs p ≠ Some Dir → lookup fs (removelast p) = Some Dir →
  wf_fs (<[p := Reg d]> fs).
Proof.
  intros Hwf Hpl Hnd Hpar k n Hk.
  assert (∀ q, lookup fs q = Some Dir → lookup (<[p := Reg d]> fs) q = Some Dir) as Hkeep.
  { intros q Hq. apply lookup_dir_insert; [|done]. by apply not_dir_nonroot. }
  destruct (decide (k = p)) as [->|Hne].
  - split; [done|]. by apply Hkeep.
  - rewrite lookup_insert_ne in Hk by done.
    destruct (Hwf k n Hk) as [? ?]. split; [done|]. by apply Hkeep.
Qed.

Lemma wf_update fs p d d' :
  wf_fs fs → fs !! p = Some (Reg d) → wf_fs (<[p := Reg d']> fs).
Proof.
  intros Hwf Hp k n Hk.
  assert (∀ q, lookup fs q = Some Dir → lookup (<[p := Reg d']> fs) q = Some Dir) as Hkeep.
  { intros q Hq. apply lookup_dir_insert; [|done]. by eapply file_not_dir. }
  destruct (decide (k = p)) as [->|Hne].
  - destruct (Hwf p _ Hp) as [? ?]. split; [done|]. by apply Hkeep.
  - rewrite lookup_insert_ne in Hk by done.
    destruct (Hwf k n Hk) as [? ?]. split; [done|]. by apply Hkeep.
Qed.

Lemma wf_remove fs p d :
  wf_fs fs → fs !! p = Some (Reg d) → wf_fs (delete p fs).
Proof.
  intros Hwf Hp k n Hk.
  apply lookup_delete_Some in Hk as [Hne Hk].
  destruct (Hwf k n Hk) as [? Hpar]. split; [done|].
  apply lookup_dir_delete; [|done]. by eapply file_not_dir.
Qed.

Lemma fs_change_wf cwd fs fs' :
  Forall (λ x, plain x = true) cwd → wf_fs fs → fs_change cwd fs fs' → wf_fs fs'.
Proof.
  intros Hcwd Hwf [|s p fs1 Hs Hm|s p d Hs Hnd Hpar|p d d' Hp|p d Hp].
  - done.
  - eapply (mkdir_p_wf fs []); [done| |done..]. by eapply resolve_plain.
  - apply wf_write; [done| |done..]. by eapply resolve_plain.
  - by eapply wf_update.
  - by eapply wf_remove.
Qed.

(** A directory stays one: no library call removes a directory or
    puts a file in its place. *)
Lemma fs_change_dir cwd fs fs' p :
  fs_change cwd fs fs' → lookup fs p = Some Dir → lookup fs' p = Some Dir.
Proof.
  intros [|s q fs1 Hs Hm|s q d Hs Hnd Hpar|q d d' Hq|q d Hq] Hp.
  - done.
  - eapply lookup_mono; [|done]. intros k x. by eapply mkdir_p_mono.
  - apply lookup_dir_insert; [|done]. by apply not_dir_nonroot.
  - apply lookup_dir_insert; [|done]. by eapply file_not_dir.
  - apply lookup_dir_delete; [|done]. by eapply file_not_dir.
Qed.

Lemma invariant_wf : invariant (λ _, True) wf_world.
Proof.
  split.
  - intros w fs' [Hcwd Hwf] Hch. split; [done|]. by eapply fs_change_wf.
  - by intros w e _ Hw.
Qed.

Lemma invariant_dir p :
  invariant (λ _, True) (λ w, lookup (w_fs w) p = Some Dir).
Proof.
  split.
  - intros w fs' Hp Hch. by eapply fs_change_dir.
  - by intros w e _ Hw.
Qed.

Lemma invariant_frame env cwd :
  invariant (λ _, True) (λ w, w_env w = env ∧ w_cwd w = cwd).
Proof. split; by intros. Qed.

End Tree.

(** ** How computations end *)

Section Outcomes.

(** Every exception that leaves [m] satisfies [P]. *)
Definition raises_only {A} (P : exn → Prop) (m : M A) : Prop :=
  ∀ w e, (m w).1 = Raise e → P e.

(** [m] always ends normally. *)
Definition returns {A} (m : M A) : Prop := ∀ w, ∃ a, (m w).1 = Ret a.

Lemma bind_Ret_inv {A B} (m : M A) (f : A → M B) w b w' :
  (m ≫= f) w = (Ret b, w') → ∃ a w1, m w = (Ret a, w1) ∧ f a w1 = (Ret b, w').
Proof. rewrite bind_run. destruct (m w) as [[a|e] w1]; [eauto|done]. Qed.

Lemma bind_Ret {A B} (m : M A) (f : A → M B) w a w1 :
  m w = (Ret a, w1) → (m ≫= f) w = f a w1.
Proof. intros H. by rewrite bind_run, H. Qed.

(** A run is known by how it ended and the world it left. *)
Lemma ended_with {A} (rw : result A * World) (r : result A) :
  rw.1 = r → rw = (r, rw.2).
Proof. destruct rw as [r' w]. simpl. by intros ->. Qed.

Lemma returned_value {A} (rw : result A * World) (dflt : A) :
  match rw.1 with Ret _ => true | Raise _ => false end = true →
  rw = (Ret match rw.1 with Ret a => a | Raise _ => dflt end, rw.2).
Proof. by destruct rw as [[a|e] w]. Qed.

Lemma raises_only_ret {A} P (a : A) : raises_only P (mret a).
Proof. by intros w e. Qed.

Lemma raises_only_raise {A} (P : exn → Prop) e : P e → raises_only P (@raise A e).
Proof. intros He w e'. by intros [= <-]. Qed.

Lemma raises_only_bind {A B} P (m : M A) (f : A → M B) :
  raises_only P m → (∀ a, raises_only P (f a)) → raises_only P (m ≫= f).
Proof.
  intros Hm Hf w e. rewrite bind_run. specialize (Hm w).
  destruct (m w) as [[a|e'] w1]; simpl in *; [apply Hf|].
  intros [= <-]. by apply Hm.
Qed.

Lemma raises_only_try_except {A} P (m : M A) c h :
  raises_only P m → (∀ e, raises_only P (h e)) → raises_only P (try_except m c h).
Proof.
  intros Hm Hh w e. unfold try_except. specialize (Hm w).
  destruct (m w) as [[a|e'] w1]; simpl in *; [done|].
  destruct (c e'); [apply Hh|]. intros [= <-]. by apply Hm.
Qed.

Lemma raises_only_try_finally {A} P (m : M A) fin :
  raises_only P m → raises_only P fin → raises_only P (try_finally m fin).
Proof.
  intros Hm Hf w e. unfold try_finally. specialize (Hm w).
  destruct (m w) as [r w1]; simpl in *. specialize (Hf w1).
  destruct (fin w1) as [[[]|e'] w2]; simpl in *.
  - intros ->. by apply Hm.
  - intros [= <-]. by apply Hf.
Qed.

Lemma raises_only_for_each {A} P (l : list A) body :
  (∀ x, raises_only P (body x)) → raises_only P (for_each l body).
Proof.
  intros Hb. induction l as [|x l IH]; simpl.
  - apply raises_only_ret.
  - by apply raises_only_bind.
Qed.

Lemma raises_only_returns {A} P (m : M A) : returns m → raises_only P m.
Proof. intros Hm w e He. destruct (Hm w) as [a Ha]. congruence. Qed.

Lemma returns_ret {A} (a : A) : returns (mret a).
Proof. intros w. by exists a. Qed.

Lemma returns_emit e : returns (emit e).
Proof. intros w. by exists tt. Qed.

Lemma returns_bind {A B} (m : M A) (f : A → M B) :
  returns m → (∀ a, returns (f a)) → returns (m ≫= f).
Proof.
  intros Hm Hf w. rewrite bind_run. destruct (Hm w) as [a Ha].
  destruct (m w) as [r w1]; simpl in *; subst. apply Hf.
Qed.

(** A handler that catches everything and ends normally makes the
    whole statement end normally. *)
Lemma returns_try_except_all {A} (m : M A) c h :
  (∀ e, returns (h e)) →
  raises_only (λ e, c e = true) m → returns (try_except m c h).
Proof.
  intros Hh Hm w. unfold try_except. specialize (Hm w).
  destruct (m w) as [[a|e] w1] eqn:E; simpl in *; [by exists a|].
  rewrite (Hm e eq_refl). apply Hh.
Qed.

Lemma returns_for_each {A} (l : list A) body :
  (∀ x, returns (body x)) → returns (for_each l body).
Proof.
  intros Hb. induction l as [|x l IH]; simpl.
  - apply returns_ret.
  - by apply returns_bind.
Qed.

End Outcomes.

(** ** How the stages end *)

(** The exceptions the program lets escape: ordinary exceptions and
    [sys.exit(1)]. *)
Definition fatal_exn (e : exn) : Prop :=
  match e with
  | PyExc _ _ => True
  | SystemExit c => c = 1%Z
  end.

Lemma fatal_exn_status {A} e : fatal_exn e → exit_status (@Raise A e) = 1%Z.
Proof. by destruct e. Qed.

Section StageOutcomes.

Context (X : Externals).

Ltac prim_raises :=
  let w := fresh "w" in let e := fresh "e" in
  intros w e; cbv beta delta [path_exists read_text listdir getsize makedirs
    create_file os_remove tar_add os_error raise set_fs];
  repeat case_match; simpl; intros [= <-]; done.

Lemma raises_path_exists P s : raises_only P (path_exists s).
Proof. by intros w e. Qed.
Lemma raises_exc_makedirs s : raises_only (λ e, is_Exception e = true) (makedirs s).
Proof. prim_raises. Qed.
Lemma raises_exc_create_file s d :
  raises_only (λ e, is_Exception e = true) (create_file s d).
Proof. prim_raises. Qed.
Lemma raises_makedirs s : raises_only fatal_exn (makedirs s).
Proof. prim_raises. Qed.
Lemma raises_create_file s d : raises_only fatal_exn (create_file s d).
Proof. prim_raises. Qed.
Lemma raises_read_text s : raises_only fatal_exn (read_text s).
Proof. prim_raises. Qed.
Lemma raises_os_remove s : raises_only fatal_exn (os_remove s).
Proof. prim_raises. Qed.
Lemma raises_listdir s : raises_only fatal_exn (listdir s).
Proof. prim_raises. Qed.
Lemma raises_getsize s : raises_only fatal_exn (getsize X s).
Proof. prim_raises. Qed.
Lemma raises_tar_add a s n : raises_only fatal_exn (tar_add X a s n).
Proof. prim_raises. Qed.

Ltac outcome :=
  repeat first
    [ apply raises_only_ret | apply raises_only_raise; done
    | apply raises_path_exists | apply raises_makedirs | apply raises_create_file
    | apply raises_read_text | apply raises_os_remove | apply raises_listdir
    | apply raises_getsize | apply raises_tar_add
    | apply raises_only_returns; first [apply returns_emit | apply returns_ret]
    | (intros ? ?; discriminate)
    | apply raises_only_bind; [|intros ?]
    | apply raises_only_try_except; [|intros ?]
    | apply raises_only_try_finally
    | apply raises_only_for_each; intros ?
    | match goal with
      | |- raises_only _ (if ?b then _ else _) => destruct b
      | |- raises_only _ (match ?x with _ => _ end) => destruct x
      end ].

Lemma raises_run_to_file cmd out : raises_only fatal_exn (run_to_file X cmd out).
Proof. unfold run_to_file, get_world. outcome. Qed.

Lemma raises_requests_post u c t p :
  raises_only (λ e, is_Exception e = true) (requests_post X u c t p).
Proof.
  unfold requests_post. apply raises_only_bind; [by intros ??|intros _].
  destruct (x_http_post_error X u c t); [|by intros ??].
  by apply raises_only_raise.
Qed.

(** *** The notifier never raises *)

Lemma returns__should_send n : returns (_should_send n).
Proof.
  unfold _should_send. destruct (negb _); [apply returns_ret|].
  destruct (negb _); [|apply returns_ret].
  apply returns_bind; [apply returns_emit|intros; apply returns_ret].
Qed.

Lemma returns__send n text : returns (_send X n text).
Proof.
  unfold _send. apply returns_try_except_all.
  - intros e. apply returns_emit.
  - apply raises_only_bind; [apply raises_requests_post|intros _].
    by intros ??.
Qed.

Lemma returns_send_success n a sz : returns (send_success X n a sz).
Proof.
  unfold send_success. apply returns_bind; [apply returns__should_send|].
  intros [|]; simpl; [apply returns__send|apply returns_ret].
Qed.

Lemma returns_send_error n msg : returns (send_error X n msg).
Proof.
  unfold send_error. apply returns_bind; [apply returns__should_send|].
  intros [|]; simpl; [apply returns__send|apply returns_ret].
Qed.

(** *** The stages raise ordinary exceptions or exit with status 1 *)

Lemma raises__load_config s : raises_only fatal_exn (_load_config X s).
Proof. unfold _load_config, print, sys_exit. outcome. Qed.

Lemma raises_env_override name f c : raises_only fatal_exn (env_override name f c).
Proof. unfold env_override, environ_get. outcome. Qed.

Lemma raises_Backuper__init__ c t m : raises_only fatal_exn (Backuper__init__ X c t m).
Proof.
  unfold Backuper__init__, TelegramNotifier__init__.
  apply raises_only_bind; [apply raises__load_config|intros ?].
  repeat (apply raises_only_bind; [apply raises_env_override|intros ?]).
  unfold environ_get. outcome.
Qed.

Lemma raises__create_db_dump self db : raises_only fatal_exn (_create_db_dump X self db).
Proof.
  unfold _create_db_dump, print, sys_exit, environ_get.
  outcome; try apply raises_run_to_file; outcome.
Qed.

Lemma raises_add_target self a t : raises_only fatal_exn (add_target X self a t).
Proof. unfold add_target, print. outcome. Qed.

Lemma raises__create_archive self ts d : raises_only fatal_exn (_create_archive X self ts d).
Proof.
  unfold _create_archive, print, tar_open.
  outcome; try apply raises_add_target; outcome.
Qed.

Lemma raises__upload_to_s3 f c : raises_only fatal_exn (_upload_to_s3 X f c).
Proof.
  unfold _upload_to_s3, print, sys_exit, environ_get, s3_client, s3_upload_file.
  outcome.
Qed.

Lemma raises_Run_try self : raises_only fatal_exn (Run_try X self).
Proof.
  unfold Run_try.
  apply raises_only_bind; [apply raises_makedirs|intros _].
  apply raises_only_bind; [apply raises__create_db_dump|intros d].
  apply raises_only_bind; [apply raises__create_archive|intros a].
  apply raises_only_bind; [apply raises__upload_to_s3|intros _].
  apply raises_only_returns, returns_send_success.
Qed.

Lemma raises__cleanup self : raises_only fatal_exn (_cleanup self).
Proof. unfold _cleanup, remove_temp_files, print. outcome. Qed.

(** The handler of [Run] always ends in [sys.exit(1)]. *)
Lemma Run_except_exits self e w :
  (Run_except X self e w).1 = Raise (SystemExit 1).
Proof.
  unfold Run_except. rewrite bind_run. simpl.
  rewrite bind_run.
  destruct (returns_send_error (_notifier self) (str_exn e)
              (with_trace (w_trace w ++ [Stdout ("CRITICAL ERROR: " +:+ str_exn e)]) w))
    as [[] Ha].
  unfold print, emit. simpl.
  destruct (send_error _ _ _ _) as [r w1]. simpl in Ha. by subst.
Qed.

Lemma raises_Run self : raises_only fatal_exn (Run X self).
Proof.
  unfold Run. apply raises_only_try_finally; [|apply raises__cleanup].
  apply raises_only_try_except; [apply raises_Run_try|].
  intros e w e'. rewrite Run_except_exits. by intros [= <-].
Qed.

Lemma raises_main : raises_only fatal_exn (main X).
Proof.
  unfold main. apply raises_only_bind; [apply raises_Backuper__init__|intros b].
  apply raises_only_bind; [apply raises_Run|intros _]. by intros ??.
Qed.

End StageOutcomes.

(** ** The cleanup step *)

Section Cleanup.
Import PathFacts Tree.

Context (X : Externals).

(** How often the cleanup step started, read off the trace. *)
Definition is_cleanup_banner (e : event) : bool :=
  match e with
  | Stdout line => String.eqb line cleanup_banner
  | _ => false
  end.

Fixpoint cleanup_runs (t : list event) : nat :=
  match t with
  | [] => 0
  | e :: r => (if is_cleanup_banner e then 1 else 0) + cleanup_runs r
  end.

Lemma cleanup_runs_app t u : cleanup_runs (t ++ u) = cleanup_runs t + cleanup_runs u.
Proof. induction t as [|e t IH]; simpl; [done|]. rewrite IH. lia. Qed.

Lemma invariant_cleanup_runs n :
  invariant (λ e, e ≠ Stdout cleanup_banner) (λ w, cleanup_runs (w_trace w) = n).
Proof.
  split; [done|]. intros w e He Hw. simpl.
  rewrite cleanup_runs_app, Hw. simpl.
  destruct e as [line| | |]; simpl; try lia.
  destruct (String.eqb line cleanup_banner) eqn:E; [|lia].
  apply String.eqb_eq in E. by subst.
Qed.

Lemma invariant_trace t : invariant (λ _, False) (λ w, w_trace w = t).
Proof. split; [done|]. by intros. Qed.

(** The entries of a directory are the names of its children. *)
Lemma child_of_spec p k n : FS.child_of p k = Some n ↔ k = p ++ [n].
Proof.
  unfold FS.child_of. destruct k as [|x k _] using rev_ind.
  - rewrite decide_False by (by intros [? _]). split; [done|]. by destruct p.
  - rewrite removelast_last, last_snoc. case_decide as Hd.
    + destruct Hd as [_ ->]. split; [by intros [= ->]|].
      by intros [_ [= ->]]%app_inj_tail.
    + split; [done|]. intros [-> _]%app_inj_tail. destruct Hd.
      split; [by destruct p|done].
Qed.

Lemma elem_of_children (fs : gmap path node) p n :
  n ∈ FS.children fs p ↔ is_Some (fs !! (p ++ [n])).
Proof.
  unfold FS.children. rewrite list_elem_of_omap. split.
  - intros (k & Hk & Hc). apply child_of_spec in Hc as ->.
    apply list_elem_of_fmap in Hk as ([k v] & -> & Hkv).
    apply elem_of_map_to_list in Hkv. by exists v.
  - intros [v Hv]. exists (p ++ [n]). split; [|by apply child_of_spec].
    apply list_elem_of_fmap. exists (p ++ [n], v). split; [done|].
    by apply elem_of_map_to_list.
Qed.

(** What one round of the loop does to the files. *)
Definition remove_entry (tp : path) (fs : gmap path node) (n : string) : gmap path node :=
  match fs !! (tp ++ [n]) with
  | Some (Reg _) => delete (tp ++ [n]) fs
  | _ => fs
  end.

Lemma remove_quietly td tp n w :
  FS.resolve (w_cwd w) td = Some tp → plain n = true →
  try_except (os_remove (PyStr.join td n)) (λ _, true) (λ _, mret tt) w
  = (Ret tt, with_fs (remove_entry tp (w_fs w) n) w).
Proof.
  intros Htd Hn. unfold try_except, os_remove, remove_entry.
  rewrite (resolve_join _ _ _ _ Htd Hn).
  rewrite lookup_nonroot by by destruct tp.
  destruct (w_fs w !! (tp ++ [n])) as [[|d]|]; simpl;
    by rewrite ?with_fs_same.
Qed.

Lemma remove_loop td tp names w :
  FS.resolve (w_cwd w) td = Some tp → Forall (λ n, plain n = true) names →
  for_each names (λ f,
    try_except (os_remove (PyStr.join td f)) (λ _, true) (λ _, mret tt)) w
  = (Ret tt, with_fs (foldl (remove_entry tp) (w_fs w) names) w).
Proof.
  revert w. induction names as [|n names IH]; intros w Htd Hpl; simpl.
  - by rewrite with_fs_same.
  - inversion_clear Hpl. rewrite bind_run, (remove_quietly td tp) by done.
    rewrite IH by done. by destruct w.
Qed.

Lemma remove_entry_file tp fs n k d :
  remove_entry tp fs n !! k = Some (Reg d) →
  fs !! k = Some (Reg d) ∧ k ≠ tp ++ [n].
Proof.
  unfold remove_entry. destruct (fs !! (tp ++ [n])) as [[|d0]|] eqn:E.
  - intros Hk. split; [done|]. intros ->. congruence.
  - intros [Hne Hk]%lookup_delete_Some. by split.
  - intros Hk. split; [done|]. intros ->. congruence.
Qed.

Lemma remove_all_file tp names fs k d :
  foldl (remove_entry tp) fs names !! k = Some (Reg d) →
  fs !! k = Some (Reg d) ∧ ∀ n, n ∈ names → k ≠ tp ++ [n].
Proof.
  revert fs. induction names as [|n names IH]; intros fs; simpl.
  - intros Hk. split; [done|]. by intros n ?%elem_of_nil.
  - intros [[Hk Hn]%remove_entry_file Hrest]%IH. split; [done|].
    intros m [->|Hm]%elem_of_cons; [done|by apply Hrest].
Qed.

(** In a well-formed tree, after [remove_temp_files] no regular file
    is left directly inside the temp directory. *)
Lemma remove_temp_files_flat self w tp n d :
  wf_world w → FS.resolve (w_cwd w) (_temp_dir self) = Some tp →
  w_fs (remove_temp_files self w).2 !! (tp ++ [n]) ≠ Some (Reg d).
Proof.
  intros [Hcwd Hwf] Htd. unfold remove_temp_files, path_exists, listdir.
  rewrite bind_run. simpl. rewrite Htd.
  destruct (FS.lookup (w_fs w) tp) as [[|d0]|] eqn:Htp; simpl.
  - rewrite bind_run, Htd, Htp. rewrite (remove_loop _ tp) by first
      [ done
      | apply Forall_forall; intros m [v Hv]%elem_of_children;
        destruct (Hwf _ _ Hv) as [Hpl _];
        by apply Forall_app in Hpl as [_ [? _]%Forall_cons] ].
    simpl. intros [Hk Hn]%remove_all_file.
    apply (Hn n); [|done]. apply elem_of_children. by eexists.
  - rewrite bind_run, Htd, Htp. simpl. intros Hk.
    destruct (Hwf _ _ Hk) as [_ Hpar]. rewrite removelast_last in Hpar. congruence.
  - intros Hk.
    destruct (Hwf _ _ Hk) as [_ Hpar]. rewrite removelast_last in Hpar. congruence.
Qed.

(** When the temp directory is a directory, the cleanup step ends
    normally. *)
Lemma cleanup_returns self w tp :
  FS.resolve (w_cwd w) (_temp_dir self) = Some tp →
  FS.lookup (w_fs w) tp = Some Dir →
  (_cleanup self w).1 = Ret tt.
Proof.
  intros Htd Htp. unfold _cleanup, remove_temp_files, path_exists, listdir.
  rewrite bind_run. simpl. rewrite bind_run. simpl. rewrite Htd, Htp.
  rewrite bind_run. simpl. rewrite Htd, Htp.
  match goal with |- (for_each ?l ?b ?w0).1 = _ =>
    destruct (returns_for_each l b
      ltac:(intros x; apply returns_try_except_all;
            [intros; apply returns_ret | by intros ??]) w0) as [[] Hr] end.
  done.
Qed.

Lemma cleanup_trace self w :
  w_trace (_cleanup self w).2 = w_trace w ++ [Stdout cleanup_banner].
Proof.
  unfold _cleanup. rewrite bind_run. simpl.
  by apply (preserves_remove_temp_files _ _ (invariant_trace _) self
              (with_trace (w_trace w ++ [Stdout cleanup_banner]) w)).
Qed.

Lemma try_finally_world {A} (m : M A) fin w :
  (try_finally m fin w).2 = (fin (m w).2).2.
Proof.
  unfold try_finally. destruct (m w) as [r w1]. simpl.
  by destruct (fin w1) as [[[]|e] w2].
Qed.

End Cleanup.

(** ** The orchestrator *)

Section Orchestrator.
Import PathFacts Tree.

Context (X : Externals).

(** [try ... except Exception ...] of [Run], without the [finally] *)
Definition Run_guarded (self : Backuper) : M unit :=
  try_except (Run_try X self) is_Exception (Run_except X self).

Lemma Run_unfold self w :
  Run X self w = try_finally (Run_guarded self) (_cleanup self) w.
Proof. reflexivity. Qed.

Lemma preserves_Run_guarded Q I self :
  invariant Q I → (∀ e, e ≠ Stdout cleanup_banner → Q e) →
  preserves I (Run_guarded self).
Proof.
  intros HI HQ. apply preserves_try_except.
  - by eapply preserves_Run_try.
  - intros e. by eapply preserves_Run_except.
Qed.




Lemma makedirs_dir s w w' :
  makedirs s w = (Ret tt, w') →
  ∃ tp, FS.resolve (w_cwd w) s = Some tp ∧ FS.lookup (w_fs w') tp = Some Dir.
Proof.
  unfold makedirs. destruct (FS.resolve (w_cwd w) s) as [tp|]; [|done].
  destruct (FS.mkdir_p (w_fs w) [] tp) as [fs|] eqn:Hm; [|done].
  intros [= <-]. exists tp. split; [done|]. by apply (mkdir_p_dir (w_fs w) [] tp).
Qed.

(** After a [try] block that ran to its end, the cleanup step ends
    normally: the temp directory was made and is still there. *)
Lemma Run_try_then_cleanup self w w' :
  Run_try X self w = (Ret tt, w') → (_cleanup self w').1 = Ret tt.
Proof.
  unfold Run_try. intros (u & w1 & Hmk & Hrest)%bind_Ret_inv. destruct u.
  apply makedirs_dir in Hmk as Hdir. destruct Hdir as (tp & Htd & Htp).
  pose proof (preserves_fs_call _ _ (invariant_frame (w_env w) (w_cwd w))
                (makedirs (_temp_dir self)) (fs_call_makedirs _) w
                (conj eq_refl eq_refl)) as [_ Hcwd1].
  rewrite Hmk in Hcwd1. simpl in Hcwd1.
  set (rest := dump_file_path ← _create_db_dump X self (database (_cfg self));
               archive_file ← _create_archive X self (targets (_cfg self)) dump_file_path;
               _upload_to_s3 X archive_file (s3 (_cfg self));;
               send_success X (_notifier self) (f_name archive_file) (size_mb archive_file)) in *.
  assert (∀ Q I, invariant Q I → (∀ e, e ≠ Stdout cleanup_banner → Q e) →
                 preserves I rest) as Hpres.
  { intros Q I HI HQ. unfold rest.
    apply preserves_bind; [by eapply preserves__create_db_dump|intros d].
    apply preserves_bind; [by eapply preserves__create_archive|intros a].
    apply preserves_bind; [by eapply preserves__upload_to_s3|intros _].
    by eapply preserves_send_success. }
  pose proof (Hpres _ _ (invariant_dir tp) (λ _ _, I) w1 Htp) as Hdir.
  pose proof (Hpres _ _ (invariant_frame (w_env w1) (w_cwd w1)) (λ _ _, I) w1
                (conj eq_refl eq_refl)) as [_ Hcwd].
  rewrite Hrest in Hdir, Hcwd. simpl in *.
  apply (cleanup_returns self w' tp); [|done]. by rewrite Hcwd, Hcwd1.
Qed.

Lemma Run_guarded_Ret self w w' :
  Run_guarded self w = (Ret tt, w') → Run_try X self w = (Ret tt, w').
Proof.
  unfold Run_guarded, try_except.
  destruct (Run_try X self w) as [[[]|e] w1] eqn:E; [done|].
  destruct (is_Exception e); [|done].
  pose proof (Run_except_exits X self e w1) as Hx.
  intros Heq. rewrite Heq in Hx. done.
Qed.

Lemma Run_Ret_iff self w :
  (Run X self w).1 = Ret tt ↔ ∃ w', Run_try X self w = (Ret tt, w').
Proof.
  rewrite Run_unfold. unfold try_finally. split.
  - destruct (Run_guarded self w) as [r w1] eqn:E.
    destruct (_cleanup self w1) as [[[]|e] w2]; [|done]. simpl. intros ->.
    exists w1. by apply Run_guarded_Ret.
  - intros [w' Ht]. unfold Run_guarded, try_except. rewrite Ht.
    pose proof (Run_try_then_cleanup self w w' Ht) as Hc.
    destruct (_cleanup self w') as [[[]|e] w2]; done.
Qed.


End Orchestrator.

Section ExitStatus.

Context (X : Externals).



End ExitStatus.


(** ** Concrete runs *)

(** A checkable form of well-formedness, for concrete file systems. *)
Definition wf_fsb (fs : gmap path node) : bool :=
  forallb (λ kv : path * node,
             forallb PathFacts.plain kv.1 &&
             match FS.lookup fs (removelast kv.1) with
             | Some Dir => true
             | _ => false
             end)
          (map_to_list fs).

Lemma wf_fsb_sound fs : wf_fsb fs = true → Tree.wf_fs fs.
Proof.
  unfold wf_fsb. rewrite forallb_forall. intros H k n Hk.
  apply elem_of_map_to_list, list_elem_of_In in Hk.
  apply H, andb_true_iff in Hk as [Hpl Hpar]. simpl in *. split.
  - apply Forall_forall. intros x Hx%list_elem_of_In.
    rewrite forallb_forall in Hpl. by apply Hpl.
  - by destruct (FS.lookup fs (removelast k)) as [[|]|].
Qed.

Module Scenario.

(** Settings with every stage switched on. *)
Definition settings : BackupConfig := {|
  s3 := {| endpoint := "https://r2.example"; bucket_name := "A";
           region := "auto"; s3_enabled := true |};
  database := {| db_enabled := true; container_name := "mysql";
                 db_user := "root"; dump_filename := "dump.sql" |};
  telegram := {| tg_enabled := true; chat_id := "42" |};
  targets := ["./data"; ".env"; "missing"]
|}.

(** An outside world in which every call succeeds. *)
Definition ext : Externals := {|
  x_now := {| year := 2024; month := 3; day := 7; hour := 4; minute := 5; second := 6 |};
  x_load_config := λ _, inr {| backup := settings |};
  x_subprocess := λ _ _, Exited 0 "-- dump";
  x_str_called_process_error := λ _ code,
    "Command 'mysqldump' returned non-zero exit status " +:+ pretty code +:+ ".";
  x_tar_add_error := λ _, None;
  x_stat_size := λ _, 3145728%N;
  x_s3_client_error := λ _ _, None;
  x_s3_upload_error := λ _ _ _ _ _, None;
  x_http_post_error := λ _ _ _, None;
  x_format_2f := λ _, "3.00"
|}.

Definition with_subprocess (f : list string → gmap path node → proc_result)
    (X : Externals) : Externals := {|
  x_now := x_now X; x_load_config := x_load_config X; x_subprocess := f;
  x_str_called_process_error := x_str_called_process_error X;
  x_tar_add_error := x_tar_add_error X; x_stat_size := x_stat_size X;
  x_s3_client_error := x_s3_client_error X; x_s3_upload_error := x_s3_upload_error X;
  x_http_post_error := x_http_post_error X; x_format_2f := x_format_2f X
|}.

Definition with_tar_add_error (f : path → option string) (X : Externals) : Externals := {|
  x_now := x_now X; x_load_config := x_load_config X; x_subprocess := x_subprocess X;
  x_str_called_process_error := x_str_called_process_error X;
  x_tar_add_error := f; x_stat_size := x_stat_size X;
  x_s3_client_error := x_s3_client_error X; x_s3_upload_error := x_s3_upload_error X;
  x_http_post_error := x_http_post_error X; x_format_2f := x_format_2f X
|}.

Definition with_s3_upload_error (f : string → string → string → string → string → option string)
    (X : Externals) : Externals := {|
  x_now := x_now X; x_load_config := x_load_config X; x_subprocess := x_subprocess X;
  x_str_called_process_error := x_str_called_process_error X;
  x_tar_add_error := x_tar_add_error X; x_stat_size := x_stat_size X;
  x_s3_client_error := x_s3_client_error X; x_s3_upload_error := f;
  x_http_post_error := x_http_post_error X; x_format_2f := x_format_2f X
|}.

(** The files of a host: the config file, two of the three targets, and
    an empty [/tmp]. *)
Definition files : gmap path node :=
  <[ ["app"] := Dir ]> (
  <[ ["app"; "config.yaml"] := Reg (Text "backup: ...") ]> (
  <[ ["host_data"] := Dir ]> (
  <[ ["host_data"; "data"] := Dir ]> (
  <[ ["host_data"; "env"] := Reg (Text "SECRET=1") ]> (
  <[ ["tmp"] := Dir ]> ∅))))).

Definition world : World := {|
  w_env := <[ "TELEGRAM_BOT_TOKEN" := "tok" ]> (<[ "DB_PASSWORD" := "pw" ]> ∅);
  w_cwd := [];
  w_fs := files;
  w_trace := []
|}.

(** The object [Backuper()] builds from [settings] in [world]. *)
Definition backuper : Backuper := {|
  _temp_dir := TEMP_DIR; _mount_root := MOUNT_ROOT; _cfg := settings;
  _notifier := {| _config := telegram settings; _token := Some "tok" |}
|}.

(** A dump file name with a directory part, and a temp directory that
    already holds that directory. *)
Definition settings_sub : BackupConfig := {|
  s3 := s3 settings;
  database := {| db_enabled := true; container_name := "mysql";
                 db_user := "root"; dump_filename := "sub/dump.sql" |};
  telegram := telegram settings;
  targets := targets settings
|}.

Definition backuper_sub : Backuper := {|
  _temp_dir := TEMP_DIR; _mount_root := MOUNT_ROOT; _cfg := settings_sub;
  _notifier := _notifier backuper
|}.

Definition world_sub : World := {|
  w_env := w_env world;
  w_cwd := [];
  w_fs := <[ ["tmp"; "backup"] := Dir ]> (<[ ["tmp"; "backup"; "sub"] := Dir ]> files);
  w_trace := []
|}.

End Scenario.

Lemma scenario_world_wf : Tree.wf_world Scenario.world.
Proof. split; [constructor|]. apply wf_fsb_sound. by vm_compute. Qed.

Lemma scenario_world_sub_wf : Tree.wf_world Scenario.world_sub.
Proof. split; [constructor|]. apply wf_fsb_sound. by vm_compute. Qed.

(** ** C2: the cleanup step *)

(** The claim as the specification words it: whatever the run created
    below the temp directory is gone when [Run] is over. *)
Definition workspace_purged (X : Externals) (self : Backuper) (w : World) : Prop :=
  ∀ tp k d,
    FS.resolve (w_cwd w) (_temp_dir self) = Some tp →
    tp `prefix_of` k → w_fs w !! k = None →
    w_fs (Run X self w).2 !! k ≠ Some (Reg d).

(** C2, as stated, fails: with the dump file name [sub/dump.sql] and a
    directory [sub] already in the temp directory, the dump is written
    to [/tmp/backup/sub/dump.sql]; the cleanup step tries to remove
    [/tmp/backup/sub], swallows the error, and the dump file stays. *)
Lemma workspace_not_always_purged :
  ¬ (∀ X self w, Tree.wf_world w → workspace_purged X self w).
Proof.
  intros H.
  apply (H Scenario.ext Scenario.backuper_sub Scenario.world_sub scenario_world_sub_wf
           ["tmp"; "backup"] ["tmp"; "backup"; "sub"; "dump.sql"] (Text "-- dump")).
  - reflexivity.
  - by exists ["sub"; "dump.sql"].
  - by vm_compute.
  - by vm_compute.
Qed.

(** C2 (amended). On every path through [Run] -- whatever each stage
    does, and however [Run] ends -- the cleanup step starts exactly
    once, and afterwards no regular file is left directly inside the
    temp directory.  The credential file and the archive are always
    such files, and so is the dump when its name is a plain file name. *)
Theorem cleanup_once_and_flat (X : Externals) (self : Backuper) (w : World) :
  Tree.wf_world w →
  cleanup_runs (w_trace (Run X self w).2) = S (cleanup_runs (w_trace w)) ∧
  ∀ tp n d,
    FS.resolve (w_cwd w) (_temp_dir self) = Some tp →
    w_fs (Run X self w).2 !! (tp ++ [n]) ≠ Some (Reg d).
Proof.
  intros Hwf. rewrite Run_unfold, try_finally_world.
  set (w1 := (Run_guarded X self w).2).
  assert (Tree.wf_world w1) as Hwf1.
  { by apply (preserves_Run_guarded X _ _ self Tree.invariant_wf (λ _ _, I)). }
  assert (w_cwd w1 = w_cwd w) as Hcwd.
  { by apply (preserves_Run_guarded X _ _ self
                (Tree.invariant_frame (w_env w) (w_cwd w)) (λ _ _, I) w). }
  assert (cleanup_runs (w_trace w1) = cleanup_runs (w_trace w)) as Hruns.
  { by apply (preserves_Run_guarded X _ _ self
                (invariant_cleanup_runs (cleanup_runs (w_trace w))) (λ _ H, H) w). }
  split.
  - rewrite cleanup_trace, cleanup_runs_app, Hruns. simpl. lia.
  - intros tp n d Htd. unfold _cleanup. rewrite bind_run. simpl.
    apply remove_temp_files_flat; [done|]. simpl. by rewrite Hcwd.
Qed.

Lemma cleanup_once_and_flat_witness :
  cleanup_runs (w_trace (Run Scenario.ext Scenario.backuper Scenario.world).2) = 1 ∧
  w_fs (Run Scenario.ext Scenario.backuper Scenario.world).2
    !! ["tmp"; "backup"; "dump.sql"] ≠ Some (Reg (Text "-- dump")).
Proof.
  destruct (cleanup_once_and_flat Scenario.ext Scenario.backuper Scenario.world
              scenario_world_wf) as [Hruns Hflat].
  split; [exact Hruns|]. by apply (Hflat ["tmp"; "backup"] "dump.sql").
Defined.

(** ** C3: the credential file *)

Section Credential.

Context (X : Externals).

(** A regular file sits at [p]; the working directory is [cwd]. *)
Definition file_at (cwd p : path) (w : World) : Prop :=
  w_cwd w = cwd ∧ ∃ d, w_fs w !! p = Some (Reg d).

Lemma create_file_world s d w :
  (create_file s d w).2 = w ∨
  ∃ q, (create_file s d w).2 = with_fs (<[q := Reg d]> (w_fs w)) w.
Proof.
  unfold create_file.
  destruct (FS.resolve (w_cwd w) s) as [q|]; [|by left].
  destruct (FS.lookup (w_fs w) q) as [[|d1]|];
    destruct (FS.lookup (w_fs w) (removelast q)) as [[|d2]|];
    simpl; first [by left | right; by exists q].
Qed.

Lemma create_file_keeps_file cwd p s d :
  preserves (file_at cwd p) (create_file s d).
Proof.
  intros w [Hcwd [d0 Hp]].
  destruct (create_file_world s d w) as [->|[q ->]]; [by split; [|exists d0]|].
  split; [done|]. simpl. destruct (decide (q = p)) as [->|Hne].
  - exists d. apply lookup_insert_eq.
  - exists d0. by rewrite lookup_insert_ne.
Qed.

Lemma emit_keeps_file cwd p e : preserves (file_at cwd p) (emit e).
Proof. by intros w Hw. Qed.

Lemma run_to_file_keeps_file cwd p cmd out :
  preserves (file_at cwd p) (run_to_file X cmd out).
Proof.
  unfold run_to_file.
  apply preserves_bind; [apply create_file_keeps_file|intros _].
  apply preserves_bind; [apply emit_keeps_file|intros _].
  apply preserves_bind; [apply preserves_get_world|intros w1].
  destruct (x_subprocess X cmd (w_fs w1)); [|apply preserves_raise].
  apply preserves_bind; [apply create_file_keeps_file|intros _].
  destruct (code =? 0)%Z; [apply preserves_ret|apply preserves_raise].
Qed.

Lemma dump_try_keeps_file cwd p cmd dump_file :
  preserves (file_at cwd p)
    (try_except
       (run_to_file X cmd dump_file ;;
        print ("MySQL: Dump created at " +:+ dump_file) ;;
        mret (Some dump_file))
       is_CalledProcessError
       (λ e, print ("MySQL Error: " +:+ str_exn e) ;; sys_exit 1)).
Proof.
  apply preserves_try_except.
  - apply preserves_bind; [apply run_to_file_keeps_file|intros _].
    apply preserves_bind; [apply emit_keeps_file|intros _]. apply preserves_ret.
  - intros e. apply preserves_bind; [apply emit_keeps_file|intros _].
    apply preserves_sys_exit.
Qed.

Lemma create_file_Ret s d w w' :
  create_file s d w = (Ret tt, w') →
  ∃ p, FS.resolve (w_cwd w) s = Some p ∧ p ≠ [] ∧
       w' = with_fs (<[p := Reg d]> (w_fs w)) w.
Proof.
  unfold create_file. destruct (FS.resolve (w_cwd w) s) as [p|]; [|done].
  intros H. exists p. split; [done|].
  destruct p as [|x p]; [done|]. split; [done|].
  destruct (FS.lookup (w_fs w) (x :: p)) as [[|d1]|];
    destruct (FS.lookup (w_fs w) (removelast (x :: p))) as [[|d2]|];
    simpl in H; by inversion H.
Qed.

(** Once a file sits at the credential path, the [finally] block of the
    dump stage removes it. *)
Lemma remove_credentials auth p w :
  FS.resolve (w_cwd w) auth = Some p → p ≠ [] →
  (∃ d, w_fs w !! p = Some (Reg d)) →
  let fin := (present ← path_exists auth ;
              if (present : bool) then os_remove auth else mret tt) in
  (fin w).1 = Ret tt ∧ (path_exists auth (fin w).2).1 = Ret false.
Proof.
  intros Hres Hne [d Hp] fin.
  assert (fin w = (Ret tt, with_fs (delete p (w_fs w)) w)) as ->.
  { unfold fin. rewrite bind_run. unfold path_exists, os_remove.
    rewrite Hres, Tree.lookup_nonroot, Hp by done. simpl.
    by rewrite Hres, Tree.lookup_nonroot, Hp. }
  split; [done|]. unfold path_exists. simpl.
  by rewrite Hres, Tree.lookup_nonroot, lookup_delete_eq.
Qed.

End Credential.

(** C3. With [database.enabled = true], whenever the dump stage returns
    (the success path) or leaves through [sys.exit] (the path of a
    failed dump command, the only place where the stage exits), the
    credential file does not exist afterwards. *)
Theorem credential_file_removed (X : Externals) (self : Backuper)
    (db : DatabaseConfig) (w : World) :
  db_enabled db = true →
  ∀ r w', _create_db_dump X self db w = (r, w') →
    ((∃ v, r = Ret v) ∨ (∃ code, r = Raise (SystemExit code))) →
    (path_exists (PyStr.join (_temp_dir self) "mysql_auth.cnf") w').1 = Ret false.
Proof.
  intros Hen r w' Hrun Hout. unfold _create_db_dump in Hrun. rewrite Hen in Hrun.
  simpl in Hrun. rewrite bind_run in Hrun. simpl in Hrun.
  set (w0 := with_trace (w_trace w ++ [Stdout "MySQL: Creating dump..."]) w) in *.
  set (auth := PyStr.join (_temp_dir self) "mysql_auth.cnf") in *.
  assert (∀ cls msg, r ≠ Raise (PyExc cls msg)) as Hnot.
  { intros cls msg ->. by destruct Hout as [[]|[]]. }
  rewrite bind_run in Hrun.
  destruct (makedirs (_temp_dir self) w0) as [[[]|e] w1] eqn:Hmk.
  2:{ pose proof (raises_exc_makedirs (_temp_dir self) w0 e) as He. rewrite Hmk in He.
      destruct e; [|by specialize (He eq_refl)]. injection Hrun as <- _.
      by destruct (Hnot cls msg). }
  rewrite bind_run in Hrun. simpl in Hrun. rewrite bind_run in Hrun.
  destruct (create_file auth _ w1) as [[[]|e] w2] eqn:Hcf.
  2:{ match type of Hcf with create_file ?a ?d ?w = _ =>
        pose proof (raises_exc_create_file a d w e) as He end. rewrite Hcf in He.
      destruct e; [|by specialize (He eq_refl)]. injection Hrun as <- _.
      by destruct (Hnot cls msg). }
  apply create_file_Ret in Hcf as (p & Hres & Hne & ->).
  unfold try_finally in Hrun.
  match type of Hrun with
  | (let '(_, _) := ?body ?w2 in _) = _ =>
      pose proof (dump_try_keeps_file X (w_cwd w1) p (dump_cmd auth)
                    (PyStr.join (_temp_dir self) (dump_filename db)) w2) as Hkeep;
      destruct (body w2) as [rb w3] eqn:Hbody
  end.
  simpl in Hkeep.
  destruct Hkeep as [Hcwd3 Hfile3].
  { split; [done|]. eexists. apply lookup_insert_eq. }
  destruct (remove_credentials auth p w3) as [Hfin Habsent];
    [by rewrite Hcwd3|done|done|].
  simpl in Hfin, Habsent.
  destruct ((path_exists auth ≫= _) w3) as [[[]|ef] w4]; [|done].
  by injection Hrun as <- <-.
Qed.

Lemma credential_file_removed_witness :
  (path_exists "/tmp/backup/mysql_auth.cnf"
     (_create_db_dump Scenario.ext Scenario.backuper
        (database Scenario.settings) Scenario.world).2).1 = Ret false ∧
  (path_exists "/tmp/backup/mysql_auth.cnf"
     (_create_db_dump (Scenario.with_subprocess (λ _ _, Exited 2 "") Scenario.ext)
        Scenario.backuper (database Scenario.settings) Scenario.world).2).1 = Ret false.
Proof.
  split.
  - apply (credential_file_removed Scenario.ext Scenario.backuper
             (database Scenario.settings) Scenario.world eq_refl _ _
             (surjective_pairing _)).
    left. eexists. vm_compute. reflexivity.
  - apply (credential_file_removed
             (Scenario.with_subprocess (λ _ _, Exited 2 "") Scenario.ext)
             Scenario.backuper (database Scenario.settings) Scenario.world eq_refl _ _
             (surjective_pairing _)).
    right. exists 1%Z. vm_compute. reflexivity.
Defined.

(** ** C4: a disabled database *)

(** C4. With [database.enabled = false] the dump stage returns [None]
    and leaves the world as it found it -- no credential file, no dump
    command, no dump file -- and the [try] block of [Run] goes on to the
    archive stage without a dump file. *)
Theorem disabled_dump_is_skipped (X : Externals) (self : Backuper) (w : World) :
  db_enabled (database (_cfg self)) = false →
  _create_db_dump X self (database (_cfg self)) w = (Ret None, w) ∧
  Run_try X self w =
    (makedirs (_temp_dir self) ;;
     archive_file ← _create_archive X self (targets (_cfg self)) None ;
     _upload_to_s3 X archive_file (s3 (_cfg self)) ;;
     send_success X (_notifier self) (f_name archive_file) (size_mb archive_file)) w.
Proof.
  intros Hoff.
  assert (∀ w0, _create_db_dump X self (database (_cfg self)) w0 = (Ret None, w0)) as Hskip.
  { intros w0. unfold _create_db_dump. by rewrite Hoff. }
  split; [apply Hskip|]. unfold Run_try. rewrite !bind_run.
  destruct (makedirs (_temp_dir self) w) as [[[]|e] w1]; [|done].
  by rewrite bind_run, Hskip.
Qed.

Lemma disabled_dump_is_skipped_witness :
  let self := {| _temp_dir := TEMP_DIR; _mount_root := MOUNT_ROOT;
                 _cfg := {| s3 := s3 Scenario.settings;
                            database := {| db_enabled := false; container_name := "mysql";
                                           db_user := "root"; dump_filename := "dump.sql" |};
                            telegram := telegram Scenario.settings;
                            targets := targets Scenario.settings |};
                 _notifier := _notifier Scenario.backuper |} in
  _create_db_dump Scenario.ext self (database (_cfg self)) Scenario.world
  = (Ret None, Scenario.world).
Proof.
  intros self. exact (proj1 (disabled_dump_is_skipped Scenario.ext self Scenario.world eq_refl)).
Defined.

(** A host without the config file. *)
Definition world_without_config : World := {|
  w_env := w_env Scenario.world;
  w_cwd := [];
  w_fs := <[ ["tmp"] := Dir ]> ∅;
  w_trace := []
|}.


(** ** C1: what a failed stage reports *)

(** The texts sent to the chat, and the upload calls made. *)
Definition posts (t : list event) : list string :=
  omap (λ e, match e with HttpPost _ _ text _ => Some text | _ => None end) t.

Definition uploads (t : list event) : list (string * string) :=
  omap (λ e, match e with S3Upload _ _ _ _ _ bucket key => Some (bucket, key) | _ => None end) t.

Definition disk_full : string := "[Errno 28] No space left on device".

(** C1 (code at the failing inputs).  The notifier is enabled and has
    its token.  When the dump command exits with status 2 the process
    exits with status 1 and uploads nothing, but it sends no message at
    all: the stage's own [sys.exit(1)] raises [SystemExit], which the
    handler [except Exception] of [Run] does not catch.  The same
    happens when the upload fails.  When the archive stage fails, the
    exception reaches the handler and one message with the error text
    is sent. *)
Theorem stage_exit_skips_notification :
  let dump_fails := main (Scenario.with_subprocess (λ _ _, Exited 2 "") Scenario.ext)
                         Scenario.world in
  let upload_fails := main (Scenario.with_s3_upload_error
                              (λ _ _ _ _ _, Some "AccessDenied") Scenario.ext)
                           Scenario.world in
  let archive_fails := main (Scenario.with_tar_add_error (λ _, Some disk_full) Scenario.ext)
                            Scenario.world in
  (exit_status dump_fails.1 = 1%Z ∧ uploads (w_trace dump_fails.2) = [] ∧
   posts (w_trace dump_fails.2) = []) ∧
  (exit_status upload_fails.1 = 1%Z ∧ posts (w_trace upload_fails.2) = []) ∧
  (exit_status archive_fails.1 = 1%Z ∧ uploads (w_trace archive_fails.2) = [] ∧
   posts (w_trace archive_fails.2) = [error_text disk_full]).
Proof. vm_compute. repeat split; reflexivity. Qed.

(** ** The archive stage *)

Section Archive.
Import PathFacts.

Context (X : Externals).

(** What [os.path.exists] answers on given files. *)
Definition present (cwd : path) (fs : gmap path node) (s : string) : bool :=
  match FS.resolve cwd s with
  | Some p => match FS.lookup fs p with Some _ => true | None => false end
  | None => false
  end.

Lemma path_exists_present s w :
  path_exists s w = (Ret (present (w_cwd w) (w_fs w) s), w).
Proof. reflexivity. Qed.











Lemma omap_cons_option_list {A B} (f : A → option B) x l :
  omap f (x :: l) = option_list (f x) ++ omap f l.
Proof. simpl. by destruct (f x). Qed.



(** *** The name of the archive *)

Lemma no_sep_app a b : no_sep (a +:+ b) = no_sep a && no_sep b.
Proof.
  induction a as [|c a IH]; [by rewrite app_nil|].
  by rewrite app_cons, !no_sep_cons, IH, andb_assoc.
Qed.

Lemma digit_not_sep n : PyStr.is_slash (digit n) = false.
Proof.
  unfold digit. pose proof (Nat.mod_upper_bound n 10 ltac:(lia)) as Hlt.
  remember (n mod 10)%nat as k eqn:Hk. clear Hk.
  do 10 (destruct k as [|k]; [reflexivity|]). lia.
Qed.

Lemma no_sep_pad2 n : no_sep (pad2 n) = true.
Proof. unfold pad2. by rewrite !no_sep_cons, !digit_not_sep. Qed.

Lemma no_sep_pad4 n : no_sep (pad4 n) = true.
Proof. unfold pad4. by rewrite !no_sep_cons, !digit_not_sep, no_sep_pad2. Qed.

Lemma archive_name_plain d : plain (archive_name_at d) = true.
Proof.
  unfold plain, archive_name_at.
  change ("backup_" +:+ strftime d +:+ ".tar.gz")
    with (String "b" ("ackup_" +:+ strftime d +:+ ".tar.gz")) at 1 2 3.
  cbn [String.eqb Ascii.eqb Bool.eqb negb andb].
  unfold strftime. by rewrite !no_sep_app, no_sep_pad4, !no_sep_pad2.
Qed.


(** *** The whole stage *)





End Archive.


(** ** The size of the archive *)

Module FloatFacts.

Local Open Scope Z_scope.

Lemma digits_iter n k : digits2_pos (Pos.iter xO n k) = (digits2_pos n + k)%positive.
Proof.
  induction k as [|k IH] using Pos.peano_ind.
  - simpl. lia.
  - rewrite Pos.iter_succ. simpl. rewrite IH. lia.
Qed.

Lemma value_iter n k : Zpos (Pos.iter xO n k) = Zpos n * 2 ^ Zpos k.
Proof.
  induction k as [|k IH] using Pos.peano_ind.
  - simpl. lia.
  - rewrite Pos.iter_succ, Pos2Z.inj_succ, Z.pow_succ_r by lia.
    rewrite Pos2Z.inj_xO, IH. lia.
Qed.

Lemma round_normal s m e :
  digits2_pos m = 53%positive → -1074 <= e <= 971 →
  binary_round_aux 53 1024 s (Zpos m) e loc_Exact = S754_finite s m e.
Proof.
  intros Hd He. unfold binary_round_aux, shr_fexp, fexp, emin.
  cbn [Zdigits2]. rewrite Hd.
  replace (Z.max (53 + e - 53) (3 - 1024 - 53) - e) with 0 by lia.
  cbn [shr shr_record_of_loc shr_m loc_of_shr_record round_nearest_even Zdigits2].
  rewrite Hd.
  replace (Z.max (53 + e - 53) (3 - 1024 - 53) - e) with 0 by lia.
  cbn [shr shr_record_of_loc shr_m].
  replace (e <=? 1024 - 53) with true by (symmetry; apply Z.leb_le; lia).
  reflexivity.
Qed.

(** The mantissa and exponent of [float(n)] for [n] of at most 53 bits *)
Definition normal_of (n : positive) : positive * Z :=
  shl_align n 0 (Zpos (digits2_pos n) - 53).

Lemma normal_of_spec n :
  Zpos (digits2_pos n) <= 53 →
  digits2_pos (normal_of n).1 = 53%positive ∧
  -52 <= (normal_of n).2 <= 0 ∧
  Zpos (normal_of n).1 = Zpos n * 2 ^ (- (normal_of n).2).
Proof.
  intros Hd. unfold normal_of, shl_align.
  destruct (Zpos (digits2_pos n) - 53 - 0) as [|k|k] eqn:Hk; simpl fst; simpl snd.
  - split; [lia|]. split; [lia|]. simpl. lia.
  - lia.
  - rewrite digits_iter, value_iter. split; [lia|]. split; [lia|].
    f_equal. f_equal. lia.
Qed.

Lemma of_int_normal n :
  Zpos (digits2_pos n) <= 53 →
  PyFloat.of_int (Zpos n) = S754_finite false (normal_of n).1 (normal_of n).2.
Proof.
  intros Hd. destruct (normal_of_spec n Hd) as (Hdig & He & _).
  unfold PyFloat.of_int, PyFloat.prec, PyFloat.emax, binary_normalize, binary_round.
  change (fexp 53 1024 (Zpos (digits2_pos n) + 0))
    with (Z.max (Zpos (digits2_pos n) + 0 - 53) (-1074)).
  replace (Z.max (Zpos (digits2_pos n) + 0 - 53) (-1074))
    with (Zpos (digits2_pos n) - 53) by lia.
  fold (normal_of n). destruct (normal_of n) as [m e]. simpl in *.
  apply round_normal; [done|lia].
Qed.

Lemma div_eucl_shift m :
  Z.div_eucl (Z.shiftl (Zpos m) 53) 4503599627370496 = (Zpos m~0, 0).
Proof.
  rewrite Z.shiftl_mul_pow2 by lia.
  replace (Zpos m * 2 ^ 53) with (Zpos m~0 * 4503599627370496) by lia.
  rewrite (surjective_pairing (Z.div_eucl _ _)).
  change (Z.div_eucl ?a ?b).1 with (a / b).
  change (Z.div_eucl ?a ?b).2 with (a mod b).
  by rewrite Z_div_mult, Z_mod_mult by lia.
Qed.

Lemma div_mebi m e :
  digits2_pos m = 53%positive → -52 <= e <= 0 →
  SFdiv 53 1024 (S754_finite false m e) (S754_finite false 4503599627370496 (-32))
  = S754_finite false m (e - 20).
Proof.
  intros Hd He. unfold SFdiv, SFdiv_core_binary, fexp, emin.
  cbn [Zdigits2]. rewrite Hd.
  change (digits2_pos 4503599627370496) with 53%positive.
  replace (Z.min (Z.max (53 + e - (53 + -32) - 53) (3 - 1024 - 53)) (e - -32))
    with (e - 21) by lia.
  replace (e - -32 - (e - 21)) with 53 by lia.
  rewrite div_eucl_shift.
  change (new_location 4503599627370496 0) with loc_Exact.
  cbn [xorb].
  unfold binary_round_aux, shr_fexp, fexp, emin.
  cbn [Zdigits2].
  change (digits2_pos m~0) with (Pos.succ (digits2_pos m)). rewrite Hd.
  change (Z.pos (Pos.succ 53)) with 54.
  replace (Z.max (54 + (e - 21) - 53) (3 - 1024 - 53) - (e - 21)) with 1 by lia.
  cbn [shr SpecFloat.iter_pos shr_1 shr_record_of_loc orb shr_m loc_of_shr_record
       round_nearest_even Zdigits2].
  rewrite Hd.
  replace (Z.max (53 + (e - 21 + 1) - 53) (3 - 1024 - 53) - (e - 21 + 1)) with 0 by lia.
  cbn [shr shr_record_of_loc shr_m].
  replace (e - 21 + 1 <=? 1024 - 53) with true by (symmetry; apply Z.leb_le; lia).
  f_equal. lia.
Qed.

Lemma int_truediv_mebi n :
  Zpos (digits2_pos n) <= 53 →
  PyFloat.int_truediv (Zpos n) (1024 * 1024)
  = S754_finite false (normal_of n).1 ((normal_of n).2 - 20).
Proof.
  intros Hd. unfold PyFloat.int_truediv. rewrite (of_int_normal n Hd).
  unfold PyFloat.prec, PyFloat.emax.
  change (PyFloat.of_int (1024 * 1024)) with (S754_finite false 4503599627370496 (-32)).
  destruct (normal_of_spec n Hd) as (Hdig & He & _).
  by apply div_mebi.
Qed.

(** The rational a finite float stands for. *)
Definition SF2Q (f : spec_float) : option Q :=
  match f with
  | S754_zero _ => Some 0%Q
  | S754_finite s m (Zneg k) => Some (Qmake (cond_Zopp s (Zpos m)) (2 ^ k))
  | S754_finite s m e => Some (inject_Z (cond_Zopp s (Zpos m) * 2 ^ e))
  | _ => None
  end.

Lemma digits2_lower n : 2 ^ (Zpos (digits2_pos n) - 1) <= Zpos n.
Proof.
  induction n as [n IH|n IH|]; [| |simpl; lia];
    change (digits2_pos _) with (Pos.succ (digits2_pos n));
    rewrite Pos2Z.inj_succ;
    replace (Z.succ (Zpos (digits2_pos n)) - 1) with (Z.succ (Zpos (digits2_pos n) - 1)) by lia;
    rewrite Z.pow_succ_r by lia; lia.
Qed.

Lemma digits2_bound n : Zpos n < 2 ^ 53 → Zpos (digits2_pos n) <= 53.
Proof.
  intros Hn. pose proof (digits2_lower n) as Hl.
  destruct (Z.le_gt_cases (Zpos (digits2_pos n)) 53) as [|Hgt]; [done|].
  assert (2 ^ 53 <= 2 ^ (Zpos (digits2_pos n) - 1)) by (apply Z.pow_le_mono_r; lia).
  lia.
Qed.

Lemma int_truediv_exact (n : N) :
  (n < 2 ^ 53)%N →
  ∃ q, SF2Q (PyFloat.int_truediv (Z.of_N n) (1024 * 1024)) = Some q ∧
       Qeq q (Qmake (Z.of_N n) 1048576).
Proof.
  intros Hn. destruct n as [|n].
  - exists 0%Q. split; [reflexivity|]. reflexivity.
  - assert (Zpos (digits2_pos n) <= 53) as Hd by (apply digits2_bound; lia).
    simpl Z.of_N. rewrite (int_truediv_mebi n Hd).
    destruct (normal_of_spec n Hd) as (Hdig & He & Hv).
    destruct (normal_of n) as [m e]. simpl in *.
    destruct (e - 20) as [|k|k] eqn:Hk; [lia|lia|].
    eexists. split; [reflexivity|]. unfold Qeq. simpl Qnum. simpl Qden.
    rewrite Hv, Pos2Z.inj_pow.
    replace (Zpos k) with (20 + - e) by lia.
    rewrite Z.pow_add_r by lia. lia.
Qed.

End FloatFacts.

Lemma getsize_world X s w : (getsize X s w).2 = w.
Proof. unfold getsize. by repeat case_match. Qed.

Lemma getsize_Ret X s w b w' :
  getsize X s w = (Ret b, w') → ∃ n, b = x_stat_size X n.
Proof.
  unfold getsize. destruct (FS.resolve (w_cwd w) s) as [p|]; [|done].
  destruct (FS.lookup (w_fs w) p) as [n|]; [|done].
  intros [= <- _]. by exists n.
Qed.

Lemma create_archive_Ret_inv X self targets dump_file w file w' :
  _create_archive X self targets dump_file w = (Ret file, w') →
  ∃ bytes : N,
    getsize X (f_path file) w' = (Ret bytes, w') ∧
    size_mb file = PyFloat.int_truediv (Z.of_N bytes) (1024 * 1024).
Proof.
  unfold _create_archive.
  intros ([] & w1 & _ & H)%bind_Ret_inv.
  apply bind_Ret_inv in H as ([] & w2 & _ & H).
  apply bind_Ret_inv in H as ([] & w3 & _ & H).
  apply bind_Ret_inv in H as ([] & w4 & _ & H).
  apply bind_Ret_inv in H as (bytes & w5 & Hsize & H).
  injection H as <- <-. exists bytes. split; [|done].
  pose proof (getsize_world X (PyStr.join (_temp_dir self) (archive_name_at (x_now X))) w4)
    as Hw. rewrite Hsize in Hw. simpl in Hw. by subst.
Qed.

(** C6. When the archive stage returns an artifact, its [size_mb] is the
    byte size of the archive file, as the file system reports it after
    the stage, divided by 1024 * 1024 in float arithmetic; for every
    size below 2^53 bytes that quotient is exact: the float stands for
    the rational bytes / 1048576. *)
Theorem size_mb_is_bytes_over_mebibyte (X : Externals) (self : Backuper)
    (targets : list string) (dump_file : option string) (w : World)
    (file : File) (w' : World) :
  _create_archive X self targets dump_file w = (Ret file, w') →
  ∃ bytes : N,
    getsize X (f_path file) w' = (Ret bytes, w') ∧
    size_mb file = PyFloat.int_truediv (Z.of_N bytes) (1024 * 1024) ∧
    ((bytes < 2 ^ 53)%N →
     ∃ q, FloatFacts.SF2Q (size_mb file) = Some q ∧ Qeq q (Qmake (Z.of_N bytes) 1048576)).
Proof.
  intros (bytes & Hsize & Hmb)%create_archive_Ret_inv.
  exists bytes. split; [done|]. split; [done|].
  intros Hlt. rewrite Hmb. by apply FloatFacts.int_truediv_exact.
Qed.

(** The host once the temp directory is made. *)
Definition world_ready : World := (makedirs TEMP_DIR Scenario.world).2.

Definition archive_run : result File * World :=
  _create_archive Scenario.ext Scenario.backuper (targets Scenario.settings) None world_ready.

Definition archive_file : File :=
  match archive_run.1 with
  | Ret f => f
  | Raise _ => {| f_path := ""; f_name := ""; size_mb := S754_nan |}
  end.

Lemma archive_run_returns : archive_run = (Ret archive_file, archive_run.2).
Proof. apply returned_value. vm_compute. reflexivity. Qed.

Lemma size_mb_is_bytes_over_mebibyte_witness :
  ∃ q, FloatFacts.SF2Q (size_mb archive_file) = Some q ∧ Qeq q (Qmake 3145728 1048576).
Proof.
  destruct (size_mb_is_bytes_over_mebibyte Scenario.ext Scenario.backuper
              (targets Scenario.settings) None world_ready archive_file archive_run.2
              archive_run_returns) as (bytes & Hsize & _ & Hexact).
  destruct (getsize_Ret _ _ _ _ _ Hsize) as [n ->].
  apply Hexact. reflexivity.
Defined.


(** ** C10: where a target is looked up *)


(** [lstrip] removes the longest prefix made of the given characters. *)
Lemma lstrip_spec chars s :
  ∃ pre, s = pre +:+ PyStr.lstrip chars s ∧
         Forall (λ c, PyStr.mem c chars = true) (list_ascii_of_string pre) ∧
         ∀ c r, PyStr.lstrip chars s = String c r → PyStr.mem c chars = false.
Proof.
  induction s as [|a s (pre & Hs & Hpre & Hrest)].
  - exists "". by repeat split.
  - cbn [PyStr.lstrip]. destruct (PyStr.mem a chars) eqn:Ha.
    + exists (String a pre). rewrite PathFacts.app_cons, <- Hs. split; [done|].
      split; [by constructor|done].
    + exists "". split; [done|]. split; [constructor|]. by intros c r [= <- _].
Qed.




(** ** C7: overrides from the environment *)

(** The recognised variables and the setting each one overrides. *)
Definition get_endpoint (c : BackupConfig) : string := endpoint (s3 c).
Definition get_bucket_name (c : BackupConfig) : string := bucket_name (s3 c).
Definition get_region (c : BackupConfig) : string := region (s3 c).
Definition get_chat_id (c : BackupConfig) : string := chat_id (telegram c).
Definition get_container_name (c : BackupConfig) : string := container_name (database c).

Definition overrides : list (string * (BackupConfig → string)) :=
  [ ("S3_ENDPOINT", get_endpoint);
    ("S3_BUCKET_NAME", get_bucket_name);
    ("S3_REGION", get_region);
    ("TELEGRAM_CHAT_ID", get_chat_id);
    ("DB_HOST", get_container_name) ].

(** The claim as the specification words it: a variable that is present
    replaces the value from the file. *)
Definition override_replaces_when_present : Prop :=
  ∀ X w b w' name get v,
    Backuper__init__ X CONFIG_PATH TEMP_DIR MOUNT_ROOT w = (Ret b, w') →
    (name, get) ∈ overrides →
    w_env w !! name = Some v →
    get (_cfg b) = v.

(** The host with [S3_BUCKET_NAME] set to the empty string. *)
Definition world_empty_bucket : World := {|
  w_env := <[ "S3_BUCKET_NAME" := "" ]> (w_env Scenario.world);
  w_cwd := [];
  w_fs := Scenario.files;
  w_trace := []
|}.

(** C7, as stated, fails: a variable that is present but empty is
    skipped by the truthiness test, and the bucket of the file stays. *)
Lemma empty_override_is_ignored : ¬ override_replaces_when_present.
Proof.
  intros H.
  assert (Backuper__init__ Scenario.ext CONFIG_PATH TEMP_DIR MOUNT_ROOT world_empty_bucket
          = (Ret Scenario.backuper, world_empty_bucket)) as Hinit
    by (vm_compute; reflexivity).
  specialize (H Scenario.ext world_empty_bucket Scenario.backuper world_empty_bucket
                "S3_BUCKET_NAME" get_bucket_name "" Hinit).
  discriminate H.
  - by right; left.
  - reflexivity.
Qed.

Section Overrides.

Context (X : Externals).

(** The value in force for a setting: the variable when it is set to a
    non-empty string, the value of the file otherwise. *)
Definition effective (env : gmap string string) (name file_value : string) : string :=
  match env !! name with
  | Some v => if String.eqb v "" then file_value else v
  | None => file_value
  end.

(** What [env_override] makes of the settings. *)
Definition overridden (env : gmap string string) (name : string)
    (assign : string → BackupConfig → BackupConfig) (c : BackupConfig) : BackupConfig :=
  if PyStr.truthy (env !! name) then from_option (λ x, assign x c) c (env !! name) else c.

Lemma env_override_run name assign c w :
  env_override name assign c w = (Ret (overridden (w_env w) name assign c), w).
Proof.
  unfold env_override, overridden. rewrite bind_run. simpl.
  by destruct (PyStr.truthy (w_env w !! name)).
Qed.

Lemma overridden_same env name assign (get : BackupConfig → string) c :
  (∀ x c, get (assign x c) = x) →
  get (overridden env name assign c) = effective env name (get c).
Proof.
  intros Hget. unfold overridden, effective.
  destruct (env !! name) as [v|]; [|done]. simpl.
  destruct (String.eqb v ""); simpl; [done|apply Hget].
Qed.

Lemma overridden_other env name assign (get : BackupConfig → string) c :
  (∀ x c, get (assign x c) = get c) →
  get (overridden env name assign c) = get c.
Proof.
  intros Hget. unfold overridden.
  destruct (PyStr.truthy (env !! name)); [|done].
  destruct (env !! name); simpl; [apply Hget|done].
Qed.

Lemma read_text_world s w : (read_text s w).2 = w.
Proof. unfold read_text. by repeat case_match. Qed.

Lemma load_config_world s w cfg w' : _load_config X s w = (Ret cfg, w') → w' = w.
Proof.
  unfold _load_config. rewrite bind_run, path_exists_present.
  destruct (present (w_cwd w) (w_fs w) s); simpl; [|done].
  rewrite bind_run. pose proof (read_text_world s w) as Hw.
  destruct (read_text s w) as [[text|e] w0]; [|done]. simpl in Hw. subst w0.
  destruct (x_load_config X text); [done|]. by intros [= _ <-].
Qed.

(** The settings [__init__] ends with. *)
Lemma init_settings c t m w b w' :
  Backuper__init__ X c t m w = (Ret b, w') →
  ∃ cfg, _load_config X c w = (Ret cfg, w) ∧
    _cfg b =
      overridden (w_env w) "DB_HOST" set_container_name
        (overridden (w_env w) "TELEGRAM_CHAT_ID" set_chat_id
           (overridden (w_env w) "S3_REGION" set_region
              (overridden (w_env w) "S3_BUCKET_NAME" set_bucket_name
                 (overridden (w_env w) "S3_ENDPOINT" set_endpoint (backup cfg))))).
Proof.
  unfold Backuper__init__. intros (cfg & w0 & Hl & H)%bind_Ret_inv.
  apply load_config_world in Hl as Hw. subst w0. exists cfg. split; [done|].
  rewrite bind_run, env_override_run in H.
  rewrite bind_run, env_override_run in H.
  rewrite bind_run, env_override_run in H.
  rewrite bind_run, env_override_run in H.
  rewrite bind_run, env_override_run in H.
  unfold TelegramNotifier__init__ in H. rewrite !bind_run in H. simpl in H.
  by injection H as <- _.
Qed.

End Overrides.

Lemma uploads_app t u : uploads (t ++ u) = uploads t ++ uploads u.
Proof.
  unfold uploads. induction t as [|e t IH]; [done|].
  cbn [app]. rewrite !omap_cons_option_list, IH. by rewrite app_assoc.
Qed.

(** With uploads enabled and a client at hand, the upload stage makes
    one call, for the bucket of the settings it is given. *)
Lemma upload_targets_bucket X file s3_config w :
  s3_enabled s3_config = true →
  x_s3_client_error X (endpoint s3_config) (region s3_config) = None →
  uploads (w_trace (_upload_to_s3 X file s3_config w).2)
  = uploads (w_trace w) ++ [(bucket_name s3_config, f_name file)].
Proof.
  intros Hen Hcl.
  unfold _upload_to_s3, s3_client, s3_upload_file, try_except, print, emit,
    environ_get, sys_exit, raise, mbind, M_bind, mret, M_ret.
  rewrite Hen, Hcl. cbn [negb].
  destruct (x_s3_upload_error X _ _ _ _ _);
    cbn [fst snd w_trace with_trace is_Exception];
    rewrite !uploads_app; simpl; by rewrite ?app_nil_r, <- ?app_assoc.
Qed.

(** C7 (amended). Each recognised variable that is set to a non-empty
    string replaces the value of the file; a variable that is unset or
    empty leaves it.  The upload stage, run on the settings so made,
    addresses the bucket in force: the one of [S3_BUCKET_NAME] when
    that is set and not empty. *)
Theorem overrides_apply_when_nonempty (X : Externals) (w : World) (b : Backuper) (w' : World) :
  Backuper__init__ X CONFIG_PATH TEMP_DIR MOUNT_ROOT w = (Ret b, w') →
  ∃ cfg, _load_config X CONFIG_PATH w = (Ret cfg, w) ∧
    (∀ name get v, (name, get) ∈ overrides →
       w_env w !! name = Some v → v ≠ "" → get (_cfg b) = v) ∧
    (∀ name get, (name, get) ∈ overrides →
       w_env w !! name = None ∨ w_env w !! name = Some "" →
       get (_cfg b) = get (backup cfg)) ∧
    (∀ file w1 v,
       w_env w !! "S3_BUCKET_NAME" = Some v → v ≠ "" →
       s3_enabled (s3 (_cfg b)) = true →
       x_s3_client_error X (endpoint (s3 (_cfg b))) (region (s3 (_cfg b))) = None →
       uploads (w_trace (_upload_to_s3 X file (s3 (_cfg b)) w1).2)
       = uploads (w_trace w1) ++ [(v, f_name file)]).
Proof.
  intros (cfg & Hload & Hcfg)%init_settings. exists cfg. split; [done|].
  assert (∀ name get, (name, get) ∈ overrides →
            get (_cfg b) = effective (w_env w) name (get (backup cfg))) as Heff.
  { intros name get Hin. rewrite Hcfg. unfold overrides in Hin.
    repeat (apply elem_of_cons in Hin as [[= -> ->]|Hin]);
      [..|by apply elem_of_nil in Hin];
      repeat first [ rewrite overridden_same by done
                   | rewrite overridden_other by done ];
      reflexivity. }
  split; [|split].
  - intros name get v Hin Hv Hne. rewrite (Heff name get Hin). unfold effective.
    rewrite Hv. by apply String.eqb_neq in Hne as ->.
  - intros name get Hin Hv. rewrite (Heff name get Hin). unfold effective.
    by destruct Hv as [-> | ->].
  - intros file w1 v Hv Hne Hen Hcl. rewrite upload_targets_bucket by done.
    do 3 f_equal.
    change (bucket_name (s3 (_cfg b))) with (get_bucket_name (_cfg b)).
    rewrite (Heff "S3_BUCKET_NAME" get_bucket_name) by (by right; left).
    unfold effective. rewrite Hv. by apply String.eqb_neq in Hne as ->.
Qed.

Definition world_bucket_B : World := {|
  w_env := <[ "S3_BUCKET_NAME" := "B" ]> (w_env Scenario.world);
  w_cwd := [];
  w_fs := Scenario.files;
  w_trace := []
|}.

Definition backuper_B : Backuper :=
  match (Backuper__init__ Scenario.ext CONFIG_PATH TEMP_DIR MOUNT_ROOT world_bucket_B).1 with
  | Ret b => b
  | Raise _ => Scenario.backuper
  end.

Lemma init_bucket_B :
  Backuper__init__ Scenario.ext CONFIG_PATH TEMP_DIR MOUNT_ROOT world_bucket_B
  = (Ret backuper_B, world_bucket_B).
Proof. vm_compute. reflexivity. Qed.

Lemma overrides_apply_when_nonempty_witness :
  get_bucket_name (_cfg backuper_B) = "B" ∧
  uploads (w_trace (_upload_to_s3 Scenario.ext archive_file (s3 (_cfg backuper_B))
                      world_ready).2)
  = uploads (w_trace world_ready) ++ [("B", f_name archive_file)].
Proof.
  destruct (overrides_apply_when_nonempty Scenario.ext world_bucket_B backuper_B
              world_bucket_B init_bucket_B) as (cfg & _ & Hset & _ & Hup).
  split.
  - apply (Hset "S3_BUCKET_NAME" get_bucket_name "B"); [by right; left|reflexivity|done].
  - apply (Hup archive_file world_ready "B"); [reflexivity|done|reflexivity|reflexivity].
Defined.

(** ** C8: the notifier *)

Definition with_http_post_error (f : string → string → string → option string)
    (X : Externals) : Externals := {|
  x_now := x_now X; x_load_config := x_load_config X; x_subprocess := x_subprocess X;
  x_str_called_process_error := x_str_called_process_error X;
  x_tar_add_error := x_tar_add_error X; x_stat_size := x_stat_size X;
  x_s3_client_error := x_s3_client_error X; x_s3_upload_error := x_s3_upload_error X;
  x_http_post_error := f; x_format_2f := x_format_2f X
|}.

(** Two worlds that differ in their traces at most. *)
Definition same_but_trace (w1 w2 : World) : Prop :=
  w_env w1 = w_env w2 ∧ w_cwd w1 = w_cwd w2 ∧ w_fs w1 = w_fs w2.

(** [m] neither reads nor writes the trace. *)
Definition trace_free {A} (m : M A) : Prop :=
  ∀ w t, m (with_trace t w) = ((m w).1, with_trace t (m w).2).

Section Notifications.

Context (X : Externals).

Definition missing_token_warning : string :=
  "Warning: Telegram enabled in config, but TELEGRAM_BOT_TOKEN is missing.".

Definition bot_url (n : TelegramNotifier) : string :=
  "https://api.telegram.org/bot" +:+ PyStr.str_opt (_token n) +:+ "/sendMessage".

(** What [_send] leaves in the trace: the call, and one line that tells
    how it went. *)
Definition send_events (n : TelegramNotifier) (text : string) : list event :=
  [ HttpPost (bot_url n) (chat_id (_config n)) text "HTML";
    Stdout match x_http_post_error X (bot_url n) (chat_id (_config n)) text with
           | Some msg => "Telegram Error: Failed to send message. " +:+ msg
           | None => "Telegram: Notification sent."
           end ].

Lemma with_trace_trace w : with_trace (w_trace w) w = w.
Proof. by destruct w. Qed.

Lemma send_run n text w :
  _send X n text w = (Ret tt, with_trace (w_trace w ++ send_events n text) w).
Proof.
  unfold _send, requests_post, try_except, print, emit, raise, mbind, M_bind, mret, M_ret,
    send_events.
  fold (bot_url n). cbn [fst snd w_trace with_trace].
  destruct (x_http_post_error X (bot_url n) (chat_id (_config n)) text);
    cbn [is_Exception str_exn w_trace with_trace w_env w_cwd w_fs];
    by rewrite <- app_assoc.
Qed.

(** The lines and calls a notification adds to the trace. *)
Definition notify_events (n : TelegramNotifier) (text : string) : list event :=
  if negb (tg_enabled (_config n)) then []
  else if negb (PyStr.truthy (_token n)) then [Stdout missing_token_warning]
  else send_events n text.

Lemma send_error_run n msg w :
  send_error X n msg w
  = (Ret tt, with_trace (w_trace w ++ notify_events n (error_text msg)) w).
Proof.
  unfold send_error, _should_send, notify_events. rewrite bind_run.
  destruct (negb (tg_enabled (_config n))).
  { simpl. by rewrite app_nil_r, with_trace_trace. }
  destruct (negb (PyStr.truthy (_token n))); [done|].
  simpl. apply send_run.
Qed.

Lemma send_success_run n a sz w :
  send_success X n a sz w
  = (Ret tt, with_trace (w_trace w ++ notify_events n (success_message X a sz)) w).
Proof.
  unfold send_success, _should_send, notify_events. rewrite bind_run.
  destruct (negb (tg_enabled (_config n))).
  { simpl. by rewrite app_nil_r, with_trace_trace. }
  destruct (negb (PyStr.truthy (_token n))); [done|].
  simpl. apply send_run.
Qed.

End Notifications.

Section TraceFree.

Lemma trace_free_ret {A} (a : A) : trace_free (mret a).
Proof. by intros w t. Qed.

Lemma trace_free_bind {A B} (m : M A) (f : A → M B) :
  trace_free m → (∀ a, trace_free (f a)) → trace_free (m ≫= f).
Proof.
  intros Hm Hf w t. rewrite !bind_run, Hm.
  destruct (m w) as [[a|e] w1]; simpl; [apply Hf|done].
Qed.

Lemma trace_free_try_except {A} (m : M A) c h :
  trace_free m → (∀ e, trace_free (h e)) → trace_free (try_except m c h).
Proof.
  intros Hm Hh w t. unfold try_except. rewrite Hm.
  destruct (m w) as [[a|e] w1]; simpl; [done|].
  destruct (c e); [apply Hh|done].
Qed.

Lemma trace_free_for_each {A} (l : list A) body :
  (∀ x, trace_free (body x)) → trace_free (for_each l body).
Proof.
  intros Hb. induction l as [|x l IH]; simpl.
  - apply trace_free_ret.
  - by apply trace_free_bind.
Qed.

Lemma trace_free_path_exists s : trace_free (path_exists s).
Proof. by intros w t. Qed.

Lemma trace_free_listdir s : trace_free (listdir s).
Proof.
  intros w t. unfold listdir. cbn [w_cwd w_fs with_trace].
  by repeat case_match.
Qed.

Lemma trace_free_os_remove s : trace_free (os_remove s).
Proof.
  intros w t. unfold os_remove. cbn [w_cwd w_fs with_trace].
  by repeat case_match.
Qed.

Lemma trace_free_remove_temp_files self : trace_free (remove_temp_files self).
Proof.
  unfold remove_temp_files.
  apply trace_free_bind; [apply trace_free_path_exists|intros [|]];
    [|apply trace_free_ret].
  apply trace_free_bind; [apply trace_free_listdir|intros names].
  apply trace_free_for_each. intros f.
  apply trace_free_try_except; [apply trace_free_os_remove|].
  intros e. apply trace_free_ret.
Qed.

Lemma same_but_trace_eq w1 w2 :
  same_but_trace w1 w2 → w1 = with_trace (w_trace w1) w2.
Proof.
  destruct w1, w2. unfold same_but_trace, with_trace. simpl.
  by intros (-> & -> & ->).
Qed.

(** The cleanup step does the same to the files, and ends the same way,
    whatever the trace holds. *)
Lemma cleanup_same_but_trace self w1 w2 :
  same_but_trace w1 w2 →
  (_cleanup self w1).1 = (_cleanup self w2).1 ∧
  same_but_trace (_cleanup self w1).2 (_cleanup self w2).2.
Proof.
  intros ->%same_but_trace_eq. unfold _cleanup. rewrite !bind_run.
  cbn [print emit fst snd w_trace with_trace].
  pose proof (trace_free_remove_temp_files self w2) as Hfree.
  change (with_trace ?t (with_trace _ w2)) with (with_trace t w2).
  rewrite !Hfree. by split.
Qed.

End TraceFree.

Section Delivery.

Context (X : Externals) (f : string → string → string → option string).

(** The stages of [Run] before the notification. *)
Definition stages (Y : Externals) (self : Backuper) : M File :=
  makedirs (_temp_dir self) ;;
  dump_file_path ← _create_db_dump Y self (database (_cfg self)) ;
  archive_file ← _create_archive Y self (targets (_cfg self)) dump_file_path ;
  _upload_to_s3 Y archive_file (s3 (_cfg self)) ;;
  mret archive_file.

Lemma Run_try_stages Y self w :
  Run_try Y self w =
    (a ← stages Y self ; send_success Y (_notifier self) (f_name a) (size_mb a)) w.
Proof.
  unfold Run_try, stages. rewrite !bind_run.
  destruct (makedirs (_temp_dir self) w) as [[[]|e] w1]; [|done].
  rewrite !bind_run.
  destruct (_create_db_dump Y self (database (_cfg self)) w1) as [[d|e] w2]; [|done].
  rewrite !bind_run.
  destruct (_create_archive Y self (targets (_cfg self)) d w2) as [[a|e] w3]; [|done].
  rewrite !bind_run.
  by destruct (_upload_to_s3 Y a (s3 (_cfg self)) w3) as [[[]|e] w4].
Qed.

(** The stages do not ask how the chat API answers. *)
Lemma stages_http self : stages (with_http_post_error f X) self = stages X self.
Proof. reflexivity. Qed.

Lemma init_http c t m :
  Backuper__init__ (with_http_post_error f X) c t m = Backuper__init__ X c t m.
Proof. reflexivity. Qed.

Lemma Run_guarded_http self w :
  (Run_guarded (with_http_post_error f X) self w).1 = (Run_guarded X self w).1 ∧
  same_but_trace (Run_guarded (with_http_post_error f X) self w).2 (Run_guarded X self w).2.
Proof.
  unfold Run_guarded, try_except. rewrite !Run_try_stages, !bind_run, stages_http.
  destruct (stages X self w) as [[a|e] w1].
  - by rewrite !send_success_run.
  - destruct (is_Exception e); [|done].
    unfold Run_except. rewrite !bind_run. cbn [print emit fst snd].
    rewrite !bind_run, !send_error_run. done.
Qed.

Lemma Run_http self w :
  (Run (with_http_post_error f X) self w).1 = (Run X self w).1 ∧
  same_but_trace (Run (with_http_post_error f X) self w).2 (Run X self w).2.
Proof.
  rewrite !Run_unfold. unfold try_finally.
  destruct (Run_guarded_http self w) as [Hr Hw].
  destruct (Run_guarded (with_http_post_error f X) self w) as [r1 w1].
  destruct (Run_guarded X self w) as [r2 w2]. simpl in Hr, Hw. subst r2.
  destruct (cleanup_same_but_trace self w1 w2 Hw) as [Hc Hcw].
  destruct (_cleanup self w1) as [c1 w1'], (_cleanup self w2) as [c2 w2'].
  simpl in Hc, Hcw. subst c2. by destruct c1 as [[]|e].
Qed.

Lemma main_http w :
  (main (with_http_post_error f X) w).1 = (main X w).1 ∧
  same_but_trace (main (with_http_post_error f X) w).2 (main X w).2.
Proof.
  unfold main. rewrite !bind_run, init_http.
  destruct (Backuper__init__ X CONFIG_PATH TEMP_DIR MOUNT_ROOT w) as [[b|e] w1]; [|done].
  rewrite !bind_run. destruct (Run_http b w1) as [Hr Hw].
  destruct (Run (with_http_post_error f X) b w1) as [r1 w1'].
  destruct (Run X b w1) as [r2 w2']. simpl in Hr, Hw. subst r2.
  by destruct r1 as [[]|e].
Qed.

End Delivery.

(** C8. With [notification.enabled = false] the notifier does nothing at
    all.  With notifications enabled but no bot token in the
    environment it prints a warning and makes no call.  A call that
    fails is caught inside [_send], which returns normally after
    logging it; and whatever the chat API answers, [main] ends the same
    way -- same outcome, same exit status -- and leaves the same
    files. *)
Theorem notifier_never_changes_outcome :
  (∀ X n a sz msg w,
     tg_enabled (_config n) = false →
     send_success X n a sz w = (Ret tt, w) ∧ send_error X n msg w = (Ret tt, w)) ∧
  (∀ X cfg a sz msg w,
     tg_enabled cfg = true →
     w_env w !! "TELEGRAM_BOT_TOKEN" = None →
     (n ← TelegramNotifier__init__ cfg ; send_success X n a sz) w
       = (Ret tt, with_trace (w_trace w ++ [Stdout missing_token_warning]) w) ∧
     (n ← TelegramNotifier__init__ cfg ; send_error X n msg) w
       = (Ret tt, with_trace (w_trace w ++ [Stdout missing_token_warning]) w)) ∧
  (∀ X n text w err,
     x_http_post_error X (bot_url n) (chat_id (_config n)) text = Some err →
     _send X n text w =
       (Ret tt,
        with_trace (w_trace w ++
          [ HttpPost (bot_url n) (chat_id (_config n)) text "HTML";
            Stdout ("Telegram Error: Failed to send message. " +:+ err) ]) w)) ∧
  (∀ X f w,
     (main (with_http_post_error f X) w).1 = (main X w).1 ∧
     exit_status (main (with_http_post_error f X) w).1 = exit_status (main X w).1 ∧
     same_but_trace (main (with_http_post_error f X) w).2 (main X w).2).
Proof.
  split; [|split; [|split]].
  - intros X n a sz msg w Hoff.
    rewrite send_success_run, send_error_run. unfold notify_events. rewrite Hoff.
    simpl. by rewrite app_nil_r, with_trace_trace.
  - intros X cfg a sz msg w Hon Hno.
    unfold TelegramNotifier__init__, environ_get, mbind, M_bind, mret, M_ret.
    rewrite Hno, send_success_run, send_error_run. unfold notify_events.
    cbn [_config _token]. by rewrite Hon.
  - intros X n text w err Herr. rewrite send_run. unfold send_events. by rewrite Herr.
  - intros X f w. destruct (main_http X f w) as [Hr Hw]. by rewrite Hr.
Qed.

Lemma notifier_never_changes_outcome_witness :
  let silent := {| _config := {| tg_enabled := false; chat_id := "42" |};
                   _token := Some "tok" |} in
  send_error Scenario.ext silent "boom" Scenario.world = (Ret tt, Scenario.world) ∧
  _send (with_http_post_error (λ _ _ _, Some "timeout") Scenario.ext)
        (_notifier Scenario.backuper) "hello" Scenario.world
  = (Ret tt,
     with_trace
       [ HttpPost "https://api.telegram.org/bottok/sendMessage" "42" "hello" "HTML";
         Stdout "Telegram Error: Failed to send message. timeout" ] Scenario.world).
Proof.
  intros silent.
  destruct notifier_never_changes_outcome as (Hoff & _ & Hfail & _).
  split.
  - apply (Hoff Scenario.ext silent "a" S754_nan "boom" Scenario.world eq_refl).
  - apply (Hfail (with_http_post_error (λ _ _ _, Some "timeout") Scenario.ext)
             (_notifier Scenario.backuper) "hello" Scenario.world "timeout" eq_refl).
Defined.

(** * Further properties of the code *)

(** ** What [Run] reports *)

Lemma posts_app t u : posts (t ++ u) = posts t ++ posts u.
Proof.
  unfold posts. induction t as [|e t IH]; [done|].
  cbn [app]. rewrite !omap_cons_option_list, IH. by rewrite app_assoc.
Qed.

(** A notification posts its text when the notifier is enabled and has
    a non-empty token, and nothing otherwise; it never uploads. *)
Definition armed (n : TelegramNotifier) : bool :=
  tg_enabled (_config n) && PyStr.truthy (_token n).

Lemma posts_notify_events X n text :
  posts (notify_events X n text) = if armed n then [text] else [].
Proof.
  unfold notify_events, armed. destruct (tg_enabled (_config n)); [|done].
  by destruct (PyStr.truthy (_token n)).
Qed.

Lemma uploads_notify_events X n text : uploads (notify_events X n text) = [].
Proof.
  unfold notify_events. destruct (tg_enabled (_config n)); [|done].
  by destruct (PyStr.truthy (_token n)).
Qed.

Section Reporting.

Context (X : Externals).

(** [Run] before its [finally]: an ordinary exception of the [try]
    block is printed and handed to the notifier, and the handler exits;
    everything else passes through. *)
Lemma Run_guarded_run self w :
  Run_guarded X self w =
    match Run_try X self w with
    | (Raise (PyExc cls msg), w1) =>
        (Raise (SystemExit 1),
         with_trace (w_trace w1 ++ Stdout ("CRITICAL ERROR: " +:+ msg)
                       :: notify_events X (_notifier self) (error_text msg)) w1)
    | rw => rw
    end.
Proof.
  unfold Run_guarded, try_except.
  destruct (Run_try X self w) as [[[]|[cls msg|code]] w1]; [done| |done].
  cbn [is_Exception]. unfold Run_except. rewrite bind_run.
  cbn [print emit fst snd str_exn]. rewrite bind_run, send_error_run.
  cbn [sys_exit raise w_trace with_trace]. f_equal.
  unfold with_trace. cbn. by rewrite <- app_assoc.
Qed.

Lemma Run_trace self w :
  w_trace (Run X self w).2 = w_trace (Run_guarded X self w).2 ++ [Stdout cleanup_banner].
Proof. by rewrite Run_unfold, try_finally_world, cleanup_trace. Qed.

(** A [try] block that raised leaves [Run] with exit status 1. *)
Lemma Run_failed_status self w e w1 :
  Run_try X self w = (Raise e, w1) → exit_status (Run X self w).1 = 1%Z.
Proof.
  intros Ht. pose proof (raises_Run X self w) as Hf.
  destruct (Run X self w).1 as [[]|e'] eqn:Hr.
  - apply Run_Ret_iff in Hr as [w' Hr]. congruence.
  - by apply fatal_exn_status, Hf.
Qed.

End Reporting.

(** X1. Every ordinary exception that leaves the [try] block of [Run]
    -- whatever stage raised it -- is reported: [Run] prints the
    [CRITICAL ERROR] line with the text of the exception, hands that
    text to the notifier, runs the cleanup step and ends with exit
    status 1.  When the notifier is enabled and has a non-empty token,
    exactly one message goes out, and it carries the text. *)
Theorem failure_is_reported (X : Externals) (self : Backuper) (w : World)
    (cls : exc_class) (msg : string) (w1 : World) :
  Run_try X self w = (Raise (PyExc cls msg), w1) →
  w_trace (Run X self w).2 =
    w_trace w1 ++ Stdout ("CRITICAL ERROR: " +:+ msg)
      :: notify_events X (_notifier self) (error_text msg) ++ [Stdout cleanup_banner] ∧
  posts (w_trace (Run X self w).2) =
    posts (w_trace w1) ++ (if armed (_notifier self) then [error_text msg] else []) ∧
  exit_status (Run X self w).1 = 1%Z.
Proof.
  intros Ht.
  assert (w_trace (Run X self w).2 =
    w_trace w1 ++ Stdout ("CRITICAL ERROR: " +:+ msg)
      :: notify_events X (_notifier self) (error_text msg) ++ [Stdout cleanup_banner]) as Htr.
  { rewrite Run_trace, Run_guarded_run, Ht. cbn [snd w_trace with_trace].
    by rewrite <- app_assoc. }
  split; [done|]. split; [|by eapply Run_failed_status].
  rewrite Htr, posts_app. f_equal.
  change (posts (?e :: ?l)) with (posts l).
  by rewrite posts_app, posts_notify_events, app_nil_r.
Qed.

Lemma failure_is_reported_witness :
  let X := Scenario.with_tar_add_error (λ _, Some disk_full) Scenario.ext in
  posts (w_trace (Run X Scenario.backuper Scenario.world).2) = [error_text disk_full] ∧
  exit_status (Run X Scenario.backuper Scenario.world).1 = 1%Z.
Proof.
  intros X.
  destruct (failure_is_reported X Scenario.backuper Scenario.world OSError disk_full
              (Run_try X Scenario.backuper Scenario.world).2) as (_ & Hp & Hs).
  - apply ended_with. vm_compute. reflexivity.
  - split; [|exact Hs]. rewrite Hp. vm_compute. reflexivity.
Defined.

(** X2. A [SystemExit] that leaves the [try] block of [Run] is not an
    [Exception]: the handler is skipped, so between the stage and the
    end of [Run] the only output is the banner of the cleanup step, no
    message is sent, and the exit status is 1. *)
Theorem stage_exit_leaves_no_report (X : Externals) (self : Backuper) (w : World)
    (code : Z) (w1 : World) :
  Run_try X self w = (Raise (SystemExit code), w1) →
  w_trace (Run X self w).2 = w_trace w1 ++ [Stdout cleanup_banner] ∧
  posts (w_trace (Run X self w).2) = posts (w_trace w1) ∧
  exit_status (Run X self w).1 = 1%Z.
Proof.
  intros Ht.
  assert (w_trace (Run X self w).2 = w_trace w1 ++ [Stdout cleanup_banner]) as Htr.
  { by rewrite Run_trace, Run_guarded_run, Ht. }
  split; [done|]. split; [|by eapply Run_failed_status].
  by rewrite Htr, posts_app, app_nil_r.
Qed.

Lemma stage_exit_leaves_no_report_witness :
  let X := Scenario.with_s3_upload_error (λ _ _ _ _ _, Some "AccessDenied") Scenario.ext in
  posts (w_trace (Run X Scenario.backuper Scenario.world).2) = [] ∧
  exit_status (Run X Scenario.backuper Scenario.world).1 = 1%Z.
Proof.
  intros X.
  destruct (stage_exit_leaves_no_report X Scenario.backuper Scenario.world 1
              (Run_try X Scenario.backuper Scenario.world).2) as (_ & Hp & Hs).
  - apply ended_with. vm_compute. reflexivity.
  - split; [|exact Hs]. rewrite Hp. vm_compute. reflexivity.
Defined.

(** ** What a run sends *)

(** Output and commands: the events of the stages before the upload. *)
Definition local_event (e : event) : bool :=
  match e with
  | Stdout _ | Subprocess _ => true
  | _ => false
  end.

Section LocalStages.

Context (X : Externals) (Q : event → Prop) (I : World → Prop).
Hypothesis HI : invariant Q I.
Hypothesis HQ : ∀ e, local_event e = true → Q e.

Ltac loc :=
  repeat first
    [ apply preserves_ret | apply preserves_raise | apply preserves_sys_exit
    | apply preserves_get_world | apply preserves_environ_get
    | apply (preserves_fs_call Q I HI);
        first [ apply fs_call_path_exists | apply fs_call_read_text
              | apply fs_call_listdir | apply fs_call_getsize
              | apply fs_call_makedirs | apply fs_call_create_file
              | apply fs_call_os_remove | apply fs_call_tar_add ]
    | apply (preserves_event Q I HI); apply HQ; reflexivity
    | apply preserves_bind; [|intros ?]
    | apply preserves_try_except; [|intros ?]
    | apply preserves_try_finally
    | apply preserves_for_each; intros ?
    | match goal with
      | |- preserves _ (if ?b then _ else _) => destruct b
      | |- preserves _ (match ?x with _ => _ end) => destruct x
      end ].

Lemma local_makedirs s : preserves I (makedirs s).
Proof. loc. Qed.

Lemma local__create_db_dump self db : preserves I (_create_db_dump X self db).
Proof. unfold _create_db_dump, run_to_file, print. loc. Qed.

Lemma local__create_archive self ts d : preserves I (_create_archive X self ts d).
Proof. unfold _create_archive, add_target, print, tar_open. loc. Qed.

Lemma local__cleanup self : preserves I (_cleanup self).
Proof. unfold _cleanup, remove_temp_files, print. loc. Qed.

End LocalStages.

(** The upload calls and the messages of a trace stay as they are
    under every event that is neither. *)
Lemma invariant_sent u p :
  invariant (λ e, uploads [e] = [] ∧ posts [e] = [])
            (λ w, uploads (w_trace w) = u ∧ posts (w_trace w) = p).
Proof.
  split; [done|]. intros w e [Hu Hp] [Hwu Hwp]. simpl.
  by rewrite uploads_app, posts_app, Hu, Hp, Hwu, Hwp, !app_nil_r.
Qed.

Lemma local_event_sends_nothing e :
  local_event e = true → uploads [e] = [] ∧ posts [e] = [].
Proof. by destruct e. Qed.

(** The upload stage calls [upload_file] when uploads are enabled and
    the client could be made. *)
Definition upload_called (X : Externals) (c : S3Config) : bool :=
  s3_enabled c &&
  match x_s3_client_error X (endpoint c) (region c) with
  | None => true
  | Some _ => false
  end.

Section Sent.

Context (X : Externals).

Lemma upload_sent file c w :
  uploads (w_trace (_upload_to_s3 X file c w).2) =
    uploads (w_trace w) ++
    (if upload_called X c then [(bucket_name c, f_name file)] else []) ∧
  posts (w_trace (_upload_to_s3 X file c w).2) = posts (w_trace w) ∧
  ((_upload_to_s3 X file c w).1 = Ret tt → s3_enabled c = true →
   upload_called X c = true).
Proof.
  unfold _upload_to_s3, upload_called, s3_client, s3_upload_file, try_except, print, emit,
    environ_get, sys_exit, raise, mbind, M_bind, mret, M_ret.
  destruct (s3_enabled c); cbn [negb andb fst snd w_trace with_trace].
  - destruct (x_s3_client_error X (endpoint c) (region c));
      cbn [fst snd w_trace with_trace].
    + rewrite uploads_app, posts_app. simpl. by rewrite !app_nil_r.
    + destruct (x_s3_upload_error X _ _ _ _ _);
        cbn [fst snd w_trace with_trace is_Exception];
        rewrite !uploads_app, !posts_app; simpl;
        by rewrite ?app_nil_r, <- ?app_assoc.
  - rewrite !uploads_app, !posts_app. simpl. by rewrite !app_nil_r.
Qed.

Lemma create_archive_name self ts d w file w' :
  _create_archive X self ts d w = (Ret file, w') →
  f_name file = archive_name_at (x_now X) ∧
  f_path file = PyStr.join (_temp_dir self) (f_name file).
Proof.
  unfold _create_archive.
  intros ([] & w1 & _ & H)%bind_Ret_inv.
  apply bind_Ret_inv in H as ([] & w2 & _ & H).
  apply bind_Ret_inv in H as ([] & w3 & _ & H).
  apply bind_Ret_inv in H as ([] & w4 & _ & H).
  apply bind_Ret_inv in H as (bytes & w5 & _ & H).
  by injection H as <- <-.
Qed.

(** What the [try] block of [Run] sends: at most one upload call, and
    the success message once every stage has returned. *)
Lemma Run_try_sent self w :
  ∃ u p,
    uploads (w_trace (Run_try X self w).2) = uploads (w_trace w) ++ u ∧
    posts (w_trace (Run_try X self w).2) = posts (w_trace w) ++ p ∧
    (u = [] ∨
     u = [(bucket_name (s3 (_cfg self)), archive_name_at (x_now X))] ∧
     s3_enabled (s3 (_cfg self)) = true) ∧
    match (Run_try X self w).1 with
    | Ret _ =>
        (s3_enabled (s3 (_cfg self)) = true → u ≠ []) ∧
        ∃ sz, p = if armed (_notifier self)
                  then [success_message X (archive_name_at (x_now X)) sz] else []
    | Raise _ => p = []
    end.
Proof.
  set (J := λ w', uploads (w_trace w') = uploads (w_trace w) ∧
                  posts (w_trace w') = posts (w_trace w)).
  assert (invariant (λ e, uploads [e] = [] ∧ posts [e] = []) J) as HJ
    by apply invariant_sent.
  assert (∀ w', J w' → ∃ u p,
            uploads (w_trace w') = uploads (w_trace w) ++ u ∧
            posts (w_trace w') = posts (w_trace w) ++ p ∧
            (u = [] ∨
             u = [(bucket_name (s3 (_cfg self)), archive_name_at (x_now X))] ∧
             s3_enabled (s3 (_cfg self)) = true) ∧ p = []) as Hnone.
  { intros w' [Hu Hp]. exists [], []. rewrite !app_nil_r. by repeat split; [..|left]. }
  unfold Run_try. rewrite bind_run.
  pose proof (local_makedirs _ _ HJ (_temp_dir self) w (conj eq_refl eq_refl)) as H1.
  destruct (makedirs (_temp_dir self) w) as [[[]|e] w1]; [|by apply Hnone].
  rewrite bind_run.
  pose proof (local__create_db_dump X _ _ HJ local_event_sends_nothing self
                (database (_cfg self)) w1 H1) as H2.
  destruct (_create_db_dump X self (database (_cfg self)) w1) as [[d|e] w2];
    [|by apply Hnone].
  rewrite bind_run.
  pose proof (local__create_archive X _ _ HJ local_event_sends_nothing self
                (targets (_cfg self)) d w2 H2) as H3.
  destruct (_create_archive X self (targets (_cfg self)) d w2) as [[a|e] w3] eqn:Ha;
    [|by apply Hnone].
  apply create_archive_name in Ha as [Hname _].
  rewrite bind_run. cbn [fst snd] in H3. destruct H3 as [Hu3 Hp3].
  destruct (upload_sent a (s3 (_cfg self)) w3) as (Hu4 & Hp4 & Hret).
  rewrite Hu3, Hname in Hu4. rewrite Hp3 in Hp4.
  set (u := if upload_called X (s3 (_cfg self))
            then [(bucket_name (s3 (_cfg self)), archive_name_at (x_now X))] else []) in *.
  assert (u = [] ∨
          u = [(bucket_name (s3 (_cfg self)), archive_name_at (x_now X))] ∧
          s3_enabled (s3 (_cfg self)) = true) as Hcases.
  { unfold u, upload_called. destruct (s3_enabled (s3 (_cfg self))); [|by left].
    simpl. destruct (x_s3_client_error X _ _); [by left|by right]. }
  destruct (_upload_to_s3 X a (s3 (_cfg self)) w3) as [[[]|e] w4].
  - rewrite send_success_run. cbn [fst snd w_trace with_trace] in *.
    exists u, (if armed (_notifier self)
               then [success_message X (archive_name_at (x_now X)) (size_mb a)] else []).
    rewrite uploads_app, posts_app, uploads_notify_events, posts_notify_events,
      app_nil_r, Hu4, Hp4, Hname.
    repeat split; [done|..].
    + intros Hen. unfold u. by rewrite (Hret eq_refl Hen).
    + by exists (size_mb a).
  - cbn [fst snd] in *. exists u, []. by rewrite app_nil_r.
Qed.

End Sent.

(** X3. A run makes at most one upload call and sends at most one
    message, on every path and whatever the outside world answers.  The
    call, if made, is for the configured bucket and the name of the
    archive, and is made only with uploads enabled; a run that returns
    with uploads enabled has made it.  The message is the success
    message only if [Run] returns, and a failure message only if it
    ends with exit status 1; a notifier that is disabled or has no
    token sends none. *)
Theorem one_upload_one_message (X : Externals) (self : Backuper) (w : World) :
  ∃ u p,
    uploads (w_trace (Run X self w).2) = uploads (w_trace w) ++ u ∧
    posts (w_trace (Run X self w).2) = posts (w_trace w) ++ p ∧
    (u = [] ∨
     u = [(bucket_name (s3 (_cfg self)), archive_name_at (x_now X))] ∧
     s3_enabled (s3 (_cfg self)) = true) ∧
    ((Run X self w).1 = Ret tt → s3_enabled (s3 (_cfg self)) = true → u ≠ []) ∧
    (p = [] ∨
     (∃ sz, p = [success_message X (archive_name_at (x_now X)) sz]) ∧
       (Run X self w).1 = Ret tt ∨
     (∃ msg, p = [error_text msg]) ∧ exit_status (Run X self w).1 = 1%Z) ∧
    (armed (_notifier self) = false → p = []).
Proof.
  destruct (Run_try_sent X self w) as (u & p & Hu & Hp & Hcases & Hend).
  pose proof (Run_trace X self w) as Htr. rewrite Run_guarded_run in Htr.
  pose proof (Run_Ret_iff X self w) as Hret.
  destruct (Run_try X self w) as [[[]|[cls msg|code]] w1] eqn:Ht;
    cbn [fst snd w_trace with_trace] in *.
  - destruct Hend as [Hup [sz Hsz]]. exists u, p.
    rewrite Htr, uploads_app, posts_app, Hu, Hp, !app_nil_r.
    assert ((Run X self w).1 = Ret tt) as Hr by (apply Hret; by eexists).
    split_and!; [done|done|done|done|..].
    + destruct (armed (_notifier self)); [|by left]. right; left. split; [by exists sz|done].
    + intros Hoff. by rewrite Hoff in Hsz.
  - subst p. rewrite app_nil_r in Hp.
    exists u, (if armed (_notifier self) then [error_text msg] else []).
    rewrite Htr, !uploads_app, !posts_app, Hu, Hp.
    change (uploads (?e :: ?l)) with (uploads l).
    change (posts (Stdout ?s :: ?l)) with (posts l).
    rewrite uploads_notify_events, posts_notify_events, ?app_nil_r.
    split_and!; [done|done|done|..].
    + intros Hr. apply Hret in Hr as [w' Hr]. congruence.
    + destruct (armed (_notifier self)); [|by left]. right; right.
      split; [by exists msg|]. by eapply Run_failed_status.
    + by intros ->.
  - subst p. exists u, [].
    rewrite Htr, uploads_app, posts_app, Hu, Hp, !app_nil_r.
    split_and!; [done|done|done|..|by left|done].
    intros Hr. apply Hret in Hr as [w' Hr]. congruence.
Qed.

(** ** What a run leaves alone *)

Section Untouched.

Context (X : Externals).

Lemma local__load_config Q I s :
  invariant Q I → (∀ e, local_event e = true → Q e) → preserves I (_load_config X s).
Proof.
  intros HI HQ. unfold _load_config.
  apply preserves_bind; [apply (preserves_fs_call Q I HI), fs_call_path_exists|intros [|]];
    simpl.
  - apply preserves_bind; [apply (preserves_fs_call Q I HI), fs_call_read_text|intros t].
    destruct (x_load_config X t); [apply preserves_raise|apply preserves_ret].
  - apply preserves_bind; [|intros _; apply preserves_sys_exit].
    by apply (preserves_event Q I HI), HQ.
Qed.

Lemma env_override_world name assign c w : (env_override name assign c w).2 = w.
Proof. by rewrite env_override_run. Qed.

Lemma preserves_main Q I :
  invariant Q I → (∀ e, local_event e = true → Q e) →
  (∀ self, preserves I (Run_guarded X self)) → preserves I (main X).
Proof.
  intros HI HQ HR. unfold main, Backuper__init__.
  apply preserves_bind.
  - apply preserves_bind; [by apply (local__load_config Q I)|intros cfg].
    do 5 (apply preserves_bind;
          [intros w Hw; by rewrite env_override_world|intros ?]).
    apply preserves_bind; [|intros ?; apply preserves_ret].
    unfold TelegramNotifier__init__.
    apply preserves_bind; [apply preserves_environ_get|intros ?; apply preserves_ret].
  - intros b. apply preserves_bind.
    + intros w Hw. rewrite Run_unfold, try_finally_world.
      apply (local__cleanup Q I HI HQ). by apply HR.
    + intros _. by apply (preserves_event Q I HI), HQ.
Qed.

End Untouched.

(** X4. The program never removes a directory and never puts a file in
    the place of one: every directory that exists when [main] starts --
    in the mounted tree, in the temp directory, anywhere -- is still a
    directory when [main] is over, however the run ends. *)
Theorem directories_survive (X : Externals) (w : World) (p : path) :
  FS.lookup (w_fs w) p = Some Dir →
  FS.lookup (w_fs (main X w).2) p = Some Dir.
Proof.
  apply (preserves_main X _ _ (Tree.invariant_dir p) (λ _ _, I)).
  intros self. apply (preserves_Run_guarded X _ _ self (Tree.invariant_dir p) (λ _ _, I)).
Qed.

Lemma directories_survive_witness :
  FS.lookup (w_fs (main Scenario.ext Scenario.world_sub).2) ["tmp"; "backup"; "sub"]
  = Some Dir.
Proof. apply (directories_survive Scenario.ext Scenario.world_sub). reflexivity. Defined.

(** ** What the cleanup step removes *)

(** What the cleanup step makes of an entry directly inside the temp
    directory: a regular file goes, anything else stays. *)
Definition sweep (o : option node) : option node :=
  match o with
  | Some (Reg _) => None
  | _ => o
  end.

(** The files after the cleanup step, entry by entry. *)
Definition swept (tp : path) (fs : gmap path node) (k : path) : option node :=
  match FS.child_of tp k with
  | Some _ => sweep (fs !! k)
  | None => fs !! k
  end.

Section Sweep.
Import PathFacts Tree.

Lemma remove_entry_same tp fs n :
  remove_entry tp fs n !! (tp ++ [n]) = sweep (fs !! (tp ++ [n])).
Proof.
  unfold remove_entry. destruct (fs !! (tp ++ [n])) as [[|d]|] eqn:E; simpl; [done| |done].
  apply lookup_delete_eq.
Qed.

Lemma remove_entry_other tp fs n k :
  k ≠ tp ++ [n] → remove_entry tp fs n !! k = fs !! k.
Proof.
  intros Hk. unfold remove_entry. destruct (fs !! (tp ++ [n])) as [[|d]|]; [done| |done].
  by rewrite lookup_delete_ne.
Qed.

Lemma remove_all_other tp names fs k :
  (∀ n, n ∈ names → k ≠ tp ++ [n]) →
  foldl (remove_entry tp) fs names !! k = fs !! k.
Proof.
  revert fs. induction names as [|n names IH]; intros fs Hk; simpl; [done|].
  rewrite IH by (intros m Hm; apply Hk; by right).
  apply remove_entry_other, Hk. by left.
Qed.

Lemma sweep_idemp o : sweep (sweep o) = sweep o.
Proof. by destruct o as [[|d]|]. Qed.

Lemma remove_all_same tp names fs n :
  n ∈ names →
  foldl (remove_entry tp) fs names !! (tp ++ [n]) = sweep (fs !! (tp ++ [n])).
Proof.
  revert fs. induction names as [|m names IH]; intros fs Hn; simpl.
  { by apply elem_of_nil in Hn. }
  destruct (decide (n ∈ names)) as [Hin|Hout].
  - rewrite IH by done. destruct (decide (m = n)) as [->|Hne].
    + by rewrite remove_entry_same, sweep_idemp.
    + rewrite remove_entry_other; [done|]. by intros [_ [=]]%app_inj_tail.
  - apply elem_of_cons in Hn as [->|Hn]; [|done].
    rewrite remove_all_other.
    + apply remove_entry_same.
    + intros n' Hn' [_ [= ->]]%app_inj_tail. done.
Qed.

(** The cleanup step on a temp directory that is a directory, in a
    well-formed tree. *)
Lemma cleanup_sweeps self w tp :
  wf_world w → FS.resolve (w_cwd w) (_temp_dir self) = Some tp →
  FS.lookup (w_fs w) tp = Some Dir →
  ∃ fs', _cleanup self w =
           (Ret tt, with_fs fs' (with_trace (w_trace w ++ [Stdout cleanup_banner]) w)) ∧
         ∀ k, fs' !! k = swept tp (w_fs w) k.
Proof.
  intros [Hcwd Hwf] Htd Htp.
  unfold _cleanup, remove_temp_files, path_exists, listdir.
  rewrite bind_run. cbn [print emit fst snd]. rewrite bind_run.
  cbn [w_cwd w_fs with_trace]. rewrite Htd, Htp. rewrite bind_run.
  cbn [w_cwd w_fs with_trace]. rewrite Htd, Htp.
  rewrite (remove_loop _ tp) by first
    [ done
    | apply Forall_forall; intros m [v Hv]%elem_of_children;
      destruct (Hwf _ _ Hv) as [Hpl _];
      by apply Forall_app in Hpl as [_ [? _]%Forall_cons] ].
  eexists. split; [reflexivity|]. cbn [w_fs with_trace]. intros k. unfold swept.
  destruct (FS.child_of tp k) as [n|] eqn:Hc.
  - apply child_of_spec in Hc as ->.
    destruct (w_fs w !! (tp ++ [n])) as [v|] eqn:Hv.
    + rewrite remove_all_same, Hv; [done|]. apply elem_of_children. by exists v.
    + rewrite remove_all_other, Hv; [done|].
      intros m [v Hm]%elem_of_children [_ [= ->]]%app_inj_tail. congruence.
  - apply remove_all_other. intros n _ ->.
    by rewrite (proj2 (child_of_spec tp (tp ++ [n]) n) eq_refl) in Hc.
Qed.

(** The cleanup step on a temp directory that does not exist, and on
    one whose path is taken by a regular file. *)
Lemma cleanup_absent self w tp :
  FS.resolve (w_cwd w) (_temp_dir self) = Some tp → FS.lookup (w_fs w) tp = None →
  _cleanup self w = (Ret tt, with_trace (w_trace w ++ [Stdout cleanup_banner]) w).
Proof.
  intros Htd Htp. unfold _cleanup, remove_temp_files, path_exists.
  rewrite bind_run. cbn [print emit fst snd]. rewrite bind_run.
  cbn [w_cwd w_fs with_trace]. by rewrite Htd, Htp.
Qed.

Lemma cleanup_on_file self w tp d :
  FS.resolve (w_cwd w) (_temp_dir self) = Some tp → FS.lookup (w_fs w) tp = Some (Reg d) →
  _cleanup self w =
    (Raise (PyExc OSError (ENOTDIR +:+ ": " +:+ PyStr.repr (_temp_dir self))),
     with_trace (w_trace w ++ [Stdout cleanup_banner]) w).
Proof.
  intros Htd Htp. unfold _cleanup, remove_temp_files, path_exists, listdir.
  rewrite bind_run. cbn [print emit fst snd]. rewrite bind_run.
  cbn [w_cwd w_fs with_trace]. rewrite Htd, Htp. rewrite bind_run.
  cbn [w_cwd w_fs with_trace]. by rewrite Htd, Htp.
Qed.

End Sweep.

(** X5. The cleanup step, case by case.  It always prints its banner.
    When the temp directory does not exist it does nothing more.  When
    the path of the temp directory is taken by a regular file,
    [os.listdir] raises, and that exception leaves [_cleanup] (and with
    it the [finally] block of [Run]).  When it is a directory, in a
    well-formed tree, the step returns and the files afterwards are
    those before, minus every regular file directly inside the temp
    directory: directories inside it, their contents, and everything
    outside stay. *)
Theorem cleanup_by_cases (self : Backuper) (w : World) (tp : path) :
  FS.resolve (w_cwd w) (_temp_dir self) = Some tp →
  let w0 := with_trace (w_trace w ++ [Stdout cleanup_banner]) w in
  match FS.lookup (w_fs w) tp with
  | None => _cleanup self w = (Ret tt, w0)
  | Some (Reg _) =>
      _cleanup self w =
        (Raise (PyExc OSError (ENOTDIR +:+ ": " +:+ PyStr.repr (_temp_dir self))), w0)
  | Some Dir =>
      Tree.wf_world w →
      ∃ fs', _cleanup self w = (Ret tt, with_fs fs' w0) ∧
             ∀ k, fs' !! k = swept tp (w_fs w) k
  end.
Proof.
  intros Htd w0. destruct (FS.lookup (w_fs w) tp) as [[|d]|] eqn:Htp.
  - intros Hwf. by apply cleanup_sweeps.
  - by apply (cleanup_on_file self w tp d).
  - by apply (cleanup_absent self w tp).
Qed.

(** The host after the dump stage: the dump file is in the temp
    directory. *)
Definition world_dumped : World :=
  (_create_db_dump Scenario.ext Scenario.backuper (database Scenario.settings)
     Scenario.world).2.

Lemma world_dumped_wf : Tree.wf_world world_dumped.
Proof. split; [constructor|]. apply wf_fsb_sound. by vm_compute. Qed.

Lemma cleanup_by_cases_witness :
  ∃ fs', (_cleanup Scenario.backuper world_dumped).1 = Ret tt ∧
         w_fs (_cleanup Scenario.backuper world_dumped).2 = fs' ∧
         w_fs world_dumped !! ["tmp"; "backup"; "dump.sql"] = Some (Reg (Text "-- dump")) ∧
         fs' !! ["tmp"; "backup"; "dump.sql"] = None ∧
         fs' !! ["host_data"; "env"] = Some (Reg (Text "SECRET=1")).
Proof.
  pose proof (cleanup_by_cases Scenario.backuper world_dumped ["tmp"; "backup"] eq_refl)
    as H.
  cbv zeta in H.
  assert (FS.lookup (w_fs world_dumped) ["tmp"; "backup"] = Some Dir) as Hd
    by (vm_compute; reflexivity).
  rewrite Hd in H. destruct (H world_dumped_wf) as (fs' & Hrun & Hk).
  exists fs'. rewrite Hrun, !Hk. repeat split; vm_compute; reflexivity.
Defined.

(** ** Where a run writes *)

Section Confined.
Import PathFacts Tree.

Context (X : Externals) (self : Backuper) (cwd tp : path) (fs0 : gmap path node).
Hypothesis Htd : FS.resolve cwd (_temp_dir self) = Some tp.

(** The entries of [fs0] that are not directly inside the temp
    directory are still there, unchanged. *)
Definition kept (w : World) : Prop :=
  w_cwd w = cwd ∧
  ∀ k n, FS.child_of tp k = None → fs0 !! k = Some n → w_fs w !! k = Some n.

Lemma child_not_outside n : FS.child_of tp (tp ++ [n]) ≠ None.
Proof. by rewrite (proj2 (child_of_spec tp (tp ++ [n]) n) eq_refl). Qed.

Lemma kept_insert w n v :
  kept w → kept (with_fs (<[tp ++ [n] := v]> (w_fs w)) w).
Proof.
  intros [Hc Hk]. split; [done|]. intros k x Hout Hx. cbn [w_fs with_fs].
  rewrite lookup_insert_ne; [by apply Hk|]. intros <-. by apply (child_not_outside n).
Qed.

Lemma kept_delete w n :
  kept w → kept (with_fs (delete (tp ++ [n]) (w_fs w)) w).
Proof.
  intros [Hc Hk]. split; [done|]. intros k x Hout Hx. cbn [w_fs with_fs].
  rewrite lookup_delete_ne; [by apply Hk|]. intros <-. by apply (child_not_outside n).
Qed.

Lemma kept_emit e : preserves kept (emit e).
Proof. by intros w Hw. Qed.

Lemma kept_path_exists s : preserves kept (path_exists s).
Proof. by intros w Hw. Qed.

Lemma kept_getsize s : preserves kept (getsize X s).
Proof. intros w Hw. by rewrite getsize_world. Qed.

Lemma kept_makedirs s : preserves kept (makedirs s).
Proof.
  intros w [Hc Hk]. unfold makedirs.
  destruct (FS.resolve (w_cwd w) s) as [p|]; [|done].
  destruct (FS.mkdir_p (w_fs w) [] p) as [fs|] eqn:Hm; [|done].
  split; [done|]. intros k n Hout Hn. cbn [set_fs snd w_fs with_fs].
  eapply mkdir_p_mono; [done|]. by apply Hk.
Qed.

Lemma kept_create_file n d :
  plain n = true → preserves kept (create_file (PyStr.join (_temp_dir self) n) d).
Proof.
  intros Hn w Hw. pose proof Hw as [Hc _]. unfold create_file.
  rewrite Hc, (resolve_join _ _ _ _ Htd Hn).
  destruct (FS.lookup (w_fs w) (tp ++ [n])) as [[|d1]|];
    destruct (FS.lookup (w_fs w) (removelast (tp ++ [n]))) as [[|d2]|];
    first [done | by apply kept_insert].
Qed.

Lemma kept_os_remove n :
  plain n = true → preserves kept (os_remove (PyStr.join (_temp_dir self) n)).
Proof.
  intros Hn w Hw. pose proof Hw as [Hc _]. unfold os_remove.
  rewrite Hc, (resolve_join _ _ _ _ Htd Hn).
  destruct (FS.lookup (w_fs w) (tp ++ [n])) as [[|d1]|];
    first [done | by apply kept_delete].
Qed.

Lemma kept_tar_add n src arcname :
  plain n = true →
  preserves kept (tar_add X (PyStr.join (_temp_dir self) n) src arcname).
Proof.
  intros Hn w Hw. pose proof Hw as [Hc _]. unfold tar_add.
  rewrite Hc, (resolve_join _ _ _ _ Htd Hn).
  destruct (FS.resolve cwd src) as [sp|]; [|done].
  destruct (FS.lookup (w_fs w) sp); [|done].
  destruct (x_tar_add_error X sp); [done|].
  destruct (w_fs w !! (tp ++ [n])) as [[|[t|es]]|]; first [done | by apply kept_insert].
Qed.

Ltac conf :=
  repeat first
    [ apply preserves_ret | apply preserves_raise | apply preserves_sys_exit
    | apply preserves_get_world | apply preserves_environ_get
    | apply kept_emit | apply kept_path_exists | apply kept_getsize | apply kept_makedirs
    | apply kept_create_file; first [assumption | reflexivity | apply archive_name_plain]
    | apply kept_os_remove; first [assumption | reflexivity]
    | apply kept_tar_add; apply archive_name_plain
    | apply preserves_bind; [|intros ?]
    | apply preserves_try_except; [|intros ?]
    | apply preserves_try_finally
    | apply preserves_for_each; intros ?
    | match goal with
      | |- preserves _ (if ?b then _ else _) => destruct b
      | |- preserves _ (match ?x with _ => _ end) => destruct x
      end ].

Lemma kept__create_db_dump db :
  plain (dump_filename db) = true → preserves kept (_create_db_dump X self db).
Proof. intros Hdn. unfold _create_db_dump, run_to_file, print. conf. Qed.

Lemma kept__create_archive ts d : preserves kept (_create_archive X self ts d).
Proof. unfold _create_archive, add_target, print, tar_open. conf. Qed.

Lemma kept__upload_to_s3 f c : preserves kept (_upload_to_s3 X f c).
Proof. unfold _upload_to_s3, s3_client, s3_upload_file, print. conf. Qed.

Lemma kept_notify n text : preserves kept (_should_send n) ∧ preserves kept (_send X n text).
Proof. split; unfold _should_send, _send, requests_post, print; conf. Qed.

Lemma kept_Run_guarded :
  plain (dump_filename (database (_cfg self))) = true →
  preserves kept (Run_guarded X self).
Proof.
  intros Hdn. unfold Run_guarded, Run_try, Run_except, send_success, send_error, print.
  apply preserves_try_except.
  - apply preserves_bind; [apply kept_makedirs|intros _].
    apply preserves_bind; [by apply kept__create_db_dump|intros d].
    apply preserves_bind; [apply kept__create_archive|intros a].
    apply preserves_bind; [apply kept__upload_to_s3|intros _].
    apply preserves_bind; [apply kept_notify; exact ""|intros [|]]; simpl;
      [apply kept_notify|apply preserves_ret].
  - intros e. apply preserves_bind; [apply kept_emit|intros _].
    apply preserves_bind; [|intros _; apply preserves_sys_exit].
    apply preserves_bind; [apply kept_notify; exact ""|intros [|]]; simpl;
      [apply kept_notify|apply preserves_ret].
Qed.

End Confined.

(** X6. A run writes and deletes inside the temp directory only.  In a
    well-formed tree, and with a dump file name that is a plain file
    name, every entry that exists when [Run] starts and does not lie
    directly inside the temp directory -- the mounted project, the
    config file, what lies deeper in the temp directory -- is there
    unchanged when [Run] is over, however the run ends. *)
Theorem run_confined_to_temp_dir (X : Externals) (self : Backuper) (w : World)
    (tp : path) :
  Tree.wf_world w →
  FS.resolve (w_cwd w) (_temp_dir self) = Some tp →
  PathFacts.plain (dump_filename (database (_cfg self))) = true →
  ∀ k n, FS.child_of tp k = None → w_fs w !! k = Some n →
         w_fs (Run X self w).2 !! k = Some n.
Proof.
  intros Hwf Htd Hdn k n Hout Hk. rewrite Run_unfold, try_finally_world.
  set (w1 := (Run_guarded X self w).2).
  assert (Tree.wf_world w1) as Hwf1.
  { by apply (preserves_Run_guarded X _ _ self Tree.invariant_wf (λ _ _, I)). }
  assert (kept (w_cwd w) tp (w_fs w) w1) as [Hcwd Hkept].
  { by apply (kept_Run_guarded X self (w_cwd w) tp (w_fs w) Htd Hdn w). }
  specialize (Hkept k n Hout Hk). rewrite <- Hcwd in Htd.
  destruct (FS.lookup (w_fs w1) tp) as [[|d]|] eqn:Htp.
  - destruct (cleanup_sweeps self w1 tp Hwf1 Htd Htp) as (fs' & -> & Hfs).
    cbn [snd w_fs with_fs]. rewrite Hfs. unfold swept. by rewrite Hout.
  - by rewrite (cleanup_on_file self w1 tp d).
  - by rewrite (cleanup_absent self w1 tp).
Qed.

Lemma run_confined_to_temp_dir_witness :
  w_fs (Run Scenario.ext Scenario.backuper Scenario.world).2 !! ["host_data"; "env"]
  = Some (Reg (Text "SECRET=1")).
Proof.
  apply (run_confined_to_temp_dir Scenario.ext Scenario.backuper Scenario.world
           ["tmp"; "backup"] scenario_world_wf); reflexivity.
Defined.

(** ** The dump stage, outcome by outcome *)

Section DumpStage.
Import PathFacts Tree.

Context (X : Externals).

(** Writing a file of a plain name into a directory. *)
Lemma create_file_in td tp n d w :
  FS.resolve (w_cwd w) td = Some tp → plain n = true →
  FS.lookup (w_fs w) tp = Some Dir → w_fs w !! (tp ++ [n]) ≠ Some Dir →
  create_file (PyStr.join td n) d w =
    (Ret tt, with_fs (<[tp ++ [n] := Reg d]> (w_fs w)) w).
Proof.
  intros Htd Hn Htp Hnd. unfold create_file.
  rewrite (resolve_join _ _ _ _ Htd Hn), removelast_last, Htp.
  rewrite lookup_nonroot by by destruct tp.
  by destruct (w_fs w !! (tp ++ [n])) as [[|d0]|].
Qed.

(** [if os.path.exists(s): os.remove(s)] on a regular file. *)
Lemma remove_if_present s p d w :
  FS.resolve (w_cwd w) s = Some p → p ≠ [] → w_fs w !! p = Some (Reg d) →
  (present ← path_exists s ; if (present : bool) then os_remove s else mret tt) w
  = (Ret tt, with_fs (delete p (w_fs w)) w).
Proof.
  intros Hres Hne Hp. rewrite bind_run. unfold path_exists, os_remove.
  rewrite Hres, lookup_nonroot, Hp by done. simpl.
  by rewrite Hres, lookup_nonroot, Hp.
Qed.

(** The command that writes to a file of a plain name in a directory. *)
Lemma run_to_file_in cmd td tp n w :
  FS.resolve (w_cwd w) td = Some tp → plain n = true →
  FS.lookup (w_fs w) tp = Some Dir → w_fs w !! (tp ++ [n]) ≠ Some Dir →
  let w1 := with_trace (w_trace w ++ [Subprocess cmd])
              (with_fs (<[tp ++ [n] := Reg (Text "")]> (w_fs w)) w) in
  run_to_file X cmd (PyStr.join td n) w =
    match x_subprocess X cmd (w_fs w1) with
    | SpawnFailed msg => (Raise (PyExc OSError msg), w1)
    | Exited code out =>
        (if (code =? 0)%Z then Ret tt
         else Raise (PyExc CalledProcessError (x_str_called_process_error X cmd code)),
         with_fs (<[tp ++ [n] := Reg (Text out)]> (w_fs w1)) w1)
    end.
Proof.
  intros Htd Hn Htp Hnd w1. unfold run_to_file.
  rewrite bind_run, (create_file_in td tp n) by done.
  rewrite bind_run. cbn [emit fst snd].
  rewrite bind_run. cbn [get_world].
  match goal with |- context [x_subprocess X cmd (w_fs ?a)] => change a with w1 end.
  destruct (x_subprocess X cmd (w_fs w1)) as [code out|msg]; [|done].
  rewrite bind_run, (create_file_in td tp n); [|done|done|..].
  - by destruct (code =? 0)%Z.
  - cbn [w_fs w1 with_fs with_trace]. apply lookup_dir_insert; [done|done].
  - cbn [w_fs w1 with_fs with_trace]. by rewrite lookup_insert_eq.
Qed.

End DumpStage.

(** X7. The dump stage, outcome by outcome.  Let the database be
    enabled, the temp directory be creatable, the dump file name be a
    plain file name other than that of the credential file, and neither
    name be taken by a directory.  The command is started on files that
    hold the credential file (host, user and the password of
    [DB_PASSWORD]) and an empty dump file.  If it exits with status 0,
    the stage returns the path of the dump file, which holds exactly
    the output of the command.  If it exits with another status, the
    stage prints the error and exits the process with status 1, and
    the dump file holds the output so far.  If it cannot be started,
    the exception leaves the stage as it is.  In all three cases the
    credential file is gone afterwards. *)
Theorem dump_stage_by_outcome (X : Externals) (self : Backuper) (db : DatabaseConfig)
    (w : World) (tp : path) (fs1 : gmap path node) :
  let auth := tp ++ ["mysql_auth.cnf"] in
  let dp := tp ++ [dump_filename db] in
  let auth_path := PyStr.join (_temp_dir self) "mysql_auth.cnf" in
  let dump_file := PyStr.join (_temp_dir self) (dump_filename db) in
  let cred := auth_config_text db (w_env w !! "DB_PASSWORD") in
  let fs2 := <[dp := Reg (Text "")]> (<[auth := Reg (Text cred)]> fs1) in
  let started := w_trace w ++ [Stdout "MySQL: Creating dump...";
                               Subprocess (dump_cmd auth_path)] in
  db_enabled db = true →
  FS.resolve (w_cwd w) (_temp_dir self) = Some tp →
  FS.mkdir_p (w_fs w) [] tp = Some fs1 →
  PathFacts.plain (dump_filename db) = true →
  dump_filename db ≠ "mysql_auth.cnf" →
  fs1 !! auth ≠ Some Dir → fs1 !! dp ≠ Some Dir →
  _create_db_dump X self db w =
    match x_subprocess X (dump_cmd auth_path) fs2 with
    | Exited code out =>
        let fs3 := delete auth (<[dp := Reg (Text out)]> fs2) in
        if (code =? 0)%Z then
          (Ret (Some dump_file),
           with_fs fs3 (with_trace
             (started ++ [Stdout ("MySQL: Dump created at " +:+ dump_file)]) w))
        else
          (Raise (SystemExit 1),
           with_fs fs3 (with_trace
             (started ++ [Stdout ("MySQL Error: " +:+
                x_str_called_process_error X (dump_cmd auth_path) code)]) w))
    | SpawnFailed msg =>
        (Raise (PyExc OSError msg), with_fs (delete auth fs2) (with_trace started w))
    end.
Proof.
  intros auth dp auth_path dump_file cred fs2 started Hen Htd Hmk Hdn Hne Hna Hnd.
  assert (FS.lookup fs1 tp = Some Dir) as Htp
    by exact (Tree.mkdir_p_dir (w_fs w) [] tp fs1 Hmk eq_refl).
  assert (auth ≠ dp) as Hap by (intros [_ [= E]]%app_inj_tail; by rewrite <- E in Hne).
  assert (auth ≠ []) as Hane by (unfold auth; by destruct tp).
  unfold _create_db_dump. rewrite Hen. cbn [negb].
  rewrite bind_run. cbn [print emit fst snd].
  set (w0 := with_trace (w_trace w ++ [Stdout "MySQL: Creating dump..."]) w).
  rewrite bind_run. unfold makedirs at 1. cbn [w_cwd w_fs w0 with_trace].
  rewrite Htd, Hmk. cbn [set_fs]. fold w0.
  rewrite bind_run. cbn [environ_get w_env with_fs with_trace w0]. fold w0. fold cred.
  rewrite bind_run. fold auth_path.
  unfold auth_path at 1.
  rewrite (create_file_in (_temp_dir self) tp "mysql_auth.cnf") by done.
  cbn [w_fs with_fs]. fold auth.
  set (w2 := with_fs (<[auth := Reg (Text cred)]> fs1) (with_fs fs1 w0)).
  unfold try_finally, try_except. fold dump_file. rewrite bind_run.
  unfold dump_file at 1.
  rewrite (run_to_file_in X (dump_cmd auth_path) (_temp_dir self) tp (dump_filename db) w2);
    [|done|done|..].
  2:{ apply Tree.lookup_dir_insert; [done|done]. }
  2:{ cbn [w_fs w2 with_fs]. by rewrite lookup_insert_ne. }
  cbn [w_fs w_trace w2 w0 with_fs with_trace]. fold dp. fold fs2.
  assert ((w_trace w ++ [Stdout "MySQL: Creating dump..."])
            ++ [Subprocess (dump_cmd auth_path)]
          = started) as -> by (unfold started; by rewrite <- app_assoc).
  assert (∀ w' : World,
            w_cwd w' = w_cwd w → w_env w' = w_env w →
            w_fs w' !! auth = Some (Reg (Text cred)) →
            (present ← path_exists auth_path ;
             if (present : bool) then os_remove auth_path else mret tt) w'
            = (Ret tt, with_fs (delete auth (w_fs w')) (with_trace (w_trace w') w))) as Hfin.
  { intros w' Hc He Hfs.
    rewrite (remove_if_present auth_path auth (Text cred)).
    - f_equal. destruct w, w'. unfold with_fs, with_trace. simpl in *. by subst.
    - rewrite Hc. by apply PathFacts.resolve_join.
    - done.
    - done. }
  assert (∀ out, <[dp := Reg (Text out)]> fs2 !! auth = Some (Reg (Text cred))) as Hcred.
  { intros out. rewrite lookup_insert_ne by done. unfold fs2.
    rewrite lookup_insert_ne by done. apply lookup_insert_eq. }
  destruct (x_subprocess X (dump_cmd auth_path) fs2) as [code out|msg].
  - destruct (code =? 0)%Z.
    + rewrite bind_run. cbn [print emit fst snd w_trace w_fs with_fs with_trace].
      cbn [mret M_ret fst snd].
      rewrite Hfin; [done|done|done|apply Hcred].
    + cbn [is_CalledProcessError exc_class_eqb]. rewrite bind_run.
      cbn [print emit fst snd str_exn w_trace w_fs with_fs with_trace sys_exit raise].
      rewrite Hfin; [done|done|done|apply Hcred].
  - cbn [is_CalledProcessError exc_class_eqb].
    rewrite Hfin; [done|done|done|]. unfold fs2.
    cbn [w_fs with_fs with_trace]. rewrite lookup_insert_ne by done. apply lookup_insert_eq.
Qed.

Lemma dump_stage_by_outcome_witness :
  let r := _create_db_dump Scenario.ext Scenario.backuper (database Scenario.settings)
             Scenario.world in
  r.1 = Ret (Some "/tmp/backup/dump.sql") ∧
  w_fs r.2 !! ["tmp"; "backup"; "dump.sql"] = Some (Reg (Text "-- dump")) ∧
  w_fs r.2 !! ["tmp"; "backup"; "mysql_auth.cnf"] = None.
Proof.
  intros r. unfold r.
  rewrite (dump_stage_by_outcome Scenario.ext Scenario.backuper (database Scenario.settings)
             Scenario.world ["tmp"; "backup"]
             (<[ ["tmp"; "backup"] := Dir ]> Scenario.files)).
  - vm_compute. repeat split; reflexivity.
  - reflexivity.
  - reflexivity.
  - reflexivity.
  - reflexivity.
  - discriminate.
  - by vm_compute.
  - by vm_compute.
Defined.

(** ** Two ways the upload stage fails *)

Section UploadStage.

Context (X : Externals).

(** The upload stage, outcome by outcome. *)
Lemma upload_run file c w :
  let line := Stdout ("S3: Uploading to bucket: " +:+ bucket_name c) in
  let call := S3Upload (endpoint c) (region c) (w_env w !! "AWS_ACCESS_KEY_ID")
                (w_env w !! "AWS_SECRET_ACCESS_KEY") (f_path file) (bucket_name c)
                (f_name file) in
  _upload_to_s3 X file c w =
    if s3_enabled c then
      match x_s3_client_error X (endpoint c) (region c) with
      | Some msg => (Raise (PyExc LibraryError msg), with_trace (w_trace w ++ [line]) w)
      | None =>
          match x_s3_upload_error X (endpoint c) (region c) (f_path file) (bucket_name c)
                  (f_name file) with
          | Some msg =>
              (Raise (SystemExit 1),
               with_trace (w_trace w ++ [line; call; Stdout ("S3 Error: " +:+ msg)]) w)
          | None =>
              (Ret tt,
               with_trace (w_trace w ++ [line; call; Stdout "S3: Upload successful!"]) w)
          end
      end
    else
      (Ret tt,
       with_trace (w_trace w ++ [line; Stdout "S3: Upload skipped (disabled in config)."]) w).
Proof.
  unfold _upload_to_s3, s3_client, s3_upload_file, try_except, print, emit,
    environ_get, sys_exit, raise, mbind, M_bind, mret, M_ret.
  destruct (s3_enabled c); cbn [negb fst snd w_trace w_env with_trace].
  - destruct (x_s3_client_error X (endpoint c) (region c));
      cbn [fst snd w_trace w_env with_trace]; [done|].
    destruct (x_s3_upload_error X _ _ _ _ _);
      cbn [fst snd w_trace w_env with_trace is_Exception str_exn];
      unfold with_trace; cbn; by rewrite <- !app_assoc.
  - unfold with_trace; cbn; by rewrite <- !app_assoc.
Qed.

(** The [try] block of [Run] once the archive is made. *)
Lemma Run_try_upload self w w1 d w2 a w3 :
  makedirs (_temp_dir self) w = (Ret tt, w1) →
  _create_db_dump X self (database (_cfg self)) w1 = (Ret d, w2) →
  _create_archive X self (targets (_cfg self)) d w2 = (Ret a, w3) →
  Run_try X self w =
    (_upload_to_s3 X a (s3 (_cfg self)) ;;
     send_success X (_notifier self) (f_name a) (size_mb a)) w3.
Proof.
  intros Hmk Hd Ha. unfold Run_try.
  by rewrite (bind_Ret _ _ _ _ _ Hmk), (bind_Ret _ _ _ _ _ Hd), (bind_Ret _ _ _ _ _ Ha).
Qed.

End UploadStage.

(** X8. The upload stage fails in two ways, and [Run] treats them
    differently.  Let the archive be made and uploads be enabled.  If
    the storage client cannot be created, the exception is raised
    outside the stage's own handler: it reaches the handler of [Run],
    and the failure is reported with its text.  If the client is made
    and [upload_file] raises, the stage prints [S3 Error] and exits by
    itself: no message is sent.  The exit status is 1 in both cases. *)
Theorem upload_failures_differ (X : Externals) (self : Backuper)
    (w w1 w2 w3 : World) (d : option string) (a : File) :
  let c := s3 (_cfg self) in
  makedirs (_temp_dir self) w = (Ret tt, w1) →
  _create_db_dump X self (database (_cfg self)) w1 = (Ret d, w2) →
  _create_archive X self (targets (_cfg self)) d w2 = (Ret a, w3) →
  s3_enabled c = true →
  (∀ msg, x_s3_client_error X (endpoint c) (region c) = Some msg →
     posts (w_trace (Run X self w).2) =
       posts (w_trace w3) ++ (if armed (_notifier self) then [error_text msg] else []) ∧
     uploads (w_trace (Run X self w).2) = uploads (w_trace w3) ∧
     exit_status (Run X self w).1 = 1%Z) ∧
  (∀ msg, x_s3_client_error X (endpoint c) (region c) = None →
     x_s3_upload_error X (endpoint c) (region c) (f_path a) (bucket_name c) (f_name a)
       = Some msg →
     posts (w_trace (Run X self w).2) = posts (w_trace w3) ∧
     uploads (w_trace (Run X self w).2) =
       uploads (w_trace w3) ++ [(bucket_name c, f_name a)] ∧
     Stdout ("S3 Error: " +:+ msg) ∈ w_trace (Run X self w).2 ∧
     exit_status (Run X self w).1 = 1%Z).
Proof.
  intros c Hmk Hd Ha Hen.
  pose proof (Run_try_upload X self w w1 d w2 a w3 Hmk Hd Ha) as Ht.
  rewrite bind_run, upload_run in Ht. fold c in Ht. rewrite Hen in Ht.
  pose proof (Run_trace X self w) as Htr. rewrite Run_guarded_run in Htr.
  split.
  - intros msg Hcl. rewrite Hcl in Ht. rewrite Ht in Htr.
    cbn [fst snd w_trace with_trace] in Htr.
    split; [|split; [|by eapply Run_failed_status]]; rewrite Htr.
    + rewrite !posts_app. change (posts (Stdout ?s :: ?l)) with (posts l).
      by rewrite posts_notify_events, !app_nil_r.
    + rewrite !uploads_app. change (uploads (Stdout ?s :: ?l)) with (uploads l).
      by rewrite uploads_notify_events, !app_nil_r.
  - intros msg Hcl Hup. rewrite Hcl, Hup in Ht. rewrite Ht in Htr.
    cbn [fst snd w_trace with_trace] in Htr.
    split; [|split; [|split; [|by eapply Run_failed_status]]]; rewrite Htr.
    + rewrite !posts_app. simpl. by rewrite !app_nil_r.
    + rewrite !uploads_app. simpl. by rewrite !app_nil_r.
    + apply elem_of_app. left. apply elem_of_app. right.
      by do 2 right; left.
Qed.

Definition with_s3_client_error (f : string → string → option string) (X : Externals)
  : Externals := {|
  x_now := x_now X; x_load_config := x_load_config X; x_subprocess := x_subprocess X;
  x_str_called_process_error := x_str_called_process_error X;
  x_tar_add_error := x_tar_add_error X; x_stat_size := x_stat_size X;
  x_s3_client_error := f; x_s3_upload_error := x_s3_upload_error X;
  x_http_post_error := x_http_post_error X; x_format_2f := x_format_2f X
|}.

Lemma upload_failures_differ_witness :
  let X1 := with_s3_client_error (λ _ _, Some "Invalid endpoint") Scenario.ext in
  let X2 := Scenario.with_s3_upload_error (λ _ _ _ _ _, Some "AccessDenied") Scenario.ext in
  posts (w_trace (Run X1 Scenario.backuper Scenario.world).2)
    = [error_text "Invalid endpoint"] ∧
  posts (w_trace (Run X2 Scenario.backuper Scenario.world).2) = [].
Proof.
  intros X1 X2.
  set (w1 := (makedirs TEMP_DIR Scenario.world).2).
  set (r2 := _create_db_dump Scenario.ext Scenario.backuper (database Scenario.settings) w1).
  set (d := match r2.1 with Ret d => d | Raise _ => None end).
  set (r3 := _create_archive Scenario.ext Scenario.backuper (targets Scenario.settings)
               d r2.2).
  set (a := match r3.1 with Ret a => a | Raise _ => archive_file end).
  assert (makedirs TEMP_DIR Scenario.world = (Ret tt, w1)) as H1
    by (apply ended_with; vm_compute; reflexivity).
  assert (r2 = (Ret d, r2.2)) as H2
    by (apply returned_value; vm_compute; reflexivity).
  assert (r3 = (Ret a, r3.2)) as H3
    by (apply returned_value; vm_compute; reflexivity).
  split.
  - destruct (upload_failures_differ X1 Scenario.backuper Scenario.world w1 r2.2 r3.2 d a
                H1 H2 H3 eq_refl) as [H _].
    destruct (H "Invalid endpoint" eq_refl) as (Hp & _ & _).
    rewrite Hp. vm_compute. reflexivity.
  - destruct (upload_failures_differ X2 Scenario.backuper Scenario.world w1 r2.2 r3.2 d a
                H1 H2 H3 eq_refl) as [_ H].
    destruct (H "AccessDenied" eq_refl eq_refl) as (Hp & _ & _).
    rewrite Hp. vm_compute. reflexivity.
Defined.

(** ** The archive stage when a target cannot be read *)

Section ArchiveFailure.
Import PathFacts.

Context (X : Externals).



End ArchiveFailure.



(** ** Building the [Backuper] *)

Section Init.

Context (X : Externals).

Lemma overridden_keeps {A} env name assign (get : BackupConfig → A) c :
  (∀ x c, get (assign x c) = get c) →
  get (overridden env name assign c) = get c.
Proof.
  intros Hget. unfold overridden.
  destruct (PyStr.truthy (env !! name)); [|done].
  destruct (env !! name); simpl; [apply Hget|done].
Qed.

(** The object [__init__] returns, field by field. *)
Lemma init_run c t m w b w' :
  Backuper__init__ X c t m w = (Ret b, w') →
  ∃ cfg, _load_config X c w = (Ret cfg, w) ∧ w' = w ∧
    let c5 :=
      overridden (w_env w) "DB_HOST" set_container_name
        (overridden (w_env w) "TELEGRAM_CHAT_ID" set_chat_id
           (overridden (w_env w) "S3_REGION" set_region
              (overridden (w_env w) "S3_BUCKET_NAME" set_bucket_name
                 (overridden (w_env w) "S3_ENDPOINT" set_endpoint (backup cfg))))) in
    b = {| _temp_dir := t; _mount_root := m; _cfg := c5;
           _notifier := {| _config := telegram c5;
                           _token := w_env w !! "TELEGRAM_BOT_TOKEN" |} |}.
Proof.
  unfold Backuper__init__. intros (cfg & w0 & Hl & H)%bind_Ret_inv.
  apply load_config_world in Hl as Hw. subst w0. exists cfg. split; [done|].
  rewrite bind_run, env_override_run in H.
  rewrite bind_run, env_override_run in H.
  rewrite bind_run, env_override_run in H.
  rewrite bind_run, env_override_run in H.
  rewrite bind_run, env_override_run in H.
  unfold TelegramNotifier__init__ in H. rewrite !bind_run in H. simpl in H.
  by injection H as <- <-.
Qed.

(** A config that loaded is what the parser made of some text. *)
Lemma load_config_parsed s w cfg w' :
  _load_config X s w = (Ret cfg, w') → ∃ text, x_load_config X text = inr cfg.
Proof.
  unfold _load_config. intros (p & w1 & _ & H)%bind_Ret_inv.
  destruct (negb p); [by apply bind_Ret_inv in H as (? & ? & _ & ?)|].
  apply bind_Ret_inv in H as (text & w2 & _ & H). exists text.
  destruct (x_load_config X text); [done|]. by injection H as ->.
Qed.

End Init.

(** X10. Building the [Backuper] only reads.  When [__init__] returns,
    the world is as it was; the object holds the temp directory and the
    mount root it was given; the notifier works on the notification
    settings after the overrides (so an override of the chat id reaches
    it) and on the token of [TELEGRAM_BOT_TOKEN]; and the settings no
    environment variable stands for -- the three [enabled] switches,
    the database user, the dump file name and the targets -- are those
    of the config file, whatever the environment holds. *)
Theorem init_only_reads (X : Externals) (c t m : string) (w : World)
    (b : Backuper) (w' : World) :
  Backuper__init__ X c t m w = (Ret b, w') →
  w' = w ∧ _temp_dir b = t ∧ _mount_root b = m ∧
  _config (_notifier b) = telegram (_cfg b) ∧
  _token (_notifier b) = w_env w !! "TELEGRAM_BOT_TOKEN" ∧
  ∃ cfg, _load_config X c w = (Ret cfg, w) ∧
    s3_enabled (s3 (_cfg b)) = s3_enabled (s3 (backup cfg)) ∧
    db_enabled (database (_cfg b)) = db_enabled (database (backup cfg)) ∧
    db_user (database (_cfg b)) = db_user (database (backup cfg)) ∧
    dump_filename (database (_cfg b)) = dump_filename (database (backup cfg)) ∧
    tg_enabled (telegram (_cfg b)) = tg_enabled (telegram (backup cfg)) ∧
    targets (_cfg b) = targets (backup cfg).
Proof.
  intros (cfg & Hload & -> & Hb)%init_run. cbv zeta in Hb. subst b.
  cbn [_temp_dir _mount_root _cfg _notifier _config _token].
  split_and!; try done. exists cfg. split; [done|].
  split_and!;
    match goal with |- ?get (?proj (overridden _ _ _ _)) = _ =>
      rewrite !(overridden_keeps _ _ _ (λ c, get (proj c))) by done
    | |- ?get (overridden _ _ _ _) = _ =>
      rewrite !(overridden_keeps _ _ _ get) by done
    end; reflexivity.
Qed.

Lemma init_only_reads_witness :
  _config (_notifier backuper_B) = telegram (_cfg backuper_B) ∧
  targets (_cfg backuper_B) = ["./data"; ".env"; "missing"].
Proof.
  destruct (init_only_reads Scenario.ext CONFIG_PATH TEMP_DIR MOUNT_ROOT world_bucket_B
              backuper_B world_bucket_B init_bucket_B)
    as (_ & _ & _ & Hn & _ & cfg & Hload & _ & _ & _ & _ & _ & Hts).
  split; [exact Hn|]. rewrite Hts.
  destruct (load_config_parsed _ _ _ _ _ Hload) as [text Hc].
  injection Hc as <-. reflexivity.
Defined.

(** X11. When the settings cannot be loaded, nothing else happens.
    Without a config file, [main] prints the one line that says so and
    exits with status 1; with a config file that does not parse, the
    error leaves [main] as it is.  In both cases the files are as they
    were: no temp directory is made, no message is sent and the cleanup
    step does not run. *)
Theorem config_failure_stops_early (X : Externals) (w : World) :
  ((path_exists CONFIG_PATH w).1 = Ret false →
   main X w =
     (Raise (SystemExit 1),
      with_trace (w_trace w ++ [Stdout "Error: Config not found at /app/config.yaml"]) w)) ∧
  (∀ text msg,
     (read_text CONFIG_PATH w).1 = Ret text → x_load_config X text = inl msg →
     main X w = (Raise (PyExc ValueError msg), w)).
Proof.
  split.
  - intros Hp. unfold main, Backuper__init__, _load_config.
    rewrite !bind_run, path_exists_present.
    rewrite path_exists_present in Hp. injection Hp as ->. done.
  - intros text msg Ht Hc. unfold main, Backuper__init__, _load_config.
    rewrite !bind_run, path_exists_present.
    assert (present (w_cwd w) (w_fs w) CONFIG_PATH = true) as ->.
    { unfold read_text in Ht. unfold present.
      destruct (FS.resolve (w_cwd w) CONFIG_PATH) as [p|]; [|done].
      by destruct (FS.lookup (w_fs w) p). }
    cbn [negb]. rewrite bind_run.
    pose proof (read_text_world CONFIG_PATH w) as Hw.
    destruct (read_text CONFIG_PATH w) as [r w0]. simpl in Ht, Hw. subst r w0.
    by rewrite Hc.
Qed.

Lemma config_failure_stops_early_witness :
  main Scenario.ext world_without_config =
    (Raise (SystemExit 1),
     with_trace [Stdout "Error: Config not found at /app/config.yaml"] world_without_config).
Proof.
  apply (proj1 (config_failure_stops_early Scenario.ext world_without_config)).
  reflexivity.
Defined.

(** ** When the notifier posts *)

(** X12. Sending a notification never raises and never touches the
    files or the environment.  It posts its text -- the success text
    with the name of the archive and the formatted size, or the failure
    text with the error between [<pre>] tags -- exactly when
    notifications are enabled and the token is a non-empty string; a
    token that is unset or empty posts nothing. *)
Theorem message_posted_iff_armed (X : Externals) (n : TelegramNotifier)
    (a : string) (sz : spec_float) (msg : string) (w : World) :
  let ok := send_success X n a sz w in
  let ko := send_error X n msg w in
  ok.1 = Ret tt ∧ ko.1 = Ret tt ∧
  same_but_trace ok.2 w ∧ same_but_trace ko.2 w ∧
  posts (w_trace ok.2) =
    posts (w_trace w) ++ (if armed n then [success_message X a sz] else []) ∧
  posts (w_trace ko.2) =
    posts (w_trace w) ++ (if armed n then [error_text msg] else []) ∧
  (armed n = true ↔
   tg_enabled (_config n) = true ∧ ∃ tok, _token n = Some tok ∧ tok ≠ "").
Proof.
  intros ok ko. unfold ok, ko. rewrite send_success_run, send_error_run.
  cbn [fst snd w_trace with_trace].
  rewrite !posts_app, !posts_notify_events.
  split_and!; try done.
  unfold armed. rewrite andb_true_iff. split.
  - intros [Hen Htok]. split; [done|].
    destruct (_token n) as [tok|]; [|done]. exists tok. split; [done|].
    intros ->. done.
  - intros [Hen (tok & -> & Hne)]. split; [done|]. by destruct tok.
Qed.

(** ** What the archive can hold *)

Section ArchiveContents.
Import PathFacts.

Context (X : Externals).



End ArchiveContents.



(** ** Where a target can lead *)

Section TargetPaths.
Import PyStr FS PathFacts.

Lemma lstrip_not_abs t : startswith_sep (lstrip "./" t) = false.
Proof.
  destruct (lstrip_spec "./" t) as (_ & _ & _ & Hrest).
  destruct (lstrip "./" t) as [|c r]; [done|].
  specialize (Hrest c r eq_refl). cbn [mem] in Hrest.
  apply orb_false_iff in Hrest as [_ [Hc _]%orb_false_iff]. exact Hc.
Qed.

(** Joining a directory name and a relative path name: resolution goes
    on from the directory. *)
Lemma resolve_join_relative cwd d s tp :
  resolve cwd d = Some tp → startswith_sep s = false →
  resolve cwd (join d s) = Some (fold_left step (split_sep s) tp).
Proof.
  intros Hd Hs. unfold join. rewrite Hs.
  assert (d ≠ "") as Hne by (intros ->; done).
  unfold resolve in Hd. destruct (String.eqb d "") eqn:Ed.
  { by apply String.eqb_eq in Ed. }
  simpl. injection Hd as Hd.
  destruct (endswith_sep d) eqn:Ee.
  - apply endswith_sep_inv in Ee as [d' ->].
    unfold resolve. rewrite append_nonempty by done.
    rewrite startswith_sep_app by done. f_equal.
    rewrite append_assoc, app_cons, app_nil.
    rewrite split_sep_app.
    rewrite split_sep_app, !walk_app in *. simpl in *.
    unfold step at 1 in Hd. simpl in Hd. by rewrite Hd.
  - unfold resolve. rewrite append_nonempty by done.
    rewrite startswith_sep_app by done. f_equal.
    change (d +:+ "/" +:+ s) with (d +:+ String slash s).
    by rewrite split_sep_app, walk_app, Hd.
Qed.

Lemma walk_prefix cs p :
  Forall (λ c, c ≠ "..") cs → p `prefix_of` fold_left step cs p.
Proof.
  revert p. induction cs as [|c cs IH]; intros p Hcs; [done|].
  inversion_clear Hcs as [|?? Hc Hrest]. simpl.
  etrans; [|by apply IH]. unfold step.
  destruct (String.eqb c "" || String.eqb c "."); [done|].
  apply String.eqb_neq in Hc as ->. by apply prefix_app_r.
Qed.

End TargetPaths.

(** X14. A target cannot name an absolute path.  What is left of a
    target after [lstrip("./")] never starts with a separator, so
    [os.path.join] never drops the mount root: the path looked up is
    resolved from the mount root on, piece by piece, and when no piece
    is [..] it lies inside the mount root.  ([/etc/passwd] is looked up
    at [/host_data/etc/passwd].) *)
Theorem target_stays_under_mount_root (cwd : path) (mount_root target : string)
    (mp : path) :
  FS.resolve cwd mount_root = Some mp →
  let rest := PyStr.lstrip "./" target in
  PyStr.startswith_sep rest = false ∧
  FS.resolve cwd (full_path_of mount_root target)
    = Some (fold_left FS.step (PyStr.split_sep rest) mp) ∧
  (Forall (λ c, c ≠ "..") (PyStr.split_sep rest) →
   ∃ sp, FS.resolve cwd (full_path_of mount_root target) = Some sp ∧ mp `prefix_of` sp).
Proof.
  intros Hmr rest.
  pose proof (lstrip_not_abs target) as Hrel. fold rest in Hrel.
  pose proof (resolve_join_relative cwd mount_root rest mp Hmr Hrel) as Hres.
  split; [done|]. split; [done|]. intros Hup. eexists. split; [exact Hres|].
  by apply walk_prefix.
Qed.

Lemma target_stays_under_mount_root_witness :
  FS.resolve [] (full_path_of MOUNT_ROOT "/etc/passwd") = Some ["host_data"; "etc"; "passwd"] ∧
  ∃ sp, FS.resolve [] (full_path_of MOUNT_ROOT "./data/logs") = Some sp ∧
        ["host_data"] `prefix_of` sp.
Proof.
  split.
  - exact (proj1 (proj2 (target_stays_under_mount_root [] MOUNT_ROOT "/etc/passwd"
                           ["host_data"] eq_refl))).
  - apply (proj2 (proj2 (target_stays_under_mount_root [] MOUNT_ROOT "./data/logs"
                           ["host_data"] eq_refl))).
    repeat constructor; discriminate.
Defined.

(** ** How the process can end *)

(** X15. The process ends with exit status 0 or 1 and no other: every
    [sys.exit] of the program has code 1, and everything else that
    leaves [main] is an uncaught exception. *)
Theorem exit_status_zero_or_one (X : Externals) (w : World) :
  exit_status (main X w).1 = 0%Z ∨ exit_status (main X w).1 = 1%Z.
Proof.
  pose proof (raises_main X w) as Hf.
  destruct (main X w).1 as [[]|e]; [by left|right].
  by apply fatal_exn_status, Hf.
Qed.

(** ** A temp directory that is a file *)

Section Blocked.
Import FS Tree.

Lemma mkdir_p_file fs at_ todo d :
  todo ≠ [] → fs !! (at_ ++ todo) = Some (Reg d) → mkdir_p fs at_ todo = None.
Proof.
  revert fs at_. induction todo as [|c rest IH]; intros fs at_ Hne Hf; [done|].
  simpl. destruct rest as [|c' rest].
  { by rewrite Hf. }
  assert (at_ ++ c :: c' :: rest = (at_ ++ [c]) ++ c' :: rest) as Heq
    by by rewrite <- app_assoc.
  rewrite Heq in Hf.
  destruct (fs !! (at_ ++ [c])) as [[|d']|] eqn:Hp; [by apply IH|done|].
  apply IH; [done|]. rewrite lookup_insert_ne; [done|].
  intros E. apply (f_equal length) in E. rewrite !length_app in E. simpl in E. lia.
Qed.

Lemma makedirs_on_file s p d w :
  resolve (w_cwd w) s = Some p → lookup (w_fs w) p = Some (Reg d) →
  makedirs s w = (Raise (PyExc OSError (EEXIST +:+ ": " +:+ PyStr.repr s)), w).
Proof.
  intros Hs Hp. unfold makedirs. rewrite Hs.
  destruct p as [|x p]; [done|].
  by rewrite (mkdir_p_file (w_fs w) [] (x :: p) d).
Qed.

End Blocked.

(** X16. When the path of the temp directory is taken by a regular
    file, [os.makedirs] fails, the failure is printed and handed to the
    notifier, and then the cleanup step itself raises on [os.listdir]:
    [Run] ends with that [OSError] in place of the [sys.exit(1)] of its
    handler.  The files are as they were. *)
Theorem temp_dir_taken_by_file (X : Externals) (self : Backuper) (w : World)
    (tp : path) (d : fdata) :
  FS.resolve (w_cwd w) (_temp_dir self) = Some tp →
  FS.lookup (w_fs w) tp = Some (Reg d) →
  let msg := EEXIST +:+ ": " +:+ PyStr.repr (_temp_dir self) in
  Run X self w =
    (Raise (PyExc OSError (ENOTDIR +:+ ": " +:+ PyStr.repr (_temp_dir self))),
     with_trace (w_trace w ++ Stdout ("CRITICAL ERROR: " +:+ msg)
                   :: notify_events X (_notifier self) (error_text msg)
                   ++ [Stdout cleanup_banner]) w).
Proof.
  intros Htd Htp msg.
  rewrite Run_unfold. unfold try_finally. rewrite Run_guarded_run.
  unfold Run_try. rewrite bind_run, (makedirs_on_file _ tp d) by done.
  rewrite (cleanup_on_file self _ tp d) by done.
  cbn [w_trace with_trace]. f_equal. unfold with_trace. cbn.
  by rewrite <- app_assoc.
Qed.

(** A host on which [/tmp/backup] is a regular file. *)
Definition world_blocked : World := {|
  w_env := w_env Scenario.world;
  w_cwd := [];
  w_fs := <[ ["tmp"; "backup"] := Reg (Text "") ]> Scenario.files;
  w_trace := []
|}.

Lemma temp_dir_taken_by_file_witness :
  (Run Scenario.ext Scenario.backuper world_blocked).1
    = Raise (PyExc OSError "[Errno 20] Not a directory: '/tmp/backup'") ∧
  posts (w_trace (Run Scenario.ext Scenario.backuper world_blocked).2)
    = [error_text "[Errno 17] File exists: '/tmp/backup'"].
Proof.
  rewrite (temp_dir_taken_by_file Scenario.ext Scenario.backuper world_blocked
             ["tmp"; "backup"] (Text "") eq_refl eq_refl).
  split; reflexivity.
Defined.
